(** * A shallow embedding of the flat FUSE filesystem of [HW4/P3/FUSE/main_fs.c]

    The program keeps one superblock and a table of [MAX_FILES] file entries
    in memory, mirrors them at the start of a fixed-size backing file, and
    gives every table index a fixed byte region of that file.  The handlers
    registered in [my_oper] are embedded as functions on an explicit state
    (the two globals and the content of the backing file); what the C
    library decides (the clock, whether a seek succeeds, how many bytes a
    stream transfers) is read from an explicit environment record. *)

From Stdlib Require Import ZArith List Ascii String Bool Lia.
From stdpp Require Import base tactics option list.

Local Open Scope Z_scope.

(** ** Machine integers *)

Module Int.

Definition wrap32 (z : Z) : Z := z mod 2 ^ 32.
Definition wrap64 (z : Z) : Z := z mod 2 ^ 64.

(** Conversion to [int] (32-bit two's complement). *)
Definition to_int (z : Z) : Z :=
  let w := wrap32 z in if w <? 2 ^ 31 then w else w - 2 ^ 32.

Definition INT_MAX : Z := 2 ^ 31 - 1.
Definition OFF_MAX : Z := 2 ^ 63 - 1.

End Int.
Import Int.

(** ** Constants of the layout *)

Definition FS_SIZE : Z := 1024 * 1024.
Definition FS_MAGIC : Z := 0xDEADBEEF.
Definition FS_VERSION : Z := 1.
Definition MAX_FILES : nat := 64.
Definition NAME_MAX_LEN : nat := 32.

(** Both structs are declared under [#pragma pack(push, 1)], so their sizes
    are the sums of the sizes of their fields. *)
Definition sizeof_Superblock : Z := 4 + 4 + 4 + 4.
Definition sizeof_FileEntry : Z := 1 + Z.of_nat NAME_MAX_LEN + 4 + 4 + 4 + 4.

Definition META_SIZE : Z := sizeof_Superblock + sizeof_FileEntry * Z.of_nat MAX_FILES.
Definition DATA_OFFSET : Z := META_SIZE.
Definition FILE_REGION_SIZE : Z := (FS_SIZE - DATA_OFFSET) / Z.of_nat MAX_FILES.

(** [errno] values and [open] flags of Linux, which the program takes from
    the system headers. *)
Definition ENOENT : Z := 2.
Definition EIO : Z := 5.
Definition EBADF : Z := 9.
Definition ENOTDIR : Z := 20.
Definition ENOSPC : Z := 28.
Definition O_CREAT : Z := 8 ^ 2.       (* 0100 *)
Definition O_TRUNC : Z := 8 ^ 3.       (* 01000 *)
Definition S_IFDIR : Z := 4 * 8 ^ 4.   (* 0040000 *)
Definition S_IFREG : Z := 8 ^ 5.       (* 0100000 *)

(** The octal mode literals of the source. *)
Definition mode_0644 : Z := 6 * 8 ^ 2 + 4 * 8 + 4.
Definition mode_0755 : Z := 7 * 8 ^ 2 + 5 * 8 + 5.

(** ** C strings

    A path is the list of its characters before the terminating NUL
    (written as a string through [chars]); a name buffer is the list of its
    bytes.  Reading a character past the end of either yields NUL. *)

Definition NUL : ascii := Ascii.zero.

Definition char_code (c : ascii) : Z := Z.of_nat (nat_of_ascii c).

Fixpoint strncmp (s1 s2 : list ascii) (n : nat) : Z :=
  match n with
  | O => 0
  | S n' =>
      let c1 := hd NUL s1 in
      let c2 := hd NUL s2 in
      if negb (Ascii.eqb c1 c2) then char_code c1 - char_code c2
      else if Ascii.eqb c1 NUL then 0
      else strncmp (tl s1) (tl s2) n'
  end.

Definition strcmp (s1 s2 : list ascii) : Z :=
  strncmp s1 s2 (S (length s1)).

(** [strncpy dst src n] writes exactly [n] characters at the start of [dst]:
    the characters of [src] up to its NUL, then NULs. *)
Fixpoint strncpy_chars (src : list ascii) (n : nat) : list ascii :=
  match n with
  | O => []
  | S n' =>
      match src with
      | [] => NUL :: strncpy_chars [] n'
      | c :: src' =>
          if Ascii.eqb c NUL then NUL :: strncpy_chars [] n'
          else c :: strncpy_chars src' n'
      end
  end.

Definition strncpy (dst src : list ascii) (n : nat) : list ascii :=
  strncpy_chars src n ++ drop n dst.

Definition memset (c : ascii) (n : nat) : list ascii := replicate n c.

(** The characters of a buffer up to its first NUL. *)
Fixpoint c_str (buf : list ascii) : list ascii :=
  match buf with
  | [] => []
  | c :: buf' => if Ascii.eqb c NUL then [] else c :: c_str buf'
  end.

Definition chars (s : string) : list ascii := list_ascii_of_string s.

(** [if (name[0] == '/') name++;] *)
Definition skip_slash (p : list ascii) : list ascii :=
  match p with
  | c :: p' => if Ascii.eqb c "/"%char then p' else p
  | [] => p
  end.

(** ** The data model *)

Record Superblock := mkSuperblock {
  magic : Z;
  version : Z;
  last_alloc : Z;
  file_count : Z
}.

Record FileEntry := mkFileEntry {
  used : Z;
  name : list ascii;
  start : Z;
  size : Z;
  perms : Z;
  mtime : Z
}.

(** What [memset(fe, 0, sizeof( *fe))] leaves in an entry. *)
Definition zero_entry : FileEntry :=
  {| used := 0; name := memset NUL NAME_MAX_LEN; start := 0; size := 0;
     perms := 0; mtime := 0 |}.

#[global] Instance FileEntry_inhabited : Inhabited FileEntry := populate zero_entry.

(** The content of the backing file, by byte offset. *)
Definition disk : Type := Z -> ascii.

(** [g_fs_file] is the stream opened by [fs_init], which either leaves it
    open or ends the process; the callbacks run after it. *)
Record fs_state := mkState {
  g_fs_file : disk;
  g_super : Superblock;
  g_files : list FileEntry
}.

Record fuse_file_info := mkFi {
  flags : Z;
  fh : Z
}.

Record stat := mkStat {
  st_mode : Z;
  st_nlink : Z;
  st_size : Z;
  st_atime : Z;
  st_mtime : Z;
  st_ctime : Z
}.

Definition zero_stat : stat :=
  {| st_mode := 0; st_nlink := 0; st_size := 0; st_atime := 0; st_mtime := 0;
     st_ctime := 0 |}.

(** ** The environment of one call

    [now] is what [time(NULL)] returns.  [open_ok], [seek_ok] and [putc_ok]
    say whether [fopen], [fseek] and [fputc] succeed.  [data_avail] is the
    number of bytes the stream transfers in the call's [fread] or [fwrite] on
    the data region before it fails (at least the requested count when the
    transfer succeeds).  [super_ok] and [table_ok] say whether the two
    [fwrite] calls of [fs_sync_metadata] succeed. *)
Record io_env := mkEnv {
  now : Z;
  open_ok : bool;
  seek_ok : bool;
  putc_ok : bool;
  data_avail : Z;
  super_ok : bool;
  table_ok : bool
}.

(** The count returned by [fread]/[fwrite] of [n] items of size 1. *)
Definition transferred (env : io_env) (n : Z) : Z :=
  Z.max 0 (Z.min n (data_avail env)).

(** ** Outcomes: [fatal] ends the process *)

Inductive outcome (A : Type) : Type :=
| Done (a : A)
| Fatal (msg : string).
Arguments Done {A} a.
Arguments Fatal {A} msg.

Definition bind {A B : Type} (m : outcome A) (k : A -> outcome B) : outcome B :=
  match m with
  | Done a => k a
  | Fatal msg => Fatal msg
  end.

Notation "'run' x ':=' m 'in' k" := (bind m (fun x => k))
  (at level 10, x name, m at level 100, k at level 200).

(** ** The backing file *)

Definition write_bytes (d : disk) (off : Z) (bs : list ascii) : disk :=
  fun a =>
    if (off <=? a) && (a <? off + Z.of_nat (length bs))
    then nth (Z.to_nat (a - off)) bs NUL
    else d a.

Definition read_bytes (d : disk) (off : Z) (n : Z) : list ascii :=
  map (fun k => d (off + Z.of_nat k)) (seq 0 (Z.to_nat n)).

(** The memory image of the metadata, as [fwrite] sends it to the file.  The
    host is taken to be little-endian. *)
Definition byte_of (z : Z) : ascii := ascii_of_N (Z.to_N (z mod 256)).

Definition le32 (z : Z) : list ascii :=
  [byte_of z; byte_of (z / 2 ^ 8); byte_of (z / 2 ^ 16); byte_of (z / 2 ^ 24)].

Definition fixed (n : nat) (l : list ascii) : list ascii :=
  take n (l ++ replicate n NUL).

Definition image_Superblock (s : Superblock) : list ascii :=
  le32 (magic s) ++ le32 (version s) ++ le32 (last_alloc s) ++ le32 (file_count s).

Definition image_FileEntry (e : FileEntry) : list ascii :=
  byte_of (used e) :: fixed NAME_MAX_LEN (name e)
    ++ le32 (start e) ++ le32 (size e) ++ le32 (perms e) ++ le32 (mtime e).

Definition image_table (files : list FileEntry) : list ascii :=
  flat_map (fun i => image_FileEntry (files !!! i)) (seq 0 MAX_FILES).

(** ** Utility functions *)

Definition is_used (e : FileEntry) : bool := negb (used e =? 0).

(** The body of the loop of [fs_recompute_last_alloc] at index [i]. *)
Definition recompute_step (files : list FileEntry) (i : nat) (last : Z) : Z :=
  let e := files !!! i in
  if is_used e && (size e >? 0) then
    let region_start := wrap32 (DATA_OFFSET + Z.of_nat i * FILE_REGION_SIZE) in
    let end_ := wrap32 (region_start + size e) in
    if end_ >? last then end_ else last
  else last.

(** The loop, at index [i] with [n] iterations left. *)
Fixpoint recompute_loop (files : list FileEntry) (i n : nat) (last : Z) : Z :=
  match n with
  | O => last
  | S n' => recompute_loop files (S i) n' (recompute_step files i last)
  end.

Definition fs_recompute_last_alloc (super : Superblock) (files : list FileEntry)
  : Superblock :=
  {| magic := magic super; version := version super;
     last_alloc := recompute_loop files 0 MAX_FILES (wrap32 DATA_OFFSET);
     file_count := file_count super |}.

Definition fs_sync_metadata (env : io_env) (super : Superblock)
    (files : list FileEntry) (d : disk) : outcome disk :=
  if negb (super_ok env) then Fatal "Failed to write superblock"
  else
    let d1 := write_bytes d 0 (image_Superblock super) in
    if negb (table_ok env) then Fatal "Failed to write file table"
    else Done (write_bytes d1 sizeof_Superblock (image_table files)).

Definition fs_format (env : io_env) : outcome fs_state :=
  if negb (open_ok env) then Fatal "Failed to create filesystem file"
  else if negb (seek_ok env) then Fatal "fseek failed when sizing filesystem file"
  else if negb (putc_ok env) then Fatal "fputc failed when sizing filesystem file"
  else
    let d : disk := fun _ => NUL in
    let super :=
      {| magic := FS_MAGIC; version := FS_VERSION;
         last_alloc := wrap32 DATA_OFFSET; file_count := 0 |} in
    let files := replicate MAX_FILES zero_entry in
    run d' := fs_sync_metadata env super files d in
    Done {| g_fs_file := d'; g_super := super; g_files := files |}.

(** ** File table helpers *)

(** [g_files[i].used && strncmp(g_files[i].name, name, NAME_MAX_LEN) == 0] *)
Definition name_matches (e : FileEntry) (nm : list ascii) : bool :=
  is_used e && (strncmp (name e) nm NAME_MAX_LEN =? 0).

Fixpoint find_loop (files : list FileEntry) (nm : list ascii) (i n : nat) : Z :=
  match n with
  | O => -1
  | S n' =>
      if name_matches (files !!! i) nm then Z.of_nat i
      else find_loop files nm (S i) n'
  end.

Definition find_file_by_name (files : list FileEntry) (path : list ascii) : Z :=
  find_loop files (skip_slash path) 0 MAX_FILES.

Fixpoint alloc_loop (files : list FileEntry) (i n : nat) : Z :=
  match n with
  | O => -1
  | S n' =>
      if negb (is_used (files !!! i)) then Z.of_nat i
      else alloc_loop files (S i) n'
  end.

Definition alloc_file_slot (files : list FileEntry) : Z :=
  alloc_loop files 0 MAX_FILES.

(** ** The FUSE callbacks

    Every callback returns the C return value first.  The callbacks that
    persist metadata end in [fs_sync_metadata] and so have an [outcome]. *)

Definition set_fh (fi : fuse_file_info) (idx : Z) : fuse_file_info :=
  {| flags := flags fi; fh := wrap64 idx |}.

Definition set_size (e : FileEntry) (sz : Z) : FileEntry :=
  {| used := used e; name := name e; start := start e; size := sz;
     perms := perms e; mtime := mtime e |}.

Definition set_mtime (e : FileEntry) (t : Z) : FileEntry :=
  {| used := used e; name := name e; start := start e; size := size e;
     perms := perms e; mtime := t |}.

Definition set_file_count (s : Superblock) (c : Z) : Superblock :=
  {| magic := magic s; version := version s; last_alloc := last_alloc s;
     file_count := c |}.

(** The name stored by [my_create] and [my_open]: the first
    [NAME_MAX_LEN - 1] characters of the file name, NUL-padded. *)
Definition stored_name (filename : list ascii) : list ascii :=
  strncpy (memset NUL NAME_MAX_LEN) filename (NAME_MAX_LEN - 1).

(** The entry as the seven assignments of [my_open] and [my_create] leave
    it; every field is overwritten. *)
Definition new_entry (filename : list ascii) (mode : Z) (t : Z) : FileEntry :=
  {| used := 1;
     name := stored_name filename;
     start := 0;
     size := 0;
     perms := wrap32 mode;
     mtime := wrap32 t |}.

(** The common tail of the mutating callbacks: [fs_recompute_last_alloc();
    fs_sync_metadata();] on the new superblock and table. *)
Definition commit (env : io_env) (st : fs_state) (super : Superblock)
    (files : list FileEntry) : outcome fs_state :=
  let super' := fs_recompute_last_alloc super files in
  run d := fs_sync_metadata env super' files (g_fs_file st) in
  Done {| g_fs_file := d; g_super := super'; g_files := files |}.

Definition my_getattr (st : fs_state) (path : list ascii) : Z * stat :=
  if strcmp path (chars "/") =? 0 then
    (0, {| st_mode := Z.lor S_IFDIR mode_0755; st_nlink := 2; st_size := 0;
           st_atime := 0; st_mtime := 0; st_ctime := 0 |})
  else
    let idx := find_file_by_name (g_files st) path in
    if idx <? 0 then (- ENOENT, zero_stat)
    else
      let fe := g_files st !!! Z.to_nat idx in
      (0, {| st_mode := Z.lor S_IFREG mode_0644; st_nlink := 1;
             st_size := size fe; st_atime := mtime fe; st_mtime := mtime fe;
             st_ctime := mtime fe |}).

(** The C string at a pointer to the bytes [bs] of an object: the
    characters before the first NUL.  Where [bs] holds no NUL the read
    leaves the object and the behaviour is undefined: [None]. *)
Fixpoint c_string_at (bs : list ascii) : option (list ascii) :=
  match bs with
  | [] => None
  | c :: bs' =>
      if Ascii.eqb c NUL then Some []
      else option_map (cons c) (c_string_at bs')
  end.

(** The bytes of the array [g_files] from [g_files[i].name] to its end.
    The structs are packed: the 32 bytes of the name are followed by
    [start], [size], [perms] and [mtime] of the entry and then by the
    entries after it. *)
Definition bytes_from_name (files : list FileEntry) (i : nat) : list ascii :=
  drop 1 (flat_map (fun k => image_FileEntry (files !!! k))
            (seq i (MAX_FILES - i))).

(** The names handed to [filler], in order.  [filler] is given the pointer
    [g_files[i].name] and reads a C string there, which for a name without
    NUL runs on into the fields that follow. *)
Fixpoint readdir_loop (files : list FileEntry) (i n : nat)
  : list (option (list ascii)) :=
  match n with
  | O => []
  | S n' =>
      if is_used (files !!! i)
      then c_string_at (bytes_from_name files i) :: readdir_loop files (S i) n'
      else readdir_loop files (S i) n'
  end.

Definition my_readdir (st : fs_state) (path : list ascii)
  : Z * list (option (list ascii)) :=
  if negb (strcmp path (chars "/") =? 0) then (- ENOTDIR, [])
  else (0, Some (chars ".") :: Some (chars "..")
           :: readdir_loop (g_files st) 0 MAX_FILES).

Definition my_open (env : io_env) (st : fs_state) (path : list ascii)
    (fi : fuse_file_info) : outcome (Z * fs_state * fuse_file_info) :=
  let filename := skip_slash path in
  let idx := find_file_by_name (g_files st) path in
  if idx <? 0 then
    if Z.land (flags fi) O_CREAT =? 0 then Done (- ENOENT, st, fi)
    else
      let idx := alloc_file_slot (g_files st) in
      if idx <? 0 then Done (- ENOSPC, st, fi)
      else
        let files := <[Z.to_nat idx := new_entry filename mode_0644 (now env)]> (g_files st) in
        let super := set_file_count (g_super st) (wrap32 (file_count (g_super st) + 1)) in
        run st' := commit env st super files in
        Done (0, st', set_fh fi idx)
  else
    if negb (Z.land (flags fi) O_TRUNC =? 0) then
      let fe := g_files st !!! Z.to_nat idx in
      let files := <[Z.to_nat idx := set_mtime (set_size fe 0) (wrap32 (now env))]> (g_files st) in
      run st' := commit env st (g_super st) files in
      Done (0, st', set_fh fi idx)
    else Done (0, st, set_fh fi idx).

(** [int idx = (int)fi->fh; if (idx < 0 || idx >= MAX_FILES || !g_files[idx].used)] *)
Definition bad_handle (st : fs_state) (idx : Z) : bool :=
  (idx <? 0) || (idx >=? Z.of_nat MAX_FILES)
  || negb (is_used (g_files st !!! Z.to_nat idx)).

Definition region_start (idx : Z) : Z :=
  wrap32 (DATA_OFFSET + idx * FILE_REGION_SIZE).

(** [size] is a [size_t] and [offset] an [off_t] (both 64 bits wide); the
    sum [offset + size] is computed on [size_t] and wraps.  The result pairs
    the return value with the bytes stored into [buf]. *)
Definition my_read (env : io_env) (st : fs_state) (sz : Z) (offset : Z)
    (fi : fuse_file_info) : Z * list ascii :=
  let idx := to_int (fh fi) in
  if bad_handle st idx then (- EBADF, [])
  else
    let fe := g_files st !!! Z.to_nat idx in
    if offset >=? size fe then (0, [])
    else
      let sz := if wrap64 (offset + sz) >? size fe
                then wrap64 (size fe - offset) else sz in
      let file_offset := wrap32 (region_start idx + offset) in
      if negb (seek_ok env) then (- EIO, [])
      else
        let r := transferred env sz in
        (to_int r, read_bytes (g_fs_file st) file_offset r).

(** [buf] holds the [size] bytes to write. *)
Definition my_write (env : io_env) (st : fs_state) (buf : list ascii)
    (offset : Z) (fi : fuse_file_info) : outcome (Z * fs_state) :=
  let sz := Z.of_nat (length buf) in
  let idx := to_int (fh fi) in
  if bad_handle st idx then Done (- EBADF, st)
  else
    let fe := g_files st !!! Z.to_nat idx in
    if wrap64 (offset + sz) >? FILE_REGION_SIZE then Done (- ENOSPC, st)
    else
      let file_offset := wrap32 (region_start idx + offset) in
      if negb (seek_ok env) then Done (- EIO, st)
      else
        let w := transferred env sz in
        let d := write_bytes (g_fs_file st) file_offset (take (Z.to_nat w) buf) in
        let st1 := {| g_fs_file := d; g_super := g_super st; g_files := g_files st |} in
        if negb (w =? sz) then Done (- EIO, st1)
        else
          let new_end := wrap32 (offset + sz) in
          let fe1 := if new_end >? size fe then set_size fe new_end else fe in
          let fe2 := set_mtime fe1 (wrap32 (now env)) in
          let files := <[Z.to_nat idx := fe2]> (g_files st) in
          run st' := commit env st1 (g_super st) files in
          Done (to_int w, st').

Definition my_create (env : io_env) (st : fs_state) (path : list ascii)
    (mode : Z) (fi : fuse_file_info) : outcome (Z * fs_state * fuse_file_info) :=
  let filename := skip_slash path in
  let idx := find_file_by_name (g_files st) path in
  if idx >=? 0 then Done (0, st, set_fh fi idx)
  else
    let idx := alloc_file_slot (g_files st) in
    if idx <? 0 then Done (- ENOSPC, st, fi)
    else
      let files := <[Z.to_nat idx := new_entry filename mode (now env)]> (g_files st) in
      let super := set_file_count (g_super st) (wrap32 (file_count (g_super st) + 1)) in
      run st' := commit env st super files in
      Done (0, st', set_fh fi idx).

Definition my_unlink (env : io_env) (st : fs_state) (path : list ascii)
  : outcome (Z * fs_state) :=
  let idx := find_file_by_name (g_files st) path in
  if idx <? 0 then Done (- ENOENT, st)
  else
    let files := <[Z.to_nat idx := zero_entry]> (g_files st) in
    let super := set_file_count (g_super st) (wrap32 (file_count (g_super st) - 1)) in
    run st' := commit env st super files in
    Done (0, st').

(** [size] is an [off_t]; the comparison with [FILE_REGION_SIZE], a
    [size_t], is unsigned. *)
Definition my_truncate (env : io_env) (st : fs_state) (path : list ascii)
    (sz : Z) : outcome (Z * fs_state) :=
  let idx := find_file_by_name (g_files st) path in
  if idx <? 0 then Done (- ENOENT, st)
  else if wrap64 sz >? FILE_REGION_SIZE then Done (- ENOSPC, st)
  else
    let fe := g_files st !!! Z.to_nat idx in
    let files := <[Z.to_nat idx := set_mtime (set_size fe (wrap32 sz)) (wrap32 (now env))]> (g_files st) in
    run st' := commit env st (g_super st) files in
    Done (0, st').

Definition my_release (st : fs_state) (fi : fuse_file_info) : Z := 0.

(** ** Predicates on states *)

(** The C array has [MAX_FILES] elements. *)
Definition table_sized (st : fs_state) : Prop :=
  length (g_files st) = MAX_FILES.

(** A name buffer holds a NUL among its [NAME_MAX_LEN] bytes. *)
Definition nul_terminated (buf : list ascii) : Prop :=
  (length (c_str buf) < NAME_MAX_LEN)%nat.

Definition names_terminated (files : list FileEntry) : Prop :=
  forall i, (i < MAX_FILES)%nat -> is_used (files !!! i) = true ->
            nul_terminated (name (files !!! i)).

Definition full_table (files : list FileEntry) : Prop :=
  forall i, (i < MAX_FILES)%nat -> is_used (files !!! i) = true.

(** A handle is valid when it is the index of a used slot. *)
Definition valid_handle (st : fs_state) (fi : fuse_file_info) : Prop :=
  0 <= fh fi < Z.of_nat MAX_FILES
  /\ is_used (g_files st !!! Z.to_nat (fh fi)) = true.

(** The byte offset of slot [i] in the backing file. *)
Definition slot_base (i : Z) : Z := DATA_OFFSET + i * FILE_REGION_SIZE.

(** The number of used entries. *)
Fixpoint count_loop (files : list FileEntry) (i n : nat) : Z :=
  match n with
  | O => 0
  | S n' => (if is_used (files !!! i) then 1 else 0) + count_loop files (S i) n'
  end.

Definition count_used (files : list FileEntry) : Z :=
  count_loop files 0 MAX_FILES.

(** The four parts of the state invariant, as checks that can be run. *)
Definition count_ok (st : fs_state) : bool :=
  file_count (g_super st) =? count_used (g_files st).

Definition last_alloc_ok (st : fs_state) : bool :=
  DATA_OFFSET <=? last_alloc (g_super st).

Definition sizes_ok (st : fs_state) : bool :=
  forallb (fun i => implb (is_used (g_files st !!! i))
                          (size (g_files st !!! i) <=? FILE_REGION_SIZE))
          (seq 0 MAX_FILES).

(** Two stored names are the same name when the comparison of
    [find_file_by_name] calls them equal. *)
Definition same_name (e1 e2 : FileEntry) : bool :=
  strncmp (name e1) (name e2) NAME_MAX_LEN =? 0.

Definition names_unique (st : fs_state) : bool :=
  forallb (fun i =>
    forallb (fun j =>
      implb (is_used (g_files st !!! i) && is_used (g_files st !!! j)
             && negb (Nat.eqb i j))
            (negb (same_name (g_files st !!! i) (g_files st !!! j))))
      (seq 0 MAX_FILES))
    (seq 0 MAX_FILES).

(** The three parts that do not speak of names. *)
Definition counts_and_sizes_ok (st : fs_state) : bool :=
  count_ok st && last_alloc_ok st && sizes_ok st.

Definition invariant (st : fs_state) : bool :=
  counts_and_sizes_ok st && names_unique st.

(** What a call that takes [st] to [st'] keeps of the invariant; names stay
    unique under the condition [names_kept]. *)
Definition preserved (st st' : fs_state) (names_kept : Prop) : Prop :=
  table_sized st'
  /\ counts_and_sizes_ok st' = true
  /\ (names_unique st = true -> names_kept -> names_unique st' = true)
  /\ (names_terminated (g_files st) -> names_terminated (g_files st')).

(** ** The high-water mark in the words of the specification

    "The maximum over all used entries of data_region_start + slot_index *
    slot_size + entry.size, or data_region_start when no entries are used",
    over the entries selected by [sel]. *)
Definition slot_end (files : list FileEntry) (i : nat) : Z :=
  slot_base (Z.of_nat i) + size (files !!! i).

Definition high_water_mark (sel : FileEntry -> bool) (files : list FileEntry) : Z :=
  fold_right Z.max DATA_OFFSET
    (map (slot_end files)
         (List.filter (fun i => sel (files !!! i)) (seq 0 MAX_FILES))).

(** The entries the loop of [fs_recompute_last_alloc] looks at. *)
Definition used_nonempty (e : FileEntry) : bool := is_used e && (size e >? 0).

(** ** Projections of results *)

Definition ret_of {A : Type} (proj : A -> Z) (o : outcome A) : option Z :=
  match o with
  | Done a => Some (proj a)
  | Fatal _ => None
  end.

(** An environment in which every library call succeeds in full. *)
Definition io_succeeds (env : io_env) (n : Z) : Prop :=
  seek_ok env = true /\ n <= data_avail env
  /\ super_ok env = true /\ table_ok env = true.

Definition sync_succeeds (env : io_env) : Prop :=
  super_ok env = true /\ table_ok env = true.

(** ** Relating two states that differ in [perms] only *)

Definition same_but_perms (e1 e2 : FileEntry) : Prop :=
  used e1 = used e2 /\ name e1 = name e2 /\ start e1 = start e2
  /\ size e1 = size e2 /\ mtime e1 = mtime e2.

(** Same superblock, same table up to the [perms] fields, same content of
    the data region. *)
Definition perms_blind (st1 st2 : fs_state) : Prop :=
  g_super st1 = g_super st2
  /\ length (g_files st1) = length (g_files st2)
  /\ (forall i, same_but_perms (g_files st1 !!! i) (g_files st2 !!! i))
  /\ (forall a, DATA_OFFSET <= a -> g_fs_file st1 a = g_fs_file st2 a).

Definition outcome_rel {A : Type} (R : A -> A -> Prop) (o1 o2 : outcome A) : Prop :=
  match o1, o2 with
  | Done a1, Done a2 => R a1 a2
  | Fatal m1, Fatal m2 => m1 = m2
  | _, _ => False
  end.

(** The relations on the results of the callbacks: same return value (and
    handle), states related by [perms_blind]. *)
Definition result_blind (a b : Z * fs_state) : Prop :=
  fst a = fst b /\ perms_blind (snd a) (snd b).

Definition handle_result_blind (a b : Z * fs_state * fuse_file_info) : Prop :=
  fst (fst a) = fst (fst b) /\ snd a = snd b
  /\ perms_blind (snd (fst a)) (snd (fst b)).

(** ** Concrete environments and states, for running the callbacks *)

Definition env_ok (t : Z) : io_env :=
  {| now := t; open_ok := true; seek_ok := true; putc_ok := true;
     data_avail := FS_SIZE; super_ok := true; table_ok := true |}.

(** The stream delivers [n] bytes and then fails. *)
Definition env_short (t : Z) (n : Z) : io_env :=
  {| now := t; open_ok := true; seek_ok := true; putc_ok := true;
     data_avail := n; super_ok := true; table_ok := true |}.

Definition fi_plain : fuse_file_info := {| flags := 0; fh := 0 |}.

Definition handle (h : Z) : fuse_file_info := {| flags := 0; fh := h |}.

Definition blank_state : fs_state :=
  {| g_fs_file := fun _ => NUL;
     g_super := {| magic := 0; version := 0; last_alloc := 0; file_count := 0 |};
     g_files := [] |}.

(** The state after [fs_format]. *)
Definition fresh_state : fs_state :=
  match fs_format (env_ok 0) with
  | Done st => st
  | Fatal _ => blank_state
  end.

Definition create_in (st : fs_state) (path : string) : fs_state :=
  match my_create (env_ok 1) st (chars path) mode_0644 fi_plain with
  | Done (_, st', _) => st'
  | Fatal _ => st
  end.

Definition write_in (st : fs_state) (h : Z) (data : string) (offset : Z) : fs_state :=
  match my_write (env_ok 2) st (chars data) offset (handle h) with
  | Done (_, st') => st'
  | Fatal _ => st
  end.

Definition unlink_in (st : fs_state) (path : string) : fs_state :=
  match my_unlink (env_ok 3) st (chars path) with
  | Done (_, st') => st'
  | Fatal _ => st
  end.

Definition truncate_in (st : fs_state) (path : string) (sz : Z) : fs_state :=
  match my_truncate (env_ok 4) st (chars path) sz with
  | Done (_, st') => st'
  | Fatal _ => st
  end.

(** One-character paths ["/0"], ["/1"], ... by character code. *)
Definition numbered_path (k : nat) : string :=
  String "/"%char (String (ascii_of_nat (48 + k)) EmptyString).

Fixpoint create_many (st : fs_state) (k n : nat) : fs_state :=
  match n with
  | O => st
  | S n' => create_many (create_in st (numbered_path k)) (S k) n'
  end.

(** All [MAX_FILES] slots in use. *)
Definition full_state : fs_state := create_many fresh_state 0 MAX_FILES.

(** A name of [NAME_MAX_LEN] characters. *)
Definition long_path : string := "/aaaaaaaaaaaaaaaaaaaaaaaaaaaaaaaa".

(** Two empty files. *)
Definition two_empty_files : fs_state :=
  create_in (create_in fresh_state "/a") "/b".

(** One file holding ten bytes. *)
Definition ten_byte_file : fs_state :=
  write_in (create_in fresh_state "/a.txt") 0 "0123456789" 0.

(** ** Loading the metadata and starting up

    [fread] fills the two globals from the bytes at the start of the backing
    file: the inverse of the memory image above, field by field. *)

Definition le32_value (bs : list ascii) : Z :=
  char_code (nth 0 bs NUL) + 2 ^ 8 * char_code (nth 1 bs NUL)
  + 2 ^ 16 * char_code (nth 2 bs NUL) + 2 ^ 24 * char_code (nth 3 bs NUL).

Definition field (off len : nat) (bs : list ascii) : list ascii :=
  take len (drop off bs).

Definition parse_Superblock (bs : list ascii) : Superblock :=
  {| magic := le32_value (field 0 4 bs);
     version := le32_value (field 4 4 bs);
     last_alloc := le32_value (field 8 4 bs);
     file_count := le32_value (field 12 4 bs) |}.

Definition parse_FileEntry (bs : list ascii) : FileEntry :=
  {| used := char_code (nth 0 bs NUL);
     name := field 1 NAME_MAX_LEN bs;
     start := le32_value (field 33 4 bs);
     size := le32_value (field 37 4 bs);
     perms := le32_value (field 41 4 bs);
     mtime := le32_value (field 45 4 bs) |}.

Definition parse_table (bs : list ascii) : list FileEntry :=
  map (fun i => parse_FileEntry (field (49 * i) 49 bs)) (seq 0 MAX_FILES).

(** What start-up finds: the length and content of [filesys.db] when
    [fopen(..., "r+b")] succeeds, whether the [fseek] to the end and the two
    [fread] calls succeed, and the environment of a [fs_format]. *)
Record boot_env := mkBoot {
  existing : option (Z * disk);
  seek_end_ok : bool;
  read_super_ok : bool;
  read_table_ok : bool;
  format_env : io_env
}.

Definition fs_load_metadata (b : boot_env) (d : disk)
  : outcome (Superblock * list FileEntry) :=
  if negb (read_super_ok b) then Fatal "Failed to read superblock"
  else
    let super := parse_Superblock (read_bytes d 0 sizeof_Superblock) in
    if negb (read_table_ok b) then Fatal "Failed to read file table"
    else
      Done (super,
            parse_table (read_bytes d sizeof_Superblock
                           (sizeof_FileEntry * Z.of_nat MAX_FILES))).

Definition fs_init (b : boot_env) : outcome fs_state :=
  match existing b with
  | None => fs_format (format_env b)
  | Some (len, d) =>
      if negb (seek_end_ok b) then Fatal "fseek failed"
      else if negb (len =? FS_SIZE) then fs_format (format_env b)
      else
        run m := fs_load_metadata b d in
        if negb (magic (fst m) =? FS_MAGIC) then fs_format (format_env b)
        else Done {| g_fs_file := d; g_super := fst m; g_files := snd m |}
  end.

(** ** Values that fit their C types *)

Definition uint32 (z : Z) : Prop := 0 <= z < 2 ^ 32.

Definition entry_typed (e : FileEntry) : Prop :=
  0 <= used e < 2 ^ 8 /\ length (name e) = NAME_MAX_LEN
  /\ uint32 (start e) /\ uint32 (size e) /\ uint32 (perms e) /\ uint32 (mtime e).

Definition super_typed (s : Superblock) : Prop :=
  uint32 (magic s) /\ uint32 (version s) /\ uint32 (last_alloc s)
  /\ uint32 (file_count s).

Definition table_typed (files : list FileEntry) : Prop :=
  length files = MAX_FILES
  /\ forall i, (i < MAX_FILES)%nat -> entry_typed (files !!! i).

(** The metadata area of the backing file holds the image of the two
    globals. *)
Definition mirrored (st : fs_state) : Prop :=
  parse_Superblock (read_bytes (g_fs_file st) 0 sizeof_Superblock) = g_super st
  /\ parse_table (read_bytes (g_fs_file st) sizeof_Superblock
                    (sizeof_FileEntry * Z.of_nat MAX_FILES)) = g_files st.

(** ** Slots and names *)

(** Offset [a] of the backing file lies in the region of slot [i]. *)
Definition in_slot (i : Z) (a : Z) : Prop :=
  slot_base i <= a < slot_base i + FILE_REGION_SIZE.

(** The stored name and the queried name are equal as C strings, as far as
    the [NAME_MAX_LEN] compared characters go. *)
Definition names_agree (buf nm : list ascii) : Prop :=
  take NAME_MAX_LEN (c_str buf) = take NAME_MAX_LEN (c_str nm).

(** ** Runs of the program

    One state-changing callback, on arguments the FUSE layer passes: a
    write offset is not negative and a buffer fits in memory. *)
Inductive step : fs_state -> fs_state -> Prop :=
| step_create env st path mode fi r st' fi' :
    my_create env st path mode fi = Done (r, st', fi') -> step st st'
| step_open env st path fi r st' fi' :
    my_open env st path fi = Done (r, st', fi') -> step st st'
| step_write env st buf offset fi r st' :
    0 <= offset <= OFF_MAX -> Z.of_nat (length buf) <= OFF_MAX ->
    my_write env st buf offset fi = Done (r, st') -> step st st'
| step_truncate env st path sz r st' :
    my_truncate env st path sz = Done (r, st') -> step st st'
| step_unlink env st path r st' :
    my_unlink env st path = Done (r, st') -> step st st'.

(** The states the program can be in: after [fs_format], and after any
    number of callbacks. *)
Inductive reachable : fs_state -> Prop :=
| reachable_format env st : fs_format env = Done st -> reachable st
| reachable_step st st' : reachable st -> step st st' -> reachable st'.

(** A start-up in which every library call succeeds, on the backing file
    [d] of length [len]. *)
Definition boot_ok (len : Z) (d : disk) : boot_env :=
  {| existing := Some (len, d); seek_end_ok := true; read_super_ok := true;
     read_table_ok := true; format_env := env_ok 0 |}.

(** A table as [fs_init] can load it from a file of the right size and
    magic: slot 0 is used, its name field holds 32 letters and no NUL, and
    [start] is 0x00434241. *)
Definition unterminated_super : Superblock :=
  {| magic := FS_MAGIC; version := FS_VERSION; last_alloc := DATA_OFFSET;
     file_count := 1 |}.

Definition unterminated_table : list FileEntry :=
  <[0%nat := {| used := 1; name := replicate 32 "a"%char;
                start := 4407873; size := 0; perms := 0; mtime := 0 |}]>
    (replicate MAX_FILES zero_entry).

Definition unterminated_state : fs_state :=
  {| g_fs_file :=
       write_bytes (write_bytes (fun _ => NUL) 0
                      (image_Superblock unterminated_super))
         sizeof_Superblock (image_table unterminated_table);
     g_super := unterminated_super;
     g_files := unterminated_table |}.

(** How a callback can end the process: [fs_sync_metadata] calls [fatal]
    with the message of the [fwrite] that failed. *)
Definition sync_failure (env : io_env) (msg : string) : Prop :=
  (super_ok env = false /\ msg = "Failed to write superblock"%string)
  \/ (super_ok env = true /\ table_ok env = false
      /\ msg = "Failed to write file table"%string).

(** * Properties *)

(** ** Machine integers *)

Section IntFacts.

Lemma wrap32_small z : 0 <= z < 2 ^ 32 -> wrap32 z = z.
Proof. intros H. unfold wrap32. apply Z.mod_small. exact H. Qed.

Lemma wrap64_small z : 0 <= z < 2 ^ 64 -> wrap64 z = z.
Proof. intros H. unfold wrap64. apply Z.mod_small. exact H. Qed.

Lemma wrap32_range z : 0 <= wrap32 z < 2 ^ 32.
Proof. unfold wrap32. apply Z.mod_pos_bound. lia. Qed.

Lemma wrap64_range z : 0 <= wrap64 z < 2 ^ 64.
Proof. unfold wrap64. apply Z.mod_pos_bound. lia. Qed.

Lemma wrap32_wrap64 z : wrap32 (wrap64 z) = wrap32 z.
Proof.
  unfold wrap32, wrap64.
  apply Z.mod_mod_divide.
  exists (2 ^ 32). reflexivity.
Qed.

Lemma to_int_small z : 0 <= z <= INT_MAX -> to_int z = z.
Proof.
  unfold INT_MAX. intros H. unfold to_int.
  rewrite wrap32_small by lia.
  destruct (Z.ltb_spec z (2 ^ 31)); lia.
Qed.

Lemma layout_values :
  DATA_OFFSET = 3152 /\ FILE_REGION_SIZE = 16334 /\ sizeof_FileEntry = 49.
Proof. repeat split; reflexivity. Qed.

Lemma region_start_slot_base i :
  0 <= i < Z.of_nat MAX_FILES -> region_start i = slot_base i.
Proof.
  intros H. unfold region_start, slot_base.
  destruct layout_values as (-> & -> & _).
  apply wrap32_small. unfold MAX_FILES in H. lia.
Qed.

End IntFacts.

(** ** C strings *)

Section Strings.

Lemma char_code_inj c1 c2 : char_code c1 - char_code c2 = 0 -> c1 = c2.
Proof.
  unfold char_code. intros H.
  assert (E : nat_of_ascii c1 = nat_of_ascii c2) by lia.
  rewrite <- (ascii_nat_embedding c1), <- (ascii_nat_embedding c2), E.
  reflexivity.
Qed.

Lemma c_str_unfold buf :
  c_str buf = if Ascii.eqb (hd NUL buf) NUL then [] else hd NUL buf :: c_str (tl buf).
Proof.
  destruct buf as [|c buf]; simpl; [reflexivity|].
  destruct (Ascii.eqb c NUL); reflexivity.
Qed.

(** The comparison of [find_file_by_name] sees the two strings up to their
    NULs and up to [n] characters. *)
Lemma strncmp_zero_iff n : forall s1 s2,
  strncmp s1 s2 n = 0 <-> take n (c_str s1) = take n (c_str s2).
Proof.
  induction n as [|n IH]; intros s1 s2.
  - simpl. rewrite !take_0. tauto.
  - cbn [strncmp].
    rewrite (c_str_unfold s1), (c_str_unfold s2).
    destruct (Ascii.eqb_spec (hd NUL s1) (hd NUL s2)) as [E|NE]; cbn [negb].
    + rewrite <- E.
      destruct (Ascii.eqb_spec (hd NUL s1) NUL) as [Z1|NZ1].
      * tauto.
      * cbn [take]. rewrite IH. split; [intros ->; reflexivity|].
        intros H. injection H. tauto.
    + split.
      * intros H. apply char_code_inj in H. contradiction.
      * intros H.
        destruct (Ascii.eqb_spec (hd NUL s1) NUL) as [Z1|NZ1];
          destruct (Ascii.eqb_spec (hd NUL s2) NUL) as [Z2|NZ2];
          cbn [take] in H; try discriminate H; try congruence.
Qed.

Lemma strncmp_refl s n : strncmp s s n = 0.
Proof. apply strncmp_zero_iff. reflexivity. Qed.

Lemma c_str_no_nul buf : Forall (fun c => c <> NUL) (c_str buf).
Proof.
  induction buf as [|c buf IH]; simpl; [constructor|].
  destruct (Ascii.eqb_spec c NUL); [constructor|].
  constructor; assumption.
Qed.

Lemma c_str_app_nul x y :
  Forall (fun c => c <> NUL) x -> hd NUL y = NUL -> c_str (x ++ y) = x.
Proof.
  intros Hx Hy. induction Hx as [|c x Hc Hx IH]; simpl.
  - rewrite c_str_unfold, Hy. reflexivity.
  - destruct (Ascii.eqb_spec c NUL); [contradiction|]. rewrite IH. reflexivity.
Qed.

Lemma c_str_length buf : (length (c_str buf) <= length buf)%nat.
Proof.
  induction buf as [|c buf IH]; simpl; [lia|].
  destruct (Ascii.eqb c NUL); simpl; lia.
Qed.

Lemma strncpy_chars_nil n : strncpy_chars [] n = replicate n NUL.
Proof. induction n as [|n IH]; simpl; [reflexivity|]. rewrite IH. reflexivity. Qed.

Lemma strncpy_chars_eq n : forall src,
  strncpy_chars src n
  = take n (c_str src) ++ replicate (n - length (c_str src)) NUL.
Proof.
  induction n as [|n IH]; intros src.
  - reflexivity.
  - destruct src as [|c src]; cbn [strncpy_chars c_str].
    + rewrite strncpy_chars_nil. reflexivity.
    + destruct (Ascii.eqb c NUL).
      * rewrite strncpy_chars_nil. reflexivity.
      * rewrite IH. reflexivity.
Qed.

Lemma length_strncpy_chars src n : length (strncpy_chars src n) = n.
Proof.
  revert src. induction n as [|n IH]; intros src; [reflexivity|].
  destruct src as [|c src]; cbn [strncpy_chars].
  - simpl. rewrite IH. reflexivity.
  - destruct (Ascii.eqb c NUL); simpl; rewrite IH; reflexivity.
Qed.

Lemma stored_name_eq filename :
  stored_name filename
  = take 31 (c_str filename)
      ++ replicate (31 - length (c_str filename)) NUL ++ [NUL].
Proof.
  unfold stored_name, strncpy, memset.
  change (NAME_MAX_LEN - 1)%nat with 31%nat.
  rewrite strncpy_chars_eq, <- app_assoc. reflexivity.
Qed.

Lemma length_stored_name filename : length (stored_name filename) = NAME_MAX_LEN.
Proof.
  unfold stored_name, strncpy, memset.
  rewrite length_app, length_strncpy_chars, length_drop, length_replicate.
  reflexivity.
Qed.

Lemma c_str_stored_name filename :
  c_str (stored_name filename) = take 31 (c_str filename).
Proof.
  rewrite stored_name_eq. apply c_str_app_nul.
  - apply Forall_take, c_str_no_nul.
  - destruct (31 - length (c_str filename))%nat; reflexivity.
Qed.

Lemma stored_name_terminated filename : nul_terminated (stored_name filename).
Proof.
  unfold nul_terminated. rewrite c_str_stored_name, length_take.
  unfold NAME_MAX_LEN. lia.
Qed.

(** A name shorter than the buffer is found again under the stored name. *)
Lemma strncmp_stored_short filename :
  (length (c_str filename) < NAME_MAX_LEN)%nat ->
  strncmp (stored_name filename) filename NAME_MAX_LEN = 0.
Proof.
  unfold NAME_MAX_LEN. intros H. apply strncmp_zero_iff.
  rewrite c_str_stored_name.
  rewrite (take_ge (c_str filename) 31) by lia. reflexivity.
Qed.

(** A name that fills the buffer is not found under any terminated name. *)
Lemma strncmp_terminated_long buf filename :
  nul_terminated buf ->
  (NAME_MAX_LEN <= length (c_str filename))%nat ->
  strncmp buf filename NAME_MAX_LEN <> 0.
Proof.
  unfold nul_terminated, NAME_MAX_LEN. intros Hb Hf H.
  apply strncmp_zero_iff in H.
  apply (f_equal length) in H. rewrite !length_take in H. lia.
Qed.

End Strings.

(** ** The file table *)

Section Table.

Implicit Types (files : list FileEntry) (nm : list ascii) (i j k n : nat).

(** [find_loop] returns the first matching index of its range, or [-1]. *)
Lemma find_loop_spec files nm n : forall i,
  (find_loop files nm i n = -1
   /\ forall k, (i <= k < i + n)%nat -> name_matches (files !!! k) nm = false)
  \/ exists k, (i <= k < i + n)%nat
       /\ find_loop files nm i n = Z.of_nat k
       /\ name_matches (files !!! k) nm = true
       /\ forall j, (i <= j < k)%nat -> name_matches (files !!! j) nm = false.
Proof.
  induction n as [|n IH]; intros i.
  - left. split; [reflexivity|]. intros k Hk. lia.
  - cbn [find_loop].
    destruct (name_matches (files !!! i) nm) eqn:Hi.
    + right. exists i. repeat split; try lia; try assumption; intros j Hj; lia.
    + destruct (IH (S i)) as [[E Hno]|(k & Hk & E & Hm & Hno)].
      * left. split; [assumption|]. intros k Hk.
        destruct (decide (k = i)) as [->|]; [assumption|]. apply Hno. lia.
      * right. exists k. repeat split; try lia; try assumption.
        intros j Hj.
        destruct (decide (j = i)) as [->|]; [assumption|]. apply Hno. lia.
Qed.

Lemma find_loop_first files nm k : forall n i,
  (i <= k < i + n)%nat ->
  name_matches (files !!! k) nm = true ->
  (forall j, (i <= j < k)%nat -> name_matches (files !!! j) nm = false) ->
  find_loop files nm i n = Z.of_nat k.
Proof.
  induction n as [|n IH]; intros i Hk Hm Hno; [lia|].
  cbn [find_loop].
  destruct (decide (i = k)) as [->|Hne].
  - rewrite Hm. reflexivity.
  - rewrite Hno by lia. apply IH; [lia|assumption|].
    intros j Hj. apply Hno. lia.
Qed.

Lemma find_loop_none files nm : forall n i,
  (forall k, (i <= k < i + n)%nat -> name_matches (files !!! k) nm = false) ->
  find_loop files nm i n = -1.
Proof.
  induction n as [|n IH]; intros i Hno; [reflexivity|].
  cbn [find_loop]. rewrite Hno by lia. apply IH. intros k Hk. apply Hno. lia.
Qed.

(** The two results of [find_file_by_name]. *)
Lemma find_file_by_name_spec files path :
  (find_file_by_name files path = -1
   /\ forall k, (k < MAX_FILES)%nat ->
        name_matches (files !!! k) (skip_slash path) = false)
  \/ exists k, (k < MAX_FILES)%nat
       /\ find_file_by_name files path = Z.of_nat k
       /\ name_matches (files !!! k) (skip_slash path) = true
       /\ forall j, (j < k)%nat ->
            name_matches (files !!! j) (skip_slash path) = false.
Proof.
  unfold find_file_by_name.
  destruct (find_loop_spec files (skip_slash path) MAX_FILES 0%nat)
    as [[E Hno]|(k & Hk & E & Hm & Hno)].
  - left. split; [assumption|]. intros k Hk. apply Hno. lia.
  - right. exists k. repeat split; try lia; try assumption.
    intros j Hj. apply Hno. lia.
Qed.

Lemma find_file_by_name_neg files path :
  find_file_by_name files path < 0 ->
  find_file_by_name files path = -1
  /\ forall k, (k < MAX_FILES)%nat ->
       name_matches (files !!! k) (skip_slash path) = false.
Proof.
  intros H.
  destruct (find_file_by_name_spec files path) as [?|(k & _ & E & _)];
    [assumption|lia].
Qed.

Lemma find_file_by_name_nonneg files path :
  0 <= find_file_by_name files path ->
  exists k, (k < MAX_FILES)%nat
    /\ find_file_by_name files path = Z.of_nat k
    /\ name_matches (files !!! k) (skip_slash path) = true
    /\ forall j, (j < k)%nat ->
         name_matches (files !!! j) (skip_slash path) = false.
Proof.
  intros H.
  destruct (find_file_by_name_spec files path) as [[E _]|?];
    [lia|assumption].
Qed.

(** [alloc_loop] returns the first unused index of its range, or [-1]. *)
Lemma alloc_loop_spec files n : forall i,
  (alloc_loop files i n = -1
   /\ forall k, (i <= k < i + n)%nat -> is_used (files !!! k) = true)
  \/ exists k, (i <= k < i + n)%nat
       /\ alloc_loop files i n = Z.of_nat k
       /\ is_used (files !!! k) = false
       /\ forall j, (i <= j < k)%nat -> is_used (files !!! j) = true.
Proof.
  induction n as [|n IH]; intros i.
  - left. split; [reflexivity|]. intros k Hk. lia.
  - cbn [alloc_loop].
    destruct (is_used (files !!! i)) eqn:Hi; cbn [negb].
    + destruct (IH (S i)) as [[E Hall]|(k & Hk & E & Hu & Hall)].
      * left. split; [assumption|]. intros k Hk.
        destruct (decide (k = i)) as [->|]; [assumption|]. apply Hall. lia.
      * right. exists k. repeat split; try lia; try assumption.
        intros j Hj.
        destruct (decide (j = i)) as [->|]; [assumption|]. apply Hall. lia.
    + right. exists i. repeat split; try lia; try assumption; intros j Hj; lia.
Qed.

Lemma alloc_file_slot_spec files :
  (alloc_file_slot files = -1 /\ full_table files)
  \/ exists k, (k < MAX_FILES)%nat
       /\ alloc_file_slot files = Z.of_nat k
       /\ is_used (files !!! k) = false
       /\ forall j, (j < k)%nat -> is_used (files !!! j) = true.
Proof.
  unfold alloc_file_slot, full_table.
  destruct (alloc_loop_spec files MAX_FILES 0%nat)
    as [[E Hall]|(k & Hk & E & Hu & Hall)].
  - left. split; [assumption|]. intros k Hk. apply Hall. lia.
  - right. exists k. repeat split; try lia; try assumption.
    intros j Hj. apply Hall. lia.
Qed.

Lemma alloc_file_slot_full files :
  full_table files -> alloc_file_slot files = -1.
Proof.
  intros Hfull.
  destruct (alloc_file_slot_spec files) as [[E _]|(k & Hk & _ & Hu & _)];
    [assumption|].
  rewrite Hfull in Hu by assumption. discriminate.
Qed.

(** The only free slot is the one the allocator returns. *)
Lemma alloc_file_slot_only files k :
  (k < MAX_FILES)%nat ->
  is_used (files !!! k) = false ->
  (forall j, (j < MAX_FILES)%nat -> j <> k -> is_used (files !!! j) = true) ->
  alloc_file_slot files = Z.of_nat k.
Proof.
  intros Hk Hu Hall.
  destruct (alloc_file_slot_spec files) as [[_ Hfull]|(k' & Hk' & E & Hu' & _)].
  - rewrite Hfull in Hu by assumption. discriminate.
  - destruct (decide (k' = k)) as [->|Hne]; [assumption|].
    rewrite Hall in Hu' by assumption. discriminate.
Qed.

(** Reading the table after an assignment to one element. *)
Lemma lookup_assign files i j (e : FileEntry) :
  length files = MAX_FILES -> (i < MAX_FILES)%nat ->
  <[i := e]> files !!! j = if decide (i = j) then e else files !!! j.
Proof.
  intros Hlen Hi. destruct (decide (i = j)) as [->|Hne].
  - apply list_lookup_total_insert_eq. lia.
  - apply list_lookup_total_insert_ne. assumption.
Qed.

Lemma lookup_assign_eq files i (e : FileEntry) :
  length files = MAX_FILES -> (i < MAX_FILES)%nat -> <[i := e]> files !!! i = e.
Proof. intros Hlen Hi. apply list_lookup_total_insert_eq. lia. Qed.

Lemma lookup_assign_ne files i j (e : FileEntry) :
  i <> j -> <[i := e]> files !!! j = files !!! j.
Proof. apply list_lookup_total_insert_ne. Qed.

(** Counting used entries. *)
Lemma count_loop_range files n : forall i, 0 <= count_loop files i n <= Z.of_nat n.
Proof.
  induction n as [|n IH]; intros i; cbn [count_loop]; [lia|].
  specialize (IH (S i)). destruct (is_used (files !!! i)); lia.
Qed.

Lemma count_loop_assign_out files (e : FileEntry) k n : forall i,
  ~ (i <= k < i + n)%nat ->
  count_loop (<[k := e]> files) i n = count_loop files i n.
Proof.
  induction n as [|n IH]; intros i Hk; cbn [count_loop]; [reflexivity|].
  rewrite lookup_assign_ne by lia. rewrite IH by lia. reflexivity.
Qed.

Lemma count_loop_assign files (e : FileEntry) k n : forall i,
  length files = MAX_FILES -> (k < MAX_FILES)%nat ->
  (i <= k < i + n)%nat ->
  count_loop (<[k := e]> files) i n
  = count_loop files i n
    + (if is_used e then 1 else 0)
    - (if is_used (files !!! k) then 1 else 0).
Proof.
  induction n as [|n IH]; intros i Hlen Hk Hin; [lia|].
  cbn [count_loop].
  destruct (decide (i = k)) as [->|Hne].
  - rewrite lookup_assign_eq by assumption.
    rewrite count_loop_assign_out by lia. lia.
  - rewrite lookup_assign_ne by lia. rewrite IH by (assumption || lia). lia.
Qed.

Lemma count_used_assign files (e : FileEntry) k :
  length files = MAX_FILES -> (k < MAX_FILES)%nat ->
  count_used (<[k := e]> files)
  = count_used files
    + (if is_used e then 1 else 0)
    - (if is_used (files !!! k) then 1 else 0).
Proof.
  intros Hlen Hk. unfold count_used. apply count_loop_assign; try assumption. lia.
Qed.

Lemma count_used_range files : 0 <= count_used files <= Z.of_nat MAX_FILES.
Proof. apply count_loop_range. Qed.

End Table.

(** ** The backing file and the metadata image *)

Section Disk.

Implicit Types (d : disk) (files : list FileEntry).

Lemma write_bytes_outside d off bs a :
  a < off \/ off + Z.of_nat (length bs) <= a -> write_bytes d off bs a = d a.
Proof.
  intros H. unfold write_bytes.
  destruct (Z.leb_spec off a), (Z.ltb_spec a (off + Z.of_nat (length bs)));
    simpl; try reflexivity; lia.
Qed.

Lemma write_bytes_inside d off bs k :
  (k < length bs)%nat -> write_bytes d off bs (off + Z.of_nat k) = nth k bs NUL.
Proof.
  intros H. unfold write_bytes.
  destruct (Z.leb_spec off (off + Z.of_nat k)); [|lia].
  destruct (Z.ltb_spec (off + Z.of_nat k) (off + Z.of_nat (length bs))); [|lia].
  simpl. f_equal. lia.
Qed.

Lemma length_read_bytes d off n : length (read_bytes d off n) = Z.to_nat n.
Proof. unfold read_bytes. rewrite length_map, length_seq. reflexivity. Qed.

Lemma length_le32 z : length (le32 z) = 4%nat.
Proof. reflexivity. Qed.

Lemma length_fixed n l : length (fixed n l) = n.
Proof.
  unfold fixed. rewrite length_take, length_app, length_replicate. lia.
Qed.

Lemma length_image_Superblock s :
  Z.of_nat (length (image_Superblock s)) = sizeof_Superblock.
Proof. reflexivity. Qed.

Lemma length_image_FileEntry e :
  Z.of_nat (length (image_FileEntry e)) = sizeof_FileEntry.
Proof.
  unfold image_FileEntry. cbn [length].
  rewrite !length_app, length_fixed, !length_le32. reflexivity.
Qed.

Lemma length_flat_map_const {A B : Type} (f : A -> list B) c (l : list A) :
  (forall x, length (f x) = c) -> length (flat_map f l) = (c * length l)%nat.
Proof.
  intros Hf. induction l as [|x l IH]; simpl; [lia|].
  rewrite length_app, Hf, IH. lia.
Qed.

Lemma length_image_table files :
  Z.of_nat (length (image_table files)) = sizeof_FileEntry * Z.of_nat MAX_FILES.
Proof.
  unfold image_table.
  rewrite (length_flat_map_const _ (Z.to_nat sizeof_FileEntry)).
  - rewrite length_seq. reflexivity.
  - intros i. rewrite <- (length_image_FileEntry (files !!! i)), Nat2Z.id.
    reflexivity.
Qed.

(** A NUL among the first [n] bytes of a name field ends the C string read
    at the field there, whatever follows the field. *)
Lemma c_string_at_padded nm m rest : forall n,
  (length (c_str nm) < n)%nat -> (n <= m)%nat ->
  c_string_at (take n (nm ++ replicate m NUL) ++ rest) = Some (c_str nm).
Proof.
  induction nm as [|c nm IH]; intros n Hl Hm.
  - destruct n as [|n]; [cbn in Hl; lia|].
    destruct m as [|m]; [lia|]. reflexivity.
  - destruct n as [|n]; [lia|].
    cbn [app firstn c_string_at c_str] in *.
    destruct (Ascii.eqb c NUL); [reflexivity|].
    cbn [length] in Hl. rewrite IH by lia. reflexivity.
Qed.

Lemma c_string_at_terminated nm rest :
  nul_terminated nm ->
  c_string_at (fixed NAME_MAX_LEN nm ++ rest) = Some (c_str nm).
Proof.
  intros H. unfold fixed. apply c_string_at_padded; [exact H|lia].
Qed.

(** Reading the name of an entry whose name field holds a NUL. *)
Lemma name_read_terminated files i :
  (i < MAX_FILES)%nat -> nul_terminated (name (files !!! i)) ->
  c_string_at (bytes_from_name files i) = Some (c_str (name (files !!! i))).
Proof.
  intros Hi Ht. unfold bytes_from_name.
  assert (Hpos : exists m, (MAX_FILES - i)%nat = S m)
    by (exists (MAX_FILES - i - 1)%nat; lia).
  destruct Hpos as [m ->].
  cbn [seq flat_map]. unfold image_FileEntry at 1.
  cbn [app skipn]. rewrite <- app_assoc.
  apply c_string_at_terminated. exact Ht.
Qed.

(** On a table of NUL-terminated names the names handed to [filler] are
    the stored names of the used entries, in slot order. *)
Lemma readdir_loop_terminated files :
  names_terminated files ->
  forall n i, (i + n <= MAX_FILES)%nat ->
    readdir_loop files i n
    = map (fun k => Some (c_str (name (files !!! k))))
          (List.filter (fun k => is_used (files !!! k)) (seq i n)).
Proof.
  intros Hterm.
  induction n as [|n IH]; intros i Hi; cbn [readdir_loop seq List.filter];
    [reflexivity|].
  destruct (is_used (files !!! i)) eqn:Hu; cbn [map];
    rewrite IH by lia; [|reflexivity].
  rewrite name_read_terminated; [reflexivity|lia|].
  apply Hterm; [lia|exact Hu].
Qed.

(** [fs_sync_metadata] either ends the process or rewrites the metadata
    area, and nothing from [DATA_OFFSET] on. *)
Lemma fs_sync_metadata_spec env s files d :
  (exists msg, fs_sync_metadata env s files d = Fatal msg
               /\ (super_ok env = false \/ table_ok env = false))
  \/ (exists d', fs_sync_metadata env s files d = Done d'
        /\ sync_succeeds env
        /\ forall a, DATA_OFFSET <= a -> d' a = d a).
Proof.
  unfold fs_sync_metadata, sync_succeeds.
  destruct (super_ok env); cbn [negb]; [|left; eauto].
  destruct (table_ok env); cbn [negb]; [|left; eauto].
  right. eexists. split; [reflexivity|]. split; [tauto|].
  intros a Ha.
  pose proof (length_image_table files) as Ht.
  pose proof (length_image_Superblock s) as Hs.
  rewrite !write_bytes_outside; [reflexivity| |].
  - right. rewrite Hs. revert Ha. unfold DATA_OFFSET, META_SIZE. lia.
  - right. rewrite Ht. revert Ha. unfold DATA_OFFSET, META_SIZE. lia.
Qed.

(** The common tail of the mutating callbacks. *)
Lemma commit_spec env st s files :
  (exists msg, commit env st s files = Fatal msg
               /\ (super_ok env = false \/ table_ok env = false))
  \/ (exists d', commit env st s files
                 = Done {| g_fs_file := d';
                           g_super := fs_recompute_last_alloc s files;
                           g_files := files |}
        /\ sync_succeeds env
        /\ forall a, DATA_OFFSET <= a -> d' a = g_fs_file st a).
Proof.
  unfold commit.
  destruct (fs_sync_metadata_spec env (fs_recompute_last_alloc s files) files
              (g_fs_file st)) as [(msg & -> & H)|(d' & -> & H)].
  - left. exists msg. split; [reflexivity|assumption].
  - right. exists d'. split; [reflexivity|assumption].
Qed.

Lemma commit_done env st s files :
  sync_succeeds env ->
  exists d', commit env st s files
             = Done {| g_fs_file := d';
                       g_super := fs_recompute_last_alloc s files;
                       g_files := files |}
    /\ forall a, DATA_OFFSET <= a -> d' a = g_fs_file st a.
Proof.
  intros [Hs Ht].
  destruct (commit_spec env st s files) as [(msg & _ & [H|H])|(d' & E & _ & Hd)].
  - congruence.
  - congruence.
  - exists d'. split; assumption.
Qed.

End Disk.

(** The step shared by the proofs about mutating callbacks: in [H], an
    equation whose right-hand side runs [commit], replace the commit by the
    state it produces when the metadata writes succeed. *)
Tactic Notation "commit_succeeds" "in" hyp(H) "by" constr(Hsync)
    "as" simple_intropattern(d) simple_intropattern(Hd) :=
  match type of H with
  | _ = bind (commit ?e ?s ?sb ?fl) _ =>
      let Ec := fresh "Ec" in
      destruct (commit_done e s sb fl Hsync) as (d & Ec & Hd);
      rewrite Ec in H; cbn [bind] in H; clear Ec
  end.

(** ** The high-water mark *)

Section HighWaterMark.

Implicit Types (files : list FileEntry).

Lemma recompute_step_ge files i last : last <= recompute_step files i last.
Proof.
  unfold recompute_step.
  destruct (is_used (files !!! i) && (size (files !!! i) >? 0)); [|lia].
  match goal with |- context [?a >? ?b] => destruct (Z.gtb_spec a b) end; lia.
Qed.

Lemma recompute_loop_ge files n : forall i last,
  last <= recompute_loop files i n last.
Proof.
  induction n as [|n IH]; intros i last; cbn [recompute_loop]; [lia|].
  pose proof (recompute_step_ge files i last). specialize (IH (S i) (recompute_step files i last)). lia.
Qed.

Lemma last_alloc_recomputed s files :
  DATA_OFFSET <= last_alloc (fs_recompute_last_alloc s files).
Proof.
  cbn [fs_recompute_last_alloc last_alloc].
  pose proof (recompute_loop_ge files MAX_FILES 0%nat (wrap32 DATA_OFFSET)) as H.
  rewrite (wrap32_small DATA_OFFSET) in H by (destruct layout_values as (-> & _); lia).
  exact H.
Qed.

Lemma fold_max_base (l : list Z) a b :
  fold_right Z.max (Z.max a b) l = Z.max a (fold_right Z.max b l).
Proof. induction l as [|x l IH]; simpl; [reflexivity|]. rewrite IH. lia. Qed.

(** Without wrap-around the step is a maximum with the end of slot [i]. *)
Lemma recompute_step_max files i last :
  (i < MAX_FILES)%nat ->
  (used_nonempty (files !!! i) = true -> size (files !!! i) <= FILE_REGION_SIZE) ->
  recompute_step files i last
  = if used_nonempty (files !!! i) then Z.max (slot_end files i) last else last.
Proof.
  intros Hi Hsz. unfold recompute_step, slot_end.
  fold (used_nonempty (files !!! i)).
  destruct (used_nonempty (files !!! i)) eqn:Hu; [|reflexivity].
  specialize (Hsz eq_refl).
  assert (0 < size (files !!! i)) as Hpos.
  { unfold used_nonempty in Hu. apply andb_true_iff in Hu as [_ Hu].
    destruct (Z.gtb_spec (size (files !!! i)) 0); [lia|discriminate]. }
  fold (region_start (Z.of_nat i)).
  rewrite region_start_slot_base by lia.
  assert (0 <= slot_base (Z.of_nat i) + size (files !!! i) < 2 ^ 32) as Hr.
  { unfold slot_base. destruct layout_values as (-> & E & _).
    rewrite E in *. unfold MAX_FILES in Hi. lia. }
  rewrite wrap32_small by assumption.
  match goal with |- context [?a >? ?b] => destruct (Z.gtb_spec a b) end; lia.
Qed.

Lemma recompute_loop_max files n : forall i last,
  (i + n <= MAX_FILES)%nat ->
  (forall k, (k < MAX_FILES)%nat -> used_nonempty (files !!! k) = true ->
             size (files !!! k) <= FILE_REGION_SIZE) ->
  recompute_loop files i n last
  = fold_right Z.max last
      (map (slot_end files)
           (List.filter (fun k => used_nonempty (files !!! k)) (seq i n))).
Proof.
  induction n as [|n IH]; intros i last Hn Hsz; [reflexivity|].
  cbn [recompute_loop seq List.filter].
  rewrite IH by (assumption || lia).
  rewrite recompute_step_max by (try lia; apply Hsz; lia).
  destruct (used_nonempty (files !!! i)); [|reflexivity].
  cbn [map fold_right]. apply fold_max_base.
Qed.

(** A maximum is an upper bound and is attained. *)
Lemma fold_max_spec (f : nat -> Z) (l : list nat) base :
  let m := fold_right Z.max base (map f l) in
  base <= m
  /\ (forall k, In k l -> f k <= m)
  /\ (m = base \/ exists k, In k l /\ m = f k).
Proof.
  induction l as [|x l IH]; cbn [map fold_right].
  - split; [lia|]. split; [intros k []|left; reflexivity].
  - cbn zeta in IH. destruct IH as (Hb & Hub & Hat).
    set (m := fold_right Z.max base (map f l)) in *.
    split; [lia|]. split.
    + intros k [<-|Hk]; [lia|]. specialize (Hub k Hk). lia.
    + destruct (Z.max_spec (f x) m) as [[_ ->]|[_ ->]].
      * destruct Hat as [->|(k & Hk & ->)]; [left; reflexivity|].
        right. exists k. split; [right; assumption|reflexivity].
      * right. exists x. split; [left; reflexivity|reflexivity].
Qed.

End HighWaterMark.

(** ** Recomputing the high-water mark (C5) *)

Section RecomputeLastAlloc.

(** C5, as stated, fails: with two empty files in slots 0 and 1 the
    maximum over all used entries is the base of slot 1, while
    [fs_recompute_last_alloc] leaves [last_alloc] at [DATA_OFFSET]. *)
Lemma recompute_ignores_empty_files :
  let files := g_files two_empty_files in
  is_used (files !!! 1%nat) = true
  /\ size (files !!! 1%nat) = 0
  /\ high_water_mark is_used files = DATA_OFFSET + FILE_REGION_SIZE
  /\ last_alloc (fs_recompute_last_alloc (g_super two_empty_files) files)
     = DATA_OFFSET
  /\ last_alloc (fs_recompute_last_alloc (g_super two_empty_files) files)
     <> high_water_mark is_used files.
Proof. vm_compute. repeat split; congruence. Qed.

(** C5, amended: [fs_recompute_last_alloc] sets [last_alloc] to the maximum
    of [DATA_OFFSET + i * FILE_REGION_SIZE + size] over the used entries of
    non-zero size, or to [DATA_OFFSET] when there is none; the other
    superblock fields are kept.  Sizes are within the slot capacity. *)
Theorem recompute_last_alloc_spec (s : Superblock) (files : list FileEntry) :
  (forall k, (k < MAX_FILES)%nat -> used_nonempty (files !!! k) = true ->
             size (files !!! k) <= FILE_REGION_SIZE) ->
  let s' := fs_recompute_last_alloc s files in
  last_alloc s' = high_water_mark used_nonempty files
  /\ DATA_OFFSET <= last_alloc s'
  /\ (forall k, (k < MAX_FILES)%nat -> used_nonempty (files !!! k) = true ->
                slot_end files k <= last_alloc s')
  /\ (last_alloc s' = DATA_OFFSET
      \/ exists k, (k < MAX_FILES)%nat /\ used_nonempty (files !!! k) = true
                   /\ last_alloc s' = slot_end files k)
  /\ ((forall k, (k < MAX_FILES)%nat -> used_nonempty (files !!! k) = false) ->
      last_alloc s' = DATA_OFFSET)
  /\ magic s' = magic s /\ version s' = version s
  /\ file_count s' = file_count s.
Proof.
  intros Hsz s'.
  unfold high_water_mark.
  assert (E : last_alloc s'
              = fold_right Z.max DATA_OFFSET
                  (map (slot_end files)
                     (List.filter (fun k => used_nonempty (files !!! k))
                        (seq 0 MAX_FILES)))).
  { subst s'. unfold fs_recompute_last_alloc. cbn [last_alloc].
    rewrite recompute_loop_max by (assumption || (unfold MAX_FILES; lia)).
    rewrite wrap32_small by (destruct layout_values as (-> & _); lia).
    reflexivity. }
  pose proof (fold_max_spec (slot_end files)
    (List.filter (fun k => used_nonempty (files !!! k)) (seq 0 MAX_FILES))
    DATA_OFFSET) as (Hb & Hub & Hat).
  rewrite <- E in Hb, Hub, Hat.
  assert (Hin : forall k,
    In k (List.filter (fun k => used_nonempty (files !!! k)) (seq 0 MAX_FILES))
    <-> (k < MAX_FILES)%nat /\ used_nonempty (files !!! k) = true).
  { intros k. rewrite filter_In, in_seq. intuition lia. }
  split; [exact E|]. split; [exact Hb|]. split.
  { intros k Hk Hu. apply Hub, Hin. split; assumption. }
  split.
  { destruct Hat as [Hat|(k & Hk & Hat)]; [left; exact Hat|].
    right. exists k. apply Hin in Hk. tauto. }
  split.
  { intros Hnone. destruct Hat as [Hat|(k & Hk & _)]; [exact Hat|].
    apply Hin in Hk as [Hk Hu]. rewrite Hnone in Hu by assumption.
    discriminate. }
  repeat split.
Qed.

Lemma recompute_last_alloc_spec_witness :
  last_alloc (fs_recompute_last_alloc (g_super ten_byte_file)
                (g_files ten_byte_file))
  = DATA_OFFSET + 10.
Proof.
  destruct (recompute_last_alloc_spec (g_super ten_byte_file)
              (g_files ten_byte_file)) as (E & _).
  - intros k Hk Hu.
    assert (Hall : forallb (fun k =>
              implb (used_nonempty (g_files ten_byte_file !!! k))
                    (size (g_files ten_byte_file !!! k) <=? FILE_REGION_SIZE))
              (seq 0 MAX_FILES) = true) by (vm_compute; reflexivity).
    rewrite forallb_forall in Hall.
    specialize (Hall k). rewrite Hu in Hall. cbn [implb] in Hall.
    apply Z.leb_le, Hall, in_seq. lia.
  - rewrite E. vm_compute. reflexivity.
Defined.

End RecomputeLastAlloc.

(** ** Handles *)

Section Handles.

Lemma valid_handle_index st fi :
  valid_handle st fi ->
  to_int (fh fi) = fh fi /\ bad_handle st (fh fi) = false
  /\ (Z.to_nat (fh fi) < MAX_FILES)%nat
  /\ region_start (fh fi) = slot_base (fh fi).
Proof.
  intros [Hr Hu]. unfold MAX_FILES in *.
  split; [apply to_int_small; unfold INT_MAX; lia|].
  split.
  - unfold bad_handle. rewrite Hu. unfold MAX_FILES.
    destruct (Z.ltb_spec (fh fi) 0); [lia|].
    destruct (Z.geb_spec (fh fi) (Z.of_nat 64)); [lia|]. reflexivity.
  - split; [lia|]. apply region_start_slot_base. unfold MAX_FILES. lia.
Qed.

Lemma slot_base_range i :
  0 <= i < Z.of_nat MAX_FILES ->
  DATA_OFFSET <= slot_base i
  /\ slot_base i + FILE_REGION_SIZE <= FS_SIZE.
Proof.
  unfold slot_base, MAX_FILES, FS_SIZE.
  destruct layout_values as (-> & -> & _). lia.
Qed.

Lemma transferred_full env n :
  0 <= n <= data_avail env -> transferred env n = n.
Proof. unfold transferred. lia. Qed.

Lemma transferred_range env n : 0 <= n -> 0 <= transferred env n <= n.
Proof. unfold transferred. lia. Qed.

End Handles.

(** ** Writing (C1) *)

Section Write.

(** C1: for a valid handle, an offset and a byte string of length [L]
    (an [off_t] offset is not negative, and [L] is the length of an object
    in memory), [my_write] returns [-ENOSPC] exactly when [offset + L]
    exceeds [FILE_REGION_SIZE], and then the state is unchanged; otherwise,
    when every library call succeeds, it returns [L], the [L] bytes are in
    the backing file from [slot_base + offset] on, the size of the entry is
    the maximum of its old size and [offset + L], its [mtime] is the clock,
    its other fields and all other entries are as before. *)
Theorem my_write_spec env st buf offset fi :
  table_sized st ->
  valid_handle st fi ->
  0 <= offset <= OFF_MAX ->
  Z.of_nat (length buf) <= OFF_MAX ->
  let L := Z.of_nat (length buf) in
  let idx := Z.to_nat (fh fi) in
  let fe := g_files st !!! idx in
  (ret_of fst (my_write env st buf offset fi) = Some (- ENOSPC)
   <-> offset + L > FILE_REGION_SIZE)
  /\ (offset + L > FILE_REGION_SIZE ->
      my_write env st buf offset fi = Done (- ENOSPC, st))
  /\ (offset + L <= FILE_REGION_SIZE -> io_succeeds env L ->
      exists st',
        my_write env st buf offset fi = Done (L, st')
        /\ (forall k, (k < length buf)%nat ->
              g_fs_file st' (slot_base (fh fi) + offset + Z.of_nat k)
              = nth k buf NUL)
        /\ size (g_files st' !!! idx) = Z.max (size fe) (offset + L)
        /\ mtime (g_files st' !!! idx) = wrap32 (now env)
        /\ used (g_files st' !!! idx) = used fe
        /\ name (g_files st' !!! idx) = name fe
        /\ start (g_files st' !!! idx) = start fe
        /\ perms (g_files st' !!! idx) = perms fe
        /\ (forall j, j <> idx -> g_files st' !!! j = g_files st !!! j)).
Proof.
  intros Hlen Hv Hoff HL L idx fe.
  destruct (valid_handle_index st fi Hv) as (Hint & Hbad & Hidx & Hreg).
  destruct Hv as [Hfh Hused].
  assert (HL0 : 0 <= L) by (subst L; lia).
  assert (Hsum : wrap64 (offset + L) = offset + L).
  { apply wrap64_small. unfold OFF_MAX in *. subst L. lia. }
  assert (Hcap : FILE_REGION_SIZE = 16334) by apply layout_values.
  unfold my_write. cbv zeta. rewrite Hint, Hbad. fold L. rewrite Hsum.
  destruct (Z.gtb_spec (offset + L) FILE_REGION_SIZE) as [Hbig|Hfit].
  - (* no space *)
    split; [split; [lia|reflexivity]|]. split; [reflexivity|]. lia.
  - assert (Hnew : wrap32 (offset + L) = offset + L).
    { apply wrap32_small. lia. }
    assert (Hpos : wrap32 (region_start (fh fi) + offset)
                   = slot_base (fh fi) + offset).
    { rewrite Hreg. apply wrap32_small.
      pose proof (slot_base_range (fh fi) Hfh) as [Hlo Hhi].
      destruct layout_values as (Ed & _). rewrite Ed in Hlo.
      unfold FS_SIZE in Hhi. lia. }
    rewrite Hnew, Hpos.
    split.
    { (* the return value is not -ENOSPC *)
      split; [|lia]. intros Hret. exfalso.
      destruct (seek_ok env); cbn [negb] in Hret; [|discriminate Hret].
      destruct (Z.eqb_spec (transferred env L) L) as [Hw|Hw];
        cbn [negb] in Hret; [|discriminate Hret].
      rewrite Hw in Hret.
      match type of Hret with
      | ret_of fst (bind (commit ?e ?s ?sb ?fl) _) = _ =>
          destruct (commit_spec e s sb fl) as [(msg & Ec & _)|(d' & Ec & _)];
          rewrite Ec in Hret; cbn [bind ret_of fst] in Hret
      end; [discriminate Hret|].
      rewrite to_int_small in Hret by (unfold INT_MAX; lia).
      injection Hret. unfold ENOSPC. lia. }
    split; [lia|].
    intros _ (Hseek & Havail & Hsync).
    rewrite Hseek. cbn [negb].
    rewrite transferred_full by lia.
    rewrite Z.eqb_refl. cbn [negb].
    unfold L at 1. rewrite Nat2Z.id, take_ge by lia. fold L.
    match goal with
    | |- context [commit ?e ?s ?sb ?fl] =>
        destruct (commit_done e s sb fl Hsync) as (d' & Ec & Hd');
        rewrite Ec
    end.
    cbn [bind g_fs_file] in *.
    rewrite to_int_small by (unfold INT_MAX; lia).
    eexists. split; [reflexivity|].
    cbn [g_fs_file g_files].
    fold idx. rewrite lookup_assign_eq by assumption.
    fold fe.
    split.
    { intros k Hk. rewrite Hd'.
      - apply write_bytes_inside. exact Hk.
      - pose proof (slot_base_range (fh fi) Hfh) as [Hlo _]. lia. }
    destruct (Z.gtb_spec (offset + L) (size fe)) as [Hgt|Hle];
      cbn [set_mtime set_size size mtime used name start perms].
    + split; [lia|]. repeat split.
      intros j Hj. apply lookup_assign_ne. congruence.
    + split; [lia|]. repeat split.
      intros j Hj. apply lookup_assign_ne. congruence.
Qed.

Lemma my_write_spec_witness :
  exists st',
    my_write (env_ok 2) (create_in fresh_state "/a.txt") (chars "0123456789")
             0 (handle 0) = Done (10, st')
    /\ size (g_files st' !!! 0%nat) = 10.
Proof.
  destruct (my_write_spec (env_ok 2) (create_in fresh_state "/a.txt")
              (chars "0123456789") 0 (handle 0)) as (_ & _ & H).
  - vm_compute. reflexivity.
  - split; [change (0 <= 0 < 64); lia|vm_compute; reflexivity].
  - unfold OFF_MAX. lia.
  - vm_compute. discriminate.
  - destruct H as (st' & E & _ & Hsz & _).
    + vm_compute. discriminate.
    + repeat split; vm_compute; congruence.
    + exists st'. split; [exact E|].
      change (Z.to_nat (fh (handle 0))) with 0%nat in Hsz.
      rewrite Hsz. vm_compute. reflexivity.
Defined.

End Write.

(** ** Reading (C2, C7) *)

Section Read.

(** C2: for a valid handle on a file of size [S], a read at [offset >= S]
    returns zero bytes and no error; a read with [offset < S < offset +
    length] returns exactly [S - offset] bytes, those of the backing file at
    the wrapped position, when the seek succeeds and the stream delivers
    the clamped count.  The offset is not negative, [offset + length] fits
    the 64 bits of [size_t], and the count fits the [int] return type. *)
Theorem my_read_eof env st sz offset fi :
  valid_handle st fi ->
  let S := size (g_files st !!! Z.to_nat (fh fi)) in
  (S <= offset -> my_read env st sz offset fi = (0, []))
  /\ (0 <= offset < S -> S < offset + sz -> offset + sz < 2 ^ 64 ->
      S - offset <= INT_MAX ->
      seek_ok env = true -> S - offset <= data_avail env ->
      my_read env st sz offset fi
      = (S - offset,
         read_bytes (g_fs_file st) (wrap32 (region_start (fh fi) + offset))
                    (S - offset))
      /\ Z.of_nat (length (snd (my_read env st sz offset fi))) = S - offset).
Proof.
  intros Hv S.
  destruct (valid_handle_index st fi Hv) as (Hint & Hbad & _).
  unfold my_read. cbv zeta. rewrite Hint, Hbad. fold S.
  split.
  - intros Hge. destruct (Z.geb_spec offset S); [reflexivity|lia].
  - intros Hoff Hover Hfit Hint' Hseek Havail.
    destruct (Z.geb_spec offset S); [lia|].
    rewrite (wrap64_small (offset + sz)) by lia.
    destruct (Z.gtb_spec (offset + sz) S); [|lia].
    rewrite (wrap64_small (S - offset)) by lia.
    rewrite Hseek. cbn [negb].
    rewrite transferred_full by lia.
    rewrite to_int_small by lia.
    split; [reflexivity|].
    cbn [snd]. rewrite length_read_bytes. lia.
Qed.

Lemma my_read_eof_witness :
  my_read (env_ok 4) ten_byte_file 100 10 (handle 0) = (0, [])
  /\ my_read (env_ok 4) ten_byte_file 100 3 (handle 0) = (7, chars "3456789").
Proof.
  destruct (my_read_eof (env_ok 4) ten_byte_file 100 10 (handle 0))
    as (Heof & _).
  { split; [change (0 <= 0 < 64); lia|vm_compute; reflexivity]. }
  destruct (my_read_eof (env_ok 4) ten_byte_file 100 3 (handle 0))
    as (_ & Hclamp).
  { split; [change (0 <= 0 < 64); lia|vm_compute; reflexivity]. }
  split.
  - apply Heof. vm_compute. discriminate.
  - destruct Hclamp as (E & _);
      [vm_compute; try split; congruence ..
      |rewrite E; vm_compute; reflexivity].
Defined.

(** A short transfer comes back as the short count: whatever the stream
    delivers below the clamped length, [my_read] returns that count, which
    is not an error code. *)
Lemma my_read_short_transfer env st sz offset fi :
  valid_handle st fi ->
  let S := size (g_files st !!! Z.to_nat (fh fi)) in
  0 <= offset < S -> 0 <= sz -> offset + sz < 2 ^ 64 ->
  seek_ok env = true ->
  let clamped := Z.min sz (S - offset) in
  0 <= data_avail env < clamped -> data_avail env <= INT_MAX ->
  fst (my_read env st sz offset fi) = data_avail env.
Proof.
  intros Hv S Hoff Hsz Hfit Hseek clamped Hshort Hint'.
  destruct (valid_handle_index st fi Hv) as (Hint & Hbad & _).
  unfold my_read. cbv zeta. rewrite Hint, Hbad. fold S.
  destruct (Z.geb_spec offset S); [lia|].
  rewrite (wrap64_small (offset + sz)) by lia.
  rewrite Hseek. cbn [negb fst].
  subst clamped.
  destruct (Z.gtb_spec (offset + sz) S).
  - rewrite (wrap64_small (S - offset)) by lia.
    unfold transferred.
    rewrite Z.min_r, Z.max_r by lia. apply to_int_small. lia.
  - unfold transferred.
    rewrite Z.min_r, Z.max_r by lia. apply to_int_small. lia.
Qed.

(** C7 fails on the code: reading ten bytes of a ten-byte file from a stream
    that delivers four returns 4 and the four bytes, not [-EIO]. *)
Theorem my_read_returns_short_count :
  size (g_files ten_byte_file !!! 0%nat) = 10
  /\ my_read (env_short 4 4) ten_byte_file 10 0 (handle 0) = (4, chars "0123")
  /\ fst (my_read (env_short 4 4) ten_byte_file 10 0 (handle 0)) <> - EIO.
Proof. vm_compute. repeat split; congruence. Qed.

End Read.

(** ** The outcomes of create, open and unlink *)

Section Outcomes.

Implicit Types (st : fs_state) (path : list ascii) (fi : fuse_file_info).

Lemma set_fh_index fi k :
  (k < MAX_FILES)%nat -> set_fh fi (Z.of_nat k) = {| flags := flags fi; fh := Z.of_nat k |}.
Proof.
  intros Hk. unfold set_fh. rewrite wrap64_small; [reflexivity|].
  unfold MAX_FILES in Hk. lia.
Qed.

(** The three ways [my_create] ends: the name is found; the name is new
    and the table is full; the name is new and the first free slot is
    taken. *)
Lemma my_create_cases env st path mode fi :
  (exists k, (k < MAX_FILES)%nat
     /\ find_file_by_name (g_files st) path = Z.of_nat k
     /\ name_matches (g_files st !!! k) (skip_slash path) = true
     /\ my_create env st path mode fi = Done (0, st, set_fh fi (Z.of_nat k)))
  \/ (find_file_by_name (g_files st) path = -1
      /\ full_table (g_files st)
      /\ my_create env st path mode fi = Done (- ENOSPC, st, fi))
  \/ (exists k, (k < MAX_FILES)%nat
      /\ find_file_by_name (g_files st) path = -1
      /\ (forall j, (j < MAX_FILES)%nat ->
            name_matches (g_files st !!! j) (skip_slash path) = false)
      /\ alloc_file_slot (g_files st) = Z.of_nat k
      /\ is_used (g_files st !!! k) = false
      /\ (forall j, (j < k)%nat -> is_used (g_files st !!! j) = true)
      /\ my_create env st path mode fi
         = bind (commit env st
                   (set_file_count (g_super st)
                      (wrap32 (file_count (g_super st) + 1)))
                   (<[k := new_entry (skip_slash path) mode (now env)]>
                      (g_files st)))
                (fun st' => Done (0, st', set_fh fi (Z.of_nat k)))).
Proof.
  unfold my_create. cbv zeta.
  destruct (find_file_by_name_spec (g_files st) path)
    as [[E Hno]|(k & Hk & E & Hm & _)]; rewrite E.
  - change (-1 >=? 0) with false. cbv iota.
    destruct (alloc_file_slot_spec (g_files st))
      as [[Ea Hfull]|(k & Hk & Ea & Hu & Hbefore)]; rewrite Ea.
    + right. left. change (-1 <? 0) with true. cbv iota. tauto.
    + right. right. exists k.
      destruct (Z.ltb_spec (Z.of_nat k) 0); [lia|].
      rewrite Nat2Z.id. repeat split; assumption.
  - left. exists k.
    destruct (Z.geb_spec (Z.of_nat k) 0); [|lia].
    repeat split; assumption.
Qed.

(** The two ways [my_unlink] ends. *)
Lemma my_unlink_cases env st path :
  (find_file_by_name (g_files st) path = -1
   /\ (forall j, (j < MAX_FILES)%nat ->
         name_matches (g_files st !!! j) (skip_slash path) = false)
   /\ my_unlink env st path = Done (- ENOENT, st))
  \/ (exists k, (k < MAX_FILES)%nat
      /\ find_file_by_name (g_files st) path = Z.of_nat k
      /\ name_matches (g_files st !!! k) (skip_slash path) = true
      /\ my_unlink env st path
         = bind (commit env st
                   (set_file_count (g_super st)
                      (wrap32 (file_count (g_super st) - 1)))
                   (<[k := zero_entry]> (g_files st)))
                (fun st' => Done (0, st'))).
Proof.
  unfold my_unlink. cbv zeta.
  destruct (find_file_by_name_spec (g_files st) path)
    as [[E Hno]|(k & Hk & E & Hm & _)]; rewrite E.
  - left. change (-1 <? 0) with true. cbv iota. tauto.
  - right. exists k.
    destruct (Z.ltb_spec (Z.of_nat k) 0); [lia|].
    rewrite Nat2Z.id. repeat split; assumption.
Qed.

(** [my_open] with [O_CREAT] on a name that is not in the table ends as
    [my_create] does, with the default mode. *)
Lemma my_open_creat_new env st path fi :
  Z.land (flags fi) O_CREAT <> 0 ->
  find_file_by_name (g_files st) path = -1 ->
  my_open env st path fi = my_create env st path mode_0644 fi.
Proof.
  intros Hflag E. unfold my_open, my_create. cbv zeta. rewrite E.
  change (-1 <? 0) with true. change (-1 >=? 0) with false. cbv iota.
  destruct (Z.eqb_spec (Z.land (flags fi) O_CREAT) 0); [contradiction|].
  reflexivity.
Qed.

Lemma name_matches_used e nm : name_matches e nm = true -> is_used e = true.
Proof. unfold name_matches. intros H. apply andb_true_iff in H. tauto. Qed.

End Outcomes.

(** ** Unlinking (C8) *)

Section Unlink.

(** C8: for a name that [find_file_by_name] resolves to slot [idx],
    [my_unlink] (its metadata writes succeeding) returns 0, leaves the
    all-zero record in slot [idx], decrements [file_count] (a positive
    32-bit count) by one, and
    leaves every other entry and every byte of the backing file from
    [DATA_OFFSET] on, the slot of the unlinked file included, as it was;
    for a name that is not resolved it returns [-ENOENT] and the state is
    unchanged. *)
Theorem my_unlink_spec env st path :
  table_sized st ->
  let idx := Z.to_nat (find_file_by_name (g_files st) path) in
  (find_file_by_name (g_files st) path < 0 ->
   my_unlink env st path = Done (- ENOENT, st))
  /\ (0 <= find_file_by_name (g_files st) path ->
      sync_succeeds env ->
      0 < file_count (g_super st) < 2 ^ 32 ->
      exists st',
        my_unlink env st path = Done (0, st')
        /\ g_files st' !!! idx = zero_entry
        /\ used zero_entry = 0 /\ c_str (name zero_entry) = []
        /\ size zero_entry = 0 /\ perms zero_entry = 0 /\ mtime zero_entry = 0
        /\ file_count (g_super st') = file_count (g_super st) - 1
        /\ (forall j, j <> idx -> g_files st' !!! j = g_files st !!! j)
        /\ (forall a, DATA_OFFSET <= a -> g_fs_file st' a = g_fs_file st a)).
Proof.
  intros Hlen idx.
  destruct (my_unlink_cases env st path)
    as [(E & _ & Hret)|(k & Hk & E & Hm & Hret)].
  - split; [intros _; exact Hret|]. rewrite E. lia.
  - split; [rewrite E; lia|].
    intros _ Hsync Hcount.
    subst idx. rewrite E, Nat2Z.id.
    commit_succeeds in Hret by Hsync as d' Hd'.
    eexists. split; [exact Hret|].
    cbn [g_files g_super g_fs_file].
    split; [apply lookup_assign_eq; assumption|].
    do 5 (split; [reflexivity|]).
    split.
    { unfold fs_recompute_last_alloc, set_file_count. cbn [file_count].
      apply wrap32_small. lia. }
    split; [|exact Hd'].
    intros j Hj. apply lookup_assign_ne. congruence.
Qed.

Lemma my_unlink_spec_witness :
  (exists st', my_unlink (env_ok 3) ten_byte_file (chars "/a.txt")
               = Done (0, st')
     /\ file_count (g_super st') = 0
     /\ g_fs_file st' (DATA_OFFSET + 3) = "3"%char)
  /\ my_unlink (env_ok 3) ten_byte_file (chars "/b.txt")
     = Done (- ENOENT, ten_byte_file).
Proof.
  destruct (my_unlink_spec (env_ok 3) ten_byte_file (chars "/a.txt"))
    as (_ & Hfound); [vm_compute; reflexivity|].
  destruct (my_unlink_spec (env_ok 3) ten_byte_file (chars "/b.txt"))
    as (Hmissing & _); [vm_compute; reflexivity|].
  split.
  - destruct Hfound as (st' & E & _ & _ & _ & _ & _ & _ & Hc & _ & Hd).
    + vm_compute. discriminate.
    + split; reflexivity.
    + vm_compute. split; reflexivity.
    + exists st'. split; [exact E|]. split.
      * rewrite Hc. vm_compute. reflexivity.
      * rewrite Hd by lia. vm_compute. reflexivity.
  - apply Hmissing. vm_compute. reflexivity.
Defined.

End Unlink.

(** ** Table exhaustion (C6) *)

Section Exhaustion.

Lemma is_used_zero_entry : is_used zero_entry = false.
Proof. reflexivity. Qed.

Lemma is_used_new_entry f mode t : is_used (new_entry f mode t) = true.
Proof. reflexivity. Qed.

(** C6: on a table whose [MAX_FILES] slots are all used, [my_create] and
    [my_open] with [O_CREAT] of a name that is not found return [-ENOSPC]
    and leave the state unchanged; after [my_unlink] of any name that is
    found, [my_create] of a name that is not found succeeds and its handle
    is the slot that the unlink freed. *)
Theorem table_exhaustion env st :
  table_sized st ->
  full_table (g_files st) ->
  (forall path mode fi,
     find_file_by_name (g_files st) path < 0 ->
     my_create env st path mode fi = Done (- ENOSPC, st, fi)
     /\ (Z.land (flags fi) O_CREAT <> 0 ->
         my_open env st path fi = Done (- ENOSPC, st, fi)))
  /\ (forall victim env' fresh mode fi,
        0 <= find_file_by_name (g_files st) victim ->
        sync_succeeds env -> sync_succeeds env' ->
        let freed := find_file_by_name (g_files st) victim in
        exists st1,
          my_unlink env st victim = Done (0, st1)
          /\ (find_file_by_name (g_files st1) fresh < 0 ->
              exists st2,
                my_create env' st1 fresh mode fi
                = Done (0, st2, {| flags := flags fi; fh := freed |})
                /\ is_used (g_files st2 !!! Z.to_nat freed) = true
                /\ name (g_files st2 !!! Z.to_nat freed)
                   = stored_name (skip_slash fresh))).
Proof.
  intros Hlen Hfull. split.
  - intros path mode fi Hnew.
    apply find_file_by_name_neg in Hnew as [E _].
    assert (Hc : forall m, my_create env st path m fi = Done (- ENOSPC, st, fi)).
    { intros m.
      destruct (my_create_cases env st path m fi)
        as [(k & _ & E' & _)|[(_ & _ & Hret)|(k & Hk & _ & _ & _ & Hu & _)]].
      - rewrite E in E'. lia.
      - exact Hret.
      - rewrite Hfull in Hu by assumption. discriminate. }
    split; [apply Hc|].
    intros Hflag. rewrite my_open_creat_new by assumption. apply Hc.
  - intros victim env' fresh mode fi Hfound Hsync Hsync' freed.
    destruct (my_unlink_cases env st victim)
      as [(E & _)|(k & Hk & E & Hm & Hret)]; [lia|].
    commit_succeeds in Hret by Hsync as d1 ?.
    eexists. split; [exact Hret|].
    cbn [g_files]. intros Hnew.
    set (st1 := {| g_fs_file := d1;
                   g_super := fs_recompute_last_alloc
                     (set_file_count (g_super st)
                        (wrap32 (file_count (g_super st) - 1)))
                     (<[k := zero_entry]> (g_files st));
                   g_files := <[k := zero_entry]> (g_files st) |}).
    assert (Hlen1 : length (g_files st1) = MAX_FILES).
    { cbn [st1 g_files]. rewrite length_insert. exact Hlen. }
    assert (Hfree : alloc_file_slot (g_files st1) = Z.of_nat k).
    { apply alloc_file_slot_only; [assumption| |].
      - cbn [st1 g_files]. rewrite lookup_assign_eq by assumption. reflexivity.
      - intros j Hj Hne. cbn [st1 g_files].
        rewrite lookup_assign_ne by congruence. apply Hfull. assumption. }
    destruct (my_create_cases env' st1 fresh mode fi)
      as [(k' & _ & E' & _)|[(_ & Hfull1 & _)|(k' & Hk' & _ & _ & Ea & _ & _ & Hret')]].
    + cbn [st1 g_files] in E'. lia.
    + exfalso. specialize (Hfull1 k Hk). cbn [st1 g_files] in Hfull1.
      rewrite lookup_assign_eq in Hfull1 by assumption. discriminate.
    + rewrite Hfree in Ea. apply Nat2Z.inj in Ea. subst k'.
      commit_succeeds in Hret' by Hsync' as d2 ?.
      subst freed. rewrite E, Nat2Z.id.
      eexists. split.
      { rewrite Hret'. rewrite set_fh_index by assumption. reflexivity. }
      cbn [g_files]. rewrite lookup_assign_eq by assumption.
      split; reflexivity.
Qed.

Lemma full_table_check files :
  forallb (fun i => is_used (files !!! i)) (seq 0 MAX_FILES) = true ->
  full_table files.
Proof.
  intros H i Hi. rewrite forallb_forall in H. apply H, in_seq. lia.
Qed.

Lemma table_exhaustion_witness :
  my_create (env_ok 3) full_state (chars "/new") mode_0644 fi_plain
  = Done (- ENOSPC, full_state, fi_plain)
  /\ exists st2,
       my_create (env_ok 6) (unlink_in full_state "/5") (chars "/new")
                 mode_0644 fi_plain
       = Done (0, st2, handle 5).
Proof.
  destruct (table_exhaustion (env_ok 3) full_state) as (Hfull & Hreuse).
  - vm_compute. reflexivity.
  - apply full_table_check. vm_compute. reflexivity.
  - split.
    + apply (Hfull (chars "/new") mode_0644 fi_plain). vm_compute. reflexivity.
    + destruct (Hreuse (chars "/5") (env_ok 6) (chars "/new") mode_0644 fi_plain)
        as (st1 & E1 & H2).
      * vm_compute. discriminate.
      * split; reflexivity.
      * split; reflexivity.
      * assert (Est : unlink_in full_state "/5" = st1).
        { unfold unlink_in. rewrite E1. reflexivity. }
        subst st1.
        destruct H2 as (st2 & E2 & _); [vm_compute; reflexivity|].
        assert (Hfreed : find_file_by_name (g_files full_state) (chars "/5") = 5)
          by (vm_compute; reflexivity).
        rewrite Hfreed in E2.
        exists st2. exact E2.
Defined.

End Exhaustion.

(** ** Creating twice (C3, C9) *)

Section CreateTwice.

Implicit Types (st : fs_state) (path : list ascii) (fi : fuse_file_info).

(** What a successful [my_create] of a name that was not in the table
    leaves: the new entry in the first free slot [k], the rest of the table
    as it was. *)
Lemma my_create_new env st path mode fi st1 fi1 :
  table_sized st ->
  find_file_by_name (g_files st) path = -1 ->
  my_create env st path mode fi = Done (0, st1, fi1) ->
  exists k, (k < MAX_FILES)%nat
    /\ fi1 = {| flags := flags fi; fh := Z.of_nat k |}
    /\ is_used (g_files st !!! k) = false
    /\ (forall j, (j < k)%nat -> is_used (g_files st !!! j) = true)
    /\ (forall j, (j < MAX_FILES)%nat ->
          name_matches (g_files st !!! j) (skip_slash path) = false)
    /\ g_files st1 = <[k := new_entry (skip_slash path) mode (now env)]> (g_files st)
    /\ g_files st1 !!! k = new_entry (skip_slash path) mode (now env)
    /\ (forall j, j <> k -> g_files st1 !!! j = g_files st !!! j)
    /\ file_count (g_super st1) = wrap32 (file_count (g_super st) + 1)
    /\ sync_succeeds env.
Proof.
  intros Hlen E Hret.
  destruct (my_create_cases env st path mode fi)
    as [(k & _ & E' & _)|[(_ & _ & Hret')|(k & Hk & _ & Hno & _ & Hu & Hbefore & Hret')]].
  - rewrite E in E'. lia.
  - rewrite Hret in Hret'. discriminate Hret'.
  - rewrite Hret in Hret'.
    match type of Hret' with
    | _ = bind (commit ?e ?s ?sb ?fl) _ =>
        destruct (commit_spec e s sb fl) as [(msg & Ec & _)|(d' & Ec & Hs & _)];
        rewrite Ec in Hret'; cbn [bind] in Hret'
    end; [discriminate Hret'|].
    injection Hret' as -> ->.
    exists k. cbn [g_files g_super].
    split; [assumption|]. split; [apply set_fh_index; assumption|].
    split; [assumption|]. split; [assumption|]. split; [assumption|].
    split; [reflexivity|].
    split; [apply lookup_assign_eq; assumption|].
    split; [intros j Hj; apply lookup_assign_ne; congruence|].
    split; [reflexivity|assumption].
Qed.

(** X1: for a name shorter than [NAME_MAX_LEN] bytes [my_create] is
    idempotent: whatever the first call returned (0 and a handle, or
    [-ENOSPC]), a second call returns the same value, the same slot index as
    handle when there is one, and the state of the first call unchanged. *)
Lemma my_create_idempotent env1 env2 st path mode1 mode2 fi1 fi2 r st1 fi1' :
  table_sized st ->
  (length (c_str (skip_slash path)) < NAME_MAX_LEN)%nat ->
  my_create env1 st path mode1 fi1 = Done (r, st1, fi1') ->
  (r = 0 /\ 0 <= fh fi1' < Z.of_nat MAX_FILES
   /\ my_create env2 st1 path mode2 fi2
      = Done (0, st1, {| flags := flags fi2; fh := fh fi1' |}))
  \/ (r = - ENOSPC
      /\ my_create env2 st1 path mode2 fi2 = Done (- ENOSPC, st1, fi2)).
Proof.
  intros Hlen Hshort Hret.
  assert (Hfound : forall k, (k < MAX_FILES)%nat ->
            find_file_by_name (g_files st1) path = Z.of_nat k ->
            fh fi1' = Z.of_nat k ->
            0 <= fh fi1' < Z.of_nat MAX_FILES
            /\ my_create env2 st1 path mode2 fi2
               = Done (0, st1, {| flags := flags fi2; fh := fh fi1' |})).
  { intros k Hk E Hfh. split; [rewrite Hfh; lia|].
    destruct (my_create_cases env2 st1 path mode2 fi2)
      as [(k' & _ & E' & _ & Hret')|[(E' & _)|(k' & _ & E' & _)]];
      try (rewrite E in E'; lia).
    rewrite E in E'. apply Nat2Z.inj in E'. subst k'.
    rewrite Hret', Hfh. apply f_equal, f_equal, set_fh_index. assumption. }
  destruct (my_create_cases env1 st path mode1 fi1)
    as [(k & Hk & E & _ & Hret')|[(E & Hfull & Hret')|(k & Hk & E & Hno & _ & _ & _ & Hret')]].
  - (* the file was there *)
    rewrite Hret in Hret'. injection Hret' as -> -> ->.
    left. split; [reflexivity|].
    apply (Hfound k Hk); [exact E|].
    rewrite set_fh_index by assumption. reflexivity.
  - (* the table was full *)
    rewrite Hret in Hret'. injection Hret' as -> -> ->.
    right. split; [reflexivity|].
    destruct (my_create_cases env2 st path mode2 fi2)
      as [(k' & _ & E' & _)|[(_ & _ & Hret2)|(k' & Hk' & _ & _ & _ & Hu & _)]].
    + rewrite E in E'. lia.
    + exact Hret2.
    + rewrite Hfull in Hu by assumption. discriminate Hu.
  - (* the first call created the file *)
    assert (Hr : r = 0).
    { rewrite Hret in Hret'.
      match type of Hret' with
      | _ = bind ?c _ => destruct c; cbn [bind] in Hret'
      end; [|discriminate Hret'].
      injection Hret' as -> _ _. reflexivity. }
    subst r. left. split; [reflexivity|].
    destruct (my_create_new env1 st path mode1 fi1 st1 fi1' Hlen E Hret)
      as (k' & Hk' & -> & _ & _ & _ & _ & Enew & Hother & _).
    apply (Hfound k' Hk'); [|reflexivity].
    unfold find_file_by_name. apply find_loop_first.
    + lia.
    + rewrite Enew. unfold name_matches.
      rewrite is_used_new_entry. cbn [new_entry name andb].
      rewrite strncmp_stored_short by assumption. reflexivity.
    + intros j Hj. rewrite Hother by lia. apply Hno. lia.
Qed.

(** C3 fails on the code: on a freshly formatted file system, the first
    [my_create] of a name of [NAME_MAX_LEN] characters returns handle 0 and
    the second, in succession, returns handle 1; the second call turns slot
    1 from unused to used and [file_count] from 1 to 2. *)
Theorem create_twice_long_name :
  let c1 := my_create (env_ok 1) fresh_state (chars long_path) mode_0644 fi_plain in
  let st1 := create_in fresh_state long_path in
  let c2 := my_create (env_ok 1) st1 (chars long_path) mode_0644 fi_plain in
  let st2 := create_in st1 long_path in
  ret_of (fun r => fst (fst r)) c1 = Some 0
  /\ ret_of (fun r => fh (snd r)) c1 = Some 0
  /\ ret_of (fun r => fst (fst r)) c2 = Some 0
  /\ ret_of (fun r => fh (snd r)) c2 = Some 1
  /\ is_used (g_files st1 !!! 1%nat) = false
  /\ is_used (g_files st2 !!! 1%nat) = true
  /\ file_count (g_super st1) = 1
  /\ file_count (g_super st2) = 2.
Proof. vm_compute. repeat split. Qed.

(** On the freshly formatted file system a new name gets slot 0. *)
Lemma my_create_first_slot env path mode fi :
  sync_succeeds env ->
  find_file_by_name (g_files fresh_state) path = -1 ->
  exists st1,
    my_create env fresh_state path mode fi
    = Done (0, st1, {| flags := flags fi; fh := 0 |}).
Proof.
  intros Hsync Hnew.
  destruct (my_create_cases env fresh_state path mode fi)
    as [(k & _ & E' & _)|[(_ & Hfull & _)|(k & Hk & _ & _ & Ea & _ & _ & Hret)]].
  - rewrite Hnew in E'. lia.
  - exfalso. specialize (Hfull 0%nat). revert Hfull.
    assert (Hu : is_used (g_files fresh_state !!! 0%nat) = false)
      by (vm_compute; reflexivity).
    rewrite Hu. unfold MAX_FILES. intros H. specialize (H ltac:(lia)).
    discriminate H.
  - assert (Ha : alloc_file_slot (g_files fresh_state) = 0)
      by (vm_compute; reflexivity).
    rewrite Ha in Ea. assert (k = 0%nat) as -> by lia.
    commit_succeeds in Hret by Hsync as d' ?.
    eexists. rewrite Hret. reflexivity.
Qed.

Lemma strcmp_root path :
  strcmp path (chars "/") = 0 -> c_str (skip_slash path) = [].
Proof.
  unfold strcmp. destruct path as [|c p].
  - intros H. apply strncmp_zero_iff in H. discriminate H.
  - intros H. apply strncmp_zero_iff in H.
    cbn [c_str chars list_ascii_of_string skip_slash] in *.
    change (Ascii.eqb "/" NUL) with false in H. cbv iota in H.
    destruct (Ascii.eqb_spec c NUL) as [->|Hc]; [discriminate H|].
    cbn [length take] in H. injection H as -> Hp.
    rewrite Ascii.eqb_refl.
    pose proof (c_str_length p) as Hl.
    rewrite take_ge in Hp by lia. exact Hp.
Qed.

(** No terminated name matches a name that fills the buffer. *)
Lemma long_name_matches_nothing files nm :
  names_terminated files ->
  (NAME_MAX_LEN <= length (c_str nm))%nat ->
  forall j, (j < MAX_FILES)%nat -> name_matches (files !!! j) nm = false.
Proof.
  intros Hterm Hlong j Hj. unfold name_matches.
  destruct (is_used (files !!! j)) eqn:Hu; [|reflexivity].
  cbn [andb]. apply Z.eqb_neq.
  apply strncmp_terminated_long; [|assumption].
  apply Hterm; assumption.
Qed.

(** C9: for a path whose bare name is [NAME_MAX_LEN] bytes or longer, on a
    table of NUL-terminated names with a free slot, and the metadata writes
    succeeding: the name is not found beforehand; [my_create] returns 0
    with the lowest free slot [k] as handle, and stores the first
    [NAME_MAX_LEN - 1] bytes of the name there, leaving the other entries as
    they were; [find_file_by_name] of the same path then still returns
    [-1], so [my_getattr] returns [-ENOENT]; and while a free slot remains
    a second [my_create] of the path succeeds with a different slot, whose
    entry gets the same stored name, the first entry staying in place and
    [file_count] growing by one more. *)
Theorem long_name_not_found env st path mode fi :
  table_sized st ->
  names_terminated (g_files st) ->
  (NAME_MAX_LEN <= length (c_str (skip_slash path)))%nat ->
  (exists j, (j < MAX_FILES)%nat /\ is_used (g_files st !!! j) = false) ->
  sync_succeeds env ->
  find_file_by_name (g_files st) path = -1
  /\ exists k st1,
       my_create env st path mode fi
       = Done (0, st1, {| flags := flags fi; fh := Z.of_nat k |})
       /\ (k < MAX_FILES)%nat
       /\ is_used (g_files st !!! k) = false
       /\ (forall j, (j < k)%nat -> is_used (g_files st !!! j) = true)
       /\ is_used (g_files st1 !!! k) = true
       /\ name (g_files st1 !!! k)
          = take (NAME_MAX_LEN - 1) (c_str (skip_slash path)) ++ [NUL]
       /\ (forall j, j <> k -> g_files st1 !!! j = g_files st !!! j)
       /\ file_count (g_super st1) = wrap32 (file_count (g_super st) + 1)
       /\ find_file_by_name (g_files st1) path = -1
       /\ fst (my_getattr st1 path) = - ENOENT
       /\ (forall env' mode' fi' j,
             (j < MAX_FILES)%nat -> is_used (g_files st1 !!! j) = false ->
             sync_succeeds env' ->
             exists k2 st2,
               my_create env' st1 path mode' fi'
               = Done (0, st2, {| flags := flags fi'; fh := Z.of_nat k2 |})
               /\ k2 <> k
               /\ (k2 < MAX_FILES)%nat
               /\ is_used (g_files st2 !!! k2) = true
               /\ name (g_files st2 !!! k2) = name (g_files st1 !!! k)
               /\ g_files st2 !!! k = g_files st1 !!! k
               /\ file_count (g_super st2)
                  = wrap32 (file_count (g_super st1) + 1)).
Proof.
  intros Hlen Hterm Hlong (j0 & Hj0 & Hfree0) Hsync.
  pose proof (long_name_matches_nothing _ _ Hterm Hlong) as Hno.
  assert (E : find_file_by_name (g_files st) path = -1).
  { apply find_loop_none. intros j Hj. apply Hno. lia. }
  split; [exact E|].
  destruct (my_create_cases env st path mode fi)
    as [(k' & _ & E' & _)|[(_ & Hfull & _)
       |(k & Hk & _ & _ & _ & Hu & Hbelow & Hret)]].
  { rewrite E in E'. lia. }
  { rewrite Hfull in Hfree0 by assumption. discriminate Hfree0. }
  commit_succeeds in Hret by Hsync as d1 ?.
  rewrite set_fh_index in Hret by assumption.
  eexists k, _. split; [exact Hret|]. cbn [g_files g_super].
  set (files1 := <[k := new_entry (skip_slash path) mode (now env)]>
                   (g_files st)).
  assert (Enew : files1 !!! k = new_entry (skip_slash path) mode (now env))
    by (apply lookup_assign_eq; assumption).
  assert (Hother : forall j, j <> k -> files1 !!! j = g_files st !!! j)
    by (intros j Hj; apply lookup_assign_ne; congruence).
  assert (Hlen1 : length files1 = MAX_FILES).
  { unfold files1. rewrite length_insert. exact Hlen. }
  assert (Hterm1 : names_terminated files1).
  { intros j Hj Huj. destruct (decide (j = k)) as [->|Hne].
    - rewrite Enew. apply stored_name_terminated.
    - rewrite Hother in * by assumption. apply Hterm; assumption. }
  pose proof (long_name_matches_nothing _ _ Hterm1 Hlong) as Hno1.
  assert (E1 : find_file_by_name files1 path = -1).
  { apply find_loop_none. intros j Hj. apply Hno1. lia. }
  split; [assumption|]. split; [assumption|]. split; [assumption|].
  split; [rewrite Enew; reflexivity|].
  split.
  { rewrite Enew. cbn [new_entry name]. rewrite stored_name_eq.
    change (NAME_MAX_LEN - 1)%nat with 31%nat.
    unfold NAME_MAX_LEN in Hlong.
    replace (31 - length (c_str (skip_slash path)))%nat with 0%nat by lia.
    reflexivity. }
  split; [exact Hother|].
  split; [reflexivity|].
  split; [exact E1|].
  split.
  { unfold my_getattr.
    destruct (Z.eqb_spec (strcmp path (chars "/")) 0) as [Hroot|_].
    - apply strcmp_root in Hroot. rewrite Hroot in Hlong.
      unfold NAME_MAX_LEN in Hlong. cbn [length] in Hlong. lia.
    - cbv zeta. cbn [g_files]. fold files1. rewrite E1. reflexivity. }
  intros env' mode' fi' j Hj Hfree Hsync'.
  match goal with
  | |- exists k2 st2, my_create _ ?s _ _ _ = _ /\ _ => set (st1 := s)
  end.
  destruct (my_create_cases env' st1 path mode' fi')
    as [(k' & _ & E' & _)|[(_ & Hfull & _)
       |(k' & Hk' & _ & _ & _ & Hu' & _ & Hret')]].
  - unfold st1 in E'. cbn [g_files] in E'. fold files1 in E'.
    rewrite E1 in E'. lia.
  - rewrite Hfull in Hfree by assumption. discriminate Hfree.
  - commit_succeeds in Hret' by Hsync' as d2 ?.
    unfold st1 in Hu'. cbn [g_files] in Hu'. fold files1 in Hu'.
    assert (Hne : k' <> k).
    { intros ->. rewrite Enew in Hu'. discriminate Hu'. }
    rewrite set_fh_index in Hret' by assumption.
    eexists k', _. split; [exact Hret'|].
    unfold st1. cbn [g_files g_super]. fold files1.
    split; [assumption|]. split; [assumption|].
    rewrite lookup_assign_eq by assumption.
    rewrite lookup_assign_ne by assumption.
    split; [reflexivity|].
    split; [rewrite Enew; reflexivity|].
    split; reflexivity.
Qed.

Lemma names_terminated_check files :
  forallb (fun i => implb (is_used (files !!! i))
                          (Nat.ltb (length (c_str (name (files !!! i))))
                                   NAME_MAX_LEN))
          (seq 0 MAX_FILES) = true ->
  names_terminated files.
Proof.
  intros H i Hi Hu. rewrite forallb_forall in H.
  specialize (H i). rewrite Hu in H. cbn [implb] in H.
  apply Nat.ltb_lt, H, in_seq. lia.
Qed.

Lemma long_name_not_found_witness :
  exists k st1,
    my_create (env_ok 1) fresh_state (chars long_path) mode_0644 fi_plain
    = Done (0, st1, {| flags := 0; fh := Z.of_nat k |})
    /\ find_file_by_name (g_files st1) (chars long_path) = -1
    /\ exists k2 st2,
         my_create (env_ok 1) st1 (chars long_path) mode_0644 fi_plain
         = Done (0, st2, {| flags := 0; fh := Z.of_nat k2 |})
         /\ k2 <> k.
Proof.
  destruct (long_name_not_found (env_ok 1) fresh_state (chars long_path)
              mode_0644 fi_plain)
    as (_ & k & st1 & E1 & _ & _ & _ & _ & _ & Hother & _ & Efind & _ & Hagain).
  - vm_compute. reflexivity.
  - apply names_terminated_check. vm_compute. reflexivity.
  - vm_compute. lia.
  - exists 0%nat. split; [unfold MAX_FILES; lia|vm_compute; reflexivity].
  - split; reflexivity.
  - exists k, st1. split; [exact E1|]. split; [exact Efind|].
    destruct (decide (k = 1%nat)) as [Ek|Ek].
    + destruct (Hagain (env_ok 1) mode_0644 fi_plain 0%nat)
        as (k2 & st2 & E2 & Hne & _).
      * unfold MAX_FILES. lia.
      * rewrite Hother by lia. vm_compute. reflexivity.
      * split; reflexivity.
      * exists k2, st2. split; [exact E2|exact Hne].
    + destruct (Hagain (env_ok 1) mode_0644 fi_plain 1%nat)
        as (k2 & st2 & E2 & Hne & _).
      * unfold MAX_FILES. lia.
      * rewrite Hother by lia. vm_compute. reflexivity.
      * split; reflexivity.
      * exists k2, st2. split; [exact E2|exact Hne].
Defined.

End CreateTwice.

(** ** The [perms] field is write-only (C10) *)

Section Perms.

Lemma same_but_perms_refl e : same_but_perms e e.
Proof. repeat split. Qed.

Lemma perms_blind_refl st : perms_blind st st.
Proof. repeat split. Qed.

Lemma is_used_blind e1 e2 : same_but_perms e1 e2 -> is_used e1 = is_used e2.
Proof. intros (Hu & _). unfold is_used. rewrite Hu. reflexivity. Qed.

Lemma name_matches_blind e1 e2 nm :
  same_but_perms e1 e2 -> name_matches e1 nm = name_matches e2 nm.
Proof.
  intros H. unfold name_matches. rewrite (is_used_blind _ _ H).
  destruct H as (_ & -> & _). reflexivity.
Qed.

(** Two tables that agree up to [perms], entry by entry. *)
Section Tables.

Variables files1 files2 : list FileEntry.
Hypothesis Hlen : length files1 = length files2.
Hypothesis Hsame : forall i, same_but_perms (files1 !!! i) (files2 !!! i).

Lemma find_loop_blind nm n : forall i,
  find_loop files1 nm i n = find_loop files2 nm i n.
Proof.
  induction n as [|n IH]; intros i; cbn [find_loop]; [reflexivity|].
  rewrite (name_matches_blind _ _ nm (Hsame i)), IH. reflexivity.
Qed.

Lemma find_file_by_name_blind path :
  find_file_by_name files1 path = find_file_by_name files2 path.
Proof. apply find_loop_blind. Qed.

Lemma alloc_loop_blind n : forall i,
  alloc_loop files1 i n = alloc_loop files2 i n.
Proof.
  induction n as [|n IH]; intros i; cbn [alloc_loop]; [reflexivity|].
  rewrite (is_used_blind _ _ (Hsame i)), IH. reflexivity.
Qed.

Lemma alloc_file_slot_blind : alloc_file_slot files1 = alloc_file_slot files2.
Proof. apply alloc_loop_blind. Qed.

Lemma recompute_step_blind i last :
  recompute_step files1 i last = recompute_step files2 i last.
Proof.
  unfold recompute_step. cbv zeta.
  rewrite (is_used_blind _ _ (Hsame i)).
  destruct (Hsame i) as (_ & _ & _ & -> & _). reflexivity.
Qed.

Lemma recompute_loop_blind n : forall i last,
  recompute_loop files1 i n last = recompute_loop files2 i n last.
Proof.
  induction n as [|n IH]; intros i last; cbn [recompute_loop]; [reflexivity|].
  rewrite recompute_step_blind, IH. reflexivity.
Qed.

Lemma fs_recompute_last_alloc_blind s :
  fs_recompute_last_alloc s files1 = fs_recompute_last_alloc s files2.
Proof.
  unfold fs_recompute_last_alloc. rewrite recompute_loop_blind. reflexivity.
Qed.

Lemma names_terminated_blind :
  names_terminated files1 -> names_terminated files2.
Proof.
  intros Hterm i Hi Hu.
  rewrite <- (is_used_blind _ _ (Hsame i)) in Hu.
  destruct (Hsame i) as (_ & <- & _). apply Hterm; assumption.
Qed.

Lemma listed_names_blind (l : list nat) :
  map (fun k => Some (c_str (name (files1 !!! k))))
      (List.filter (fun k => is_used (files1 !!! k)) l)
  = map (fun k => Some (c_str (name (files2 !!! k))))
        (List.filter (fun k => is_used (files2 !!! k)) l).
Proof.
  induction l as [|k l IH]; cbn [List.filter]; [reflexivity|].
  rewrite (is_used_blind _ _ (Hsame k)).
  destruct (is_used (files2 !!! k)); cbn [map]; rewrite IH; [|reflexivity].
  destruct (Hsame k) as (_ & -> & _). reflexivity.
Qed.

(** The listing runs inside the name fields when these hold a NUL; the
    fields after a name, [perms] among them, are then not read. *)
Lemma readdir_loop_blind :
  names_terminated files1 ->
  readdir_loop files1 0 MAX_FILES = readdir_loop files2 0 MAX_FILES.
Proof.
  intros Hterm.
  rewrite (readdir_loop_terminated files1 Hterm MAX_FILES 0 (Nat.le_refl _)).
  rewrite (readdir_loop_terminated files2 (names_terminated_blind Hterm)
             MAX_FILES 0 (Nat.le_refl _)).
  apply listed_names_blind.
Qed.

Lemma assign_blind k e1 e2 :
  same_but_perms e1 e2 ->
  forall i, same_but_perms (<[k := e1]> files1 !!! i) (<[k := e2]> files2 !!! i).
Proof.
  intros He i. rewrite !list_lookup_total_insert, <- Hlen.
  destruct (decide (k = i /\ (k < length files1)%nat)); [exact He|apply Hsame].
Qed.

End Tables.

Lemma outcome_rel_bind {A B : Type} (P : A -> A -> Prop) (R : B -> B -> Prop)
    (c1 c2 : outcome A) (k1 k2 : A -> outcome B) :
  outcome_rel P c1 c2 ->
  (forall a b, P a b -> outcome_rel R (k1 a) (k2 b)) ->
  outcome_rel R (bind c1 k1) (bind c2 k2).
Proof.
  intros Hc Hk. destruct c1, c2; cbn [bind outcome_rel] in *;
    try contradiction; [apply Hk; assumption|assumption].
Qed.

Lemma set_size_blind e1 e2 sz :
  same_but_perms e1 e2 -> same_but_perms (set_size e1 sz) (set_size e2 sz).
Proof. intros (? & ? & ? & ? & ?). repeat split; assumption. Qed.

Lemma set_mtime_blind e1 e2 t :
  same_but_perms e1 e2 -> same_but_perms (set_mtime e1 t) (set_mtime e2 t).
Proof. intros (? & ? & ? & ? & ?). repeat split; assumption. Qed.

Lemma new_entry_blind f mode1 mode2 t :
  same_but_perms (new_entry f mode1 t) (new_entry f mode2 t).
Proof. repeat split. Qed.

Lemma commit_blind env st1 st2 s files1 files2 :
  (forall a, DATA_OFFSET <= a -> g_fs_file st1 a = g_fs_file st2 a) ->
  length files1 = length files2 ->
  (forall i, same_but_perms (files1 !!! i) (files2 !!! i)) ->
  outcome_rel perms_blind (commit env st1 s files1) (commit env st2 s files2).
Proof.
  intros Hd Hlen Hsame. unfold commit.
  rewrite (fs_recompute_last_alloc_blind files1 files2 Hsame).
  destruct (fs_sync_metadata_spec env (fs_recompute_last_alloc s files2)
              files1 (g_fs_file st1)) as [(m1 & E1 & H1)|(d1 & E1 & Hs1 & Hd1)];
    destruct (fs_sync_metadata_spec env (fs_recompute_last_alloc s files2)
                files2 (g_fs_file st2)) as [(m2 & E2 & H2)|(d2 & E2 & Hs2 & Hd2)].
  - revert E1 E2. unfold fs_sync_metadata.
    destruct (super_ok env); cbn [negb]; [|congruence].
    destruct (table_ok env); cbn [negb]; [discriminate|congruence].
  - exfalso. destruct Hs2 as [? ?]. destruct H1; congruence.
  - exfalso. destruct Hs1 as [? ?]. destruct H2; congruence.
  - rewrite E1, E2. cbn [bind outcome_rel].
    repeat split; cbn [g_super g_files g_fs_file]; try assumption; try apply Hsame.
    intros a Ha. rewrite Hd1, Hd2 by assumption. apply Hd. assumption.
Qed.

Lemma bad_handle_blind st1 st2 idx :
  perms_blind st1 st2 -> bad_handle st1 idx = bad_handle st2 idx.
Proof.
  intros (_ & _ & Hsame & _). unfold bad_handle.
  rewrite (is_used_blind _ _ (Hsame (Z.to_nat idx))). reflexivity.
Qed.

Lemma read_bytes_blind (d1 d2 : disk) off n :
  DATA_OFFSET <= off ->
  (forall a, DATA_OFFSET <= a -> d1 a = d2 a) ->
  read_bytes d1 off n = read_bytes d2 off n.
Proof.
  intros Hoff Hd. unfold read_bytes. apply map_ext. intros k. apply Hd. lia.
Qed.

Lemma write_bytes_blind (d1 d2 : disk) off bs :
  (forall a, DATA_OFFSET <= a -> d1 a = d2 a) ->
  forall a, DATA_OFFSET <= a -> write_bytes d1 off bs a = write_bytes d2 off bs a.
Proof.
  intros Hd a Ha. unfold write_bytes.
  destruct ((off <=? a) && (a <? off + Z.of_nat (length bs))); [reflexivity|].
  apply Hd. assumption.
Qed.

Lemma sizes_ok_spec st i :
  sizes_ok st = true -> (i < MAX_FILES)%nat ->
  is_used (g_files st !!! i) = true ->
  size (g_files st !!! i) <= FILE_REGION_SIZE.
Proof.
  unfold sizes_ok. intros H Hi Hu. rewrite forallb_forall in H.
  specialize (H i). rewrite Hu in H. cbn [implb] in H.
  apply Z.leb_le, H, in_seq. lia.
Qed.

Section Callbacks.

Variables st1 st2 : fs_state.
Hypothesis Hblind : perms_blind st1 st2.

Lemma result_blind_same r : result_blind (r, st1) (r, st2).
Proof. split; [reflexivity|exact Hblind]. Qed.

Lemma handle_result_blind_same r fi :
  handle_result_blind (r, st1, fi) (r, st2, fi).
Proof. split; [reflexivity|]. split; [reflexivity|exact Hblind]. Qed.

Lemma my_getattr_blind path : my_getattr st1 path = my_getattr st2 path.
Proof.
  destruct Hblind as (_ & _ & Hsame & _). unfold my_getattr. cbv zeta.
  rewrite (find_file_by_name_blind _ _ Hsame).
  destruct (Hsame (Z.to_nat (find_file_by_name (g_files st2) path)))
    as (_ & _ & _ & -> & ->).
  reflexivity.
Qed.

Lemma my_readdir_blind path :
  names_terminated (g_files st1) ->
  my_readdir st1 path = my_readdir st2 path.
Proof.
  intros Hterm. destruct Hblind as (_ & _ & Hsame & _). unfold my_readdir.
  rewrite (readdir_loop_blind _ _ Hsame Hterm). reflexivity.
Qed.

Lemma my_create_blind env path mode1 mode2 fi :
  outcome_rel handle_result_blind
    (my_create env st1 path mode1 fi) (my_create env st2 path mode2 fi).
Proof.
  pose proof Hblind as (Hs & Hlen & Hsame & Hd).
  unfold my_create. cbv zeta.
  rewrite (find_file_by_name_blind _ _ Hsame), (alloc_file_slot_blind _ _ Hsame), Hs.
  destruct (find_file_by_name (g_files st2) path >=? 0).
  { apply handle_result_blind_same. }
  destruct (alloc_file_slot (g_files st2) <? 0).
  { apply handle_result_blind_same. }
  eapply outcome_rel_bind.
  - apply commit_blind; [assumption|rewrite !length_insert; assumption|].
    apply assign_blind; [assumption..|]. apply new_entry_blind.
  - intros a b Hab. cbn [outcome_rel]. repeat split; apply Hab.
Qed.

Lemma my_open_blind env path fi :
  outcome_rel handle_result_blind
    (my_open env st1 path fi) (my_open env st2 path fi).
Proof.
  pose proof Hblind as (Hs & Hlen & Hsame & Hd).
  unfold my_open. cbv zeta.
  rewrite (find_file_by_name_blind _ _ Hsame), (alloc_file_slot_blind _ _ Hsame), Hs.
  destruct (find_file_by_name (g_files st2) path <? 0).
  - destruct (Z.land (flags fi) O_CREAT =? 0).
    { apply handle_result_blind_same. }
    destruct (alloc_file_slot (g_files st2) <? 0).
    { apply handle_result_blind_same. }
    eapply outcome_rel_bind.
    + apply commit_blind; [assumption|rewrite !length_insert; assumption|].
      apply assign_blind; [assumption..|]. apply new_entry_blind.
    + intros a b Hab. cbn [outcome_rel]. repeat split; apply Hab.
  - destruct (Z.land (flags fi) O_TRUNC =? 0); cbn [negb].
    { apply handle_result_blind_same. }
    eapply outcome_rel_bind.
    + apply commit_blind; [assumption|rewrite !length_insert; assumption|].
      apply assign_blind; [assumption..|].
      apply set_mtime_blind, set_size_blind, Hsame.
    + intros a b Hab. cbn [outcome_rel]. repeat split; apply Hab.
Qed.

Lemma my_unlink_blind env path :
  outcome_rel result_blind (my_unlink env st1 path) (my_unlink env st2 path).
Proof.
  pose proof Hblind as (Hs & Hlen & Hsame & Hd).
  unfold my_unlink. cbv zeta.
  rewrite (find_file_by_name_blind _ _ Hsame), Hs.
  destruct (find_file_by_name (g_files st2) path <? 0).
  { apply result_blind_same. }
  eapply outcome_rel_bind.
  - apply commit_blind; [assumption|rewrite !length_insert; assumption|].
    apply assign_blind; [assumption..|]. apply same_but_perms_refl.
  - intros a b Hab. cbn [outcome_rel]. split; [reflexivity|exact Hab].
Qed.

Lemma my_truncate_blind env path sz :
  outcome_rel result_blind
    (my_truncate env st1 path sz) (my_truncate env st2 path sz).
Proof.
  pose proof Hblind as (Hs & Hlen & Hsame & Hd).
  unfold my_truncate. cbv zeta.
  rewrite (find_file_by_name_blind _ _ Hsame), Hs.
  destruct (find_file_by_name (g_files st2) path <? 0).
  { apply result_blind_same. }
  destruct (wrap64 sz >? FILE_REGION_SIZE).
  { apply result_blind_same. }
  eapply outcome_rel_bind.
  - apply commit_blind; [assumption|rewrite !length_insert; assumption|].
    apply assign_blind; [assumption..|].
    apply set_mtime_blind, set_size_blind, Hsame.
  - intros a b Hab. cbn [outcome_rel]. split; [reflexivity|exact Hab].
Qed.

Lemma my_write_blind env buf offset fi :
  outcome_rel result_blind
    (my_write env st1 buf offset fi) (my_write env st2 buf offset fi).
Proof.
  pose proof Hblind as (Hs & Hlen & Hsame & Hd).
  unfold my_write. cbv zeta.
  rewrite (bad_handle_blind _ _ _ Hblind), Hs.
  destruct (bad_handle st2 (to_int (fh fi))).
  { apply result_blind_same. }
  destruct (wrap64 (offset + Z.of_nat (length buf)) >? FILE_REGION_SIZE).
  { apply result_blind_same. }
  destruct (seek_ok env); cbn [negb].
  2: { apply result_blind_same. }
  destruct (transferred env (Z.of_nat (length buf)) =? Z.of_nat (length buf));
    cbn [negb].
  2: { cbn [outcome_rel]. split; [reflexivity|].
       repeat split; cbn [g_super g_files g_fs_file]; try assumption;
         try apply Hsame.
       apply write_bytes_blind. assumption. }
  eapply outcome_rel_bind.
  - apply commit_blind.
    + cbn [g_fs_file]. apply write_bytes_blind. assumption.
    + rewrite !length_insert. assumption.
    + apply assign_blind; [assumption..|].
      apply set_mtime_blind.
      destruct (Hsame (Z.to_nat (to_int (fh fi)))) as (_ & _ & _ & Esz & _).
      rewrite Esz.
      destruct (wrap32 (offset + Z.of_nat (length buf))
                >? size (g_files st2 !!! Z.to_nat (to_int (fh fi))));
        [apply set_size_blind|]; apply Hsame.
  - intros a b Hab. cbn [outcome_rel]. split; [reflexivity|exact Hab].
Qed.

Lemma my_read_blind env sz offset fi :
  fst (my_read env st1 sz offset fi) = fst (my_read env st2 sz offset fi)
  /\ (0 <= offset -> sizes_ok st1 = true ->
      my_read env st1 sz offset fi = my_read env st2 sz offset fi).
Proof.
  pose proof Hblind as (Hs & Hlen & Hsame & Hd).
  unfold my_read. cbv zeta.
  rewrite (bad_handle_blind _ _ _ Hblind).
  destruct (Hsame (Z.to_nat (to_int (fh fi)))) as (_ & _ & _ & Esz & _).
  destruct (bad_handle st2 (to_int (fh fi))) eqn:Hbad; [tauto|].
  rewrite <- Esz.
  destruct (Z.geb_spec offset (size (g_files st1 !!! Z.to_nat (to_int (fh fi)))))
    as [|Hlt]; [tauto|].
  destruct (seek_ok env); cbn [negb]; [|tauto].
  split; [reflexivity|].
  intros Hoff Hsizes. f_equal.
  apply read_bytes_blind; [|assumption].
  (* the handle is a used slot, so the position lies in its region *)
  unfold bad_handle in Hbad.
  apply orb_false_iff in Hbad as [Hbad Hu].
  apply orb_false_iff in Hbad as [Hlo Hhi].
  apply negb_false_iff in Hu.
  rewrite <- (is_used_blind _ _ (Hsame (Z.to_nat (to_int (fh fi))))) in Hu.
  assert (Hr : 0 <= to_int (fh fi) < Z.of_nat MAX_FILES).
  { destruct (Z.ltb_spec (to_int (fh fi)) 0); [discriminate|].
    destruct (Z.geb_spec (to_int (fh fi)) (Z.of_nat MAX_FILES)); [discriminate|].
    lia. }
  pose proof (sizes_ok_spec st1 (Z.to_nat (to_int (fh fi))) Hsizes
                ltac:(unfold MAX_FILES in *; lia) Hu) as Hcap.
  rewrite region_start_slot_base by assumption.
  pose proof (slot_base_range _ Hr) as [Hbase Htop].
  rewrite wrap32_small; [lia|].
  destruct layout_values as (Ed & Ef & _). rewrite Ed in Hbase.
  unfold FS_SIZE in Htop. lia.
Qed.

End Callbacks.

(** C10: for a path other than the root that [find_file_by_name] resolves,
    [my_getattr] reports mode [S_IFREG | 0644] and link count 1, whatever
    the entry's [perms]; and no callback reads [perms] back: on two states
    that differ in [perms] fields only (and in the metadata area of the
    backing file, which mirrors them), every callback returns the same
    value, attributes, listing, handle and bytes, and leaves two states that
    again differ in [perms] fields only, also when the two calls of
    [my_create] are given different modes.  The listing of [my_readdir] is
    compared on tables whose used names are NUL-terminated, as the struct
    declares them and as format and every callback leave them: [filler]
    reads each name as a C string, which then ends inside the name field,
    before the fields that follow it.  The bytes of [my_read] are compared
    for offsets that are not negative and sizes within the slot capacity,
    where the read stays in the data region. *)
Theorem perms_never_read_back :
  (forall st path,
     strcmp path (chars "/") <> 0 ->
     0 <= find_file_by_name (g_files st) path ->
     fst (my_getattr st path) = 0
     /\ st_mode (snd (my_getattr st path)) = Z.lor S_IFREG mode_0644
     /\ st_nlink (snd (my_getattr st path)) = 1)
  /\ (forall st1 st2,
        perms_blind st1 st2 ->
        (forall path, my_getattr st1 path = my_getattr st2 path)
        /\ (forall path,
              names_terminated (g_files st1) ->
              my_readdir st1 path = my_readdir st2 path)
        /\ (forall env path fi,
              outcome_rel handle_result_blind
                (my_open env st1 path fi) (my_open env st2 path fi))
        /\ (forall env sz offset fi,
              fst (my_read env st1 sz offset fi)
              = fst (my_read env st2 sz offset fi)
              /\ (0 <= offset -> sizes_ok st1 = true ->
                  my_read env st1 sz offset fi = my_read env st2 sz offset fi))
        /\ (forall env buf offset fi,
              outcome_rel result_blind
                (my_write env st1 buf offset fi) (my_write env st2 buf offset fi))
        /\ (forall env path mode1 mode2 fi,
              outcome_rel handle_result_blind
                (my_create env st1 path mode1 fi)
                (my_create env st2 path mode2 fi))
        /\ (forall env path,
              outcome_rel result_blind
                (my_unlink env st1 path) (my_unlink env st2 path))
        /\ (forall env path sz,
              outcome_rel result_blind
                (my_truncate env st1 path sz) (my_truncate env st2 path sz))
        /\ (forall fi, my_release st1 fi = my_release st2 fi)).
Proof.
   split.
  - intros st path Hroot Hfound. unfold my_getattr. cbv zeta.
    destruct (Z.eqb_spec (strcmp path (chars "/")) 0); [contradiction|].
    destruct (Z.ltb_spec (find_file_by_name (g_files st) path) 0); [lia|].
    repeat split.
  - intros st1 st2 Hblind.
    split; [apply my_getattr_blind; assumption|].
    split; [intros; apply my_readdir_blind; assumption|].
    split; [intros; apply my_open_blind; assumption|].
    split; [intros; apply my_read_blind; assumption|].
    split; [intros; apply my_write_blind; assumption|].
    split; [intros; apply my_create_blind; assumption|].
    split; [intros; apply my_unlink_blind; assumption|].
    split; [intros; apply my_truncate_blind; assumption|].
    reflexivity.
Qed.

Lemma perms_never_read_back_witness :
  st_mode (snd (my_getattr ten_byte_file (chars "/a.txt")))
  = Z.lor S_IFREG mode_0644
  /\ outcome_rel handle_result_blind
       (my_create (env_ok 1) fresh_state (chars "/a") mode_0644 fi_plain)
       (my_create (env_ok 1) fresh_state (chars "/a") mode_0755 fi_plain).
Proof.
  destruct perms_never_read_back as (Hattr & Hblind).
  split.
  - destruct (Hattr ten_byte_file (chars "/a.txt")) as (_ & Hm & _).
    + vm_compute. discriminate.
    + vm_compute. discriminate.
    + exact Hm.
  - destruct (Hblind fresh_state fresh_state (perms_blind_refl fresh_state))
      as (_ & _ & _ & _ & _ & Hc & _).
    exact (Hc (env_ok 1) (chars "/a") mode_0644 mode_0755 fi_plain).
Defined.

End Perms.

(** ** The state invariant (C4) *)

Section Invariant.

Implicit Types (st : fs_state) (files : list FileEntry) (e : FileEntry).

(** The checks, read as propositions. *)
Lemma count_ok_iff st :
  count_ok st = true <-> file_count (g_super st) = count_used (g_files st).
Proof. unfold count_ok. apply Z.eqb_eq. Qed.

Lemma last_alloc_ok_iff st :
  last_alloc_ok st = true <-> DATA_OFFSET <= last_alloc (g_super st).
Proof. unfold last_alloc_ok. apply Z.leb_le. Qed.

Lemma sizes_ok_iff st :
  sizes_ok st = true
  <-> forall i, (i < MAX_FILES)%nat -> is_used (g_files st !!! i) = true ->
                size (g_files st !!! i) <= FILE_REGION_SIZE.
Proof.
  unfold sizes_ok. rewrite forallb_forall. split.
  - intros H i Hi Hu. specialize (H i). rewrite Hu in H. cbn [implb] in H.
    apply Z.leb_le, H, in_seq. lia.
  - intros H i Hi. apply in_seq in Hi.
    destruct (is_used (g_files st !!! i)) eqn:Hu; [|reflexivity].
    cbn [implb]. apply Z.leb_le, H; [lia|assumption].
Qed.

Lemma names_unique_iff st :
  names_unique st = true
  <-> forall i j, (i < MAX_FILES)%nat -> (j < MAX_FILES)%nat -> i <> j ->
        is_used (g_files st !!! i) = true ->
        is_used (g_files st !!! j) = true ->
        same_name (g_files st !!! i) (g_files st !!! j) = false.
Proof.
  unfold names_unique. rewrite forallb_forall. split.
  - intros H i j Hi Hj Hne Hui Huj.
    specialize (H i ltac:(apply in_seq; lia)).
    rewrite forallb_forall in H.
    specialize (H j ltac:(apply in_seq; lia)).
    rewrite Hui, Huj in H.
    destruct (Nat.eqb_spec i j); [contradiction|].
    cbn [andb negb implb] in H. apply negb_true_iff. exact H.
  - intros H i Hi. apply in_seq in Hi.
    rewrite forallb_forall. intros j Hj. apply in_seq in Hj.
    destruct (is_used (g_files st !!! i)) eqn:Hui; [|reflexivity].
    destruct (is_used (g_files st !!! j)) eqn:Huj; [|reflexivity].
    destruct (Nat.eqb_spec i j); [reflexivity|].
    cbn [andb negb implb]. apply negb_true_iff.
    apply H; (lia || assumption).
Qed.

Lemma counts_and_sizes_ok_iff st :
  counts_and_sizes_ok st = true
  <-> count_ok st = true /\ last_alloc_ok st = true /\ sizes_ok st = true.
Proof. unfold counts_and_sizes_ok. rewrite !andb_true_iff. tauto. Qed.

Lemma invariant_iff st :
  invariant st = true
  <-> counts_and_sizes_ok st = true /\ names_unique st = true.
Proof. unfold invariant. apply andb_true_iff. Qed.

(** The comparison of stored names is symmetric. *)
Lemma same_name_sym e1 e2 : same_name e1 e2 = same_name e2 e1.
Proof.
  unfold same_name.
  destruct (Z.eqb_spec (strncmp (name e1) (name e2) NAME_MAX_LEN) 0) as [H|H];
    destruct (Z.eqb_spec (strncmp (name e2) (name e1) NAME_MAX_LEN) 0) as [H'|H'];
    try reflexivity; exfalso.
  - apply H'. apply strncmp_zero_iff. symmetry. apply strncmp_zero_iff. exact H.
  - apply H. apply strncmp_zero_iff. symmetry. apply strncmp_zero_iff. exact H'.
Qed.

(** The state a mutating callback commits after assigning [e] to slot [k]:
    the three numeric parts of the invariant hold again when the new
    [file_count] accounts for the change of [used] and [e] is within the
    capacity; names stay unique when [e], if used, has a name that no other
    used entry has. *)
Lemma commit_assign_invariant env st k e s st' :
  table_sized st -> (k < MAX_FILES)%nat ->
  commit env st s (<[k := e]> (g_files st)) = Done st' ->
  file_count s
  = count_used (g_files st) + (if is_used e then 1 else 0)
    - (if is_used (g_files st !!! k) then 1 else 0) ->
  (is_used e = true -> size e <= FILE_REGION_SIZE) ->
  counts_and_sizes_ok st = true ->
  table_sized st'
  /\ counts_and_sizes_ok st' = true
  /\ (names_unique st = true ->
      (is_used e = true ->
       forall j, (j < MAX_FILES)%nat -> j <> k ->
         is_used (g_files st !!! j) = true ->
         same_name e (g_files st !!! j) = false) ->
      names_unique st' = true)
  /\ (names_terminated (g_files st) ->
      (is_used e = true -> nul_terminated (name e)) ->
      names_terminated (g_files st')).
Proof.
  intros Hlen Hk Hc Hcount Hsize Hinv.
  destruct (commit_spec env st s (<[k := e]> (g_files st)))
    as [(msg & Ec & _)|(d' & Ec & _ & _)];
    rewrite Ec in Hc; [discriminate Hc|].
  injection Hc as <-.
  apply counts_and_sizes_ok_iff in Hinv as (_ & _ & Hsz).
  rewrite sizes_ok_iff in Hsz.
  split; [unfold table_sized; cbn [g_files]; rewrite length_insert; exact Hlen|].
  split; [|split].
  - apply counts_and_sizes_ok_iff. split; [|split].
    + apply count_ok_iff. cbn [g_super g_files].
      rewrite count_used_assign by assumption.
      unfold fs_recompute_last_alloc. cbn [file_count]. exact Hcount.
    + apply last_alloc_ok_iff. cbn [g_super]. apply last_alloc_recomputed.
    + apply sizes_ok_iff. cbn [g_files]. intros i Hi.
      rewrite lookup_assign by assumption.
      destruct (decide (k = i)); [exact Hsize|apply Hsz; assumption].
  - intros Huniq Hfresh. rewrite names_unique_iff in Huniq.
    apply names_unique_iff. cbn [g_files]. intros i j Hi Hj Hne.
    rewrite !lookup_assign by assumption.
    destruct (decide (k = i)) as [Eki|Hki]; destruct (decide (k = j)) as [Ekj|Hkj].
    + congruence.
    + intros Hue Huj. apply Hfresh; (assumption || congruence).
    + intros Hui Hue. rewrite same_name_sym.
      apply Hfresh; (assumption || congruence).
    + apply Huniq; assumption.
  - intros Hterm He i Hi. cbn [g_files].
    rewrite lookup_assign by assumption.
    destruct (decide (k = i)); [exact He|apply Hterm; assumption].
Qed.

(** An entry that keeps [used] and [name] keeps the count and the names. *)
Lemma commit_update_invariant env st k e st' :
  table_sized st -> (k < MAX_FILES)%nat ->
  used e = used (g_files st !!! k) -> name e = name (g_files st !!! k) ->
  (is_used e = true -> size e <= FILE_REGION_SIZE) ->
  commit env st (g_super st) (<[k := e]> (g_files st)) = Done st' ->
  counts_and_sizes_ok st = true ->
  table_sized st'
  /\ counts_and_sizes_ok st' = true
  /\ (names_unique st = true -> names_unique st' = true)
  /\ (names_terminated (g_files st) -> names_terminated (g_files st')).
Proof.
  intros Hlen Hk Hused Hname Hsize Hc Hinv.
  assert (Hu : is_used e = is_used (g_files st !!! k)).
  { unfold is_used. rewrite Hused. reflexivity. }
  destruct (commit_assign_invariant env st k e (g_super st) st'
              Hlen Hk Hc) as (H1 & H2 & H3 & H4); try assumption.
  - apply counts_and_sizes_ok_iff in Hinv as (Hcnt & _).
    apply count_ok_iff in Hcnt. rewrite Hu, Hcnt.
    destruct (is_used (g_files st !!! k)); lia.
  - split; [assumption|]. split; [assumption|]. split.
    + intros Huniq. apply H3; [assumption|].
      intros Hue j Hj Hne Huj.
      rewrite names_unique_iff in Huniq.
      unfold same_name. rewrite Hname.
      apply (Huniq k j); try assumption; try congruence.
    + intros Hterm. apply H4; [assumption|].
      intros Hue. rewrite Hname. apply Hterm; congruence.
Qed.

(** The invariant speaks of the superblock and the table only. *)
Lemma invariant_disk st d :
  let st1 := {| g_fs_file := d; g_super := g_super st; g_files := g_files st |} in
  table_sized st1 = table_sized st
  /\ counts_and_sizes_ok st1 = counts_and_sizes_ok st
  /\ names_unique st1 = names_unique st.
Proof. repeat split. Qed.

Lemma preserved_same st P :
  table_sized st -> counts_and_sizes_ok st = true -> preserved st st P.
Proof. intros H1 H2. repeat split; try assumption; tauto. Qed.

Lemma fs_format_invariant env st :
  fs_format env = Done st ->
  table_sized st /\ invariant st = true /\ names_terminated (g_files st).
Proof.
  unfold fs_format.
  destruct (open_ok env), (seek_ok env), (putc_ok env); cbn [negb];
    try discriminate.
  cbv zeta.
  match goal with
  | |- context [fs_sync_metadata ?e ?s ?f ?d] =>
      destruct (fs_sync_metadata e s f d) as [d'|msg]
  end; cbn [bind]; intros H; [|discriminate H].
  injection H as <-.
  split; [reflexivity|]. split; [reflexivity|].
  apply names_terminated_check. reflexivity.
Qed.

Lemma my_create_invariant env st path mode fi r st' fi' :
  table_sized st -> counts_and_sizes_ok st = true ->
  my_create env st path mode fi = Done (r, st', fi') ->
  preserved st st' (length (c_str (skip_slash path)) < NAME_MAX_LEN)%nat.
Proof.
  intros Hlen Hinv Hret.
  destruct (my_create_cases env st path mode fi)
    as [(k & _ & _ & _ & Hret')|[(_ & _ & Hret')|(k & Hk & _ & Hno & _ & Hu & _ & Hret')]];
    rewrite Hret in Hret'.
  - injection Hret' as _ -> _. apply preserved_same; assumption.
  - injection Hret' as _ -> _. apply preserved_same; assumption.
  - match type of Hret' with
    | _ = bind ?c _ => destruct c as [st''|msg] eqn:Ec
    end; cbn [bind] in Hret'; [|discriminate Hret'].
    injection Hret' as _ -> _.
    pose proof Hinv as Hinv'.
    apply counts_and_sizes_ok_iff in Hinv' as (Hcnt & _).
    apply count_ok_iff in Hcnt.
    pose proof (count_used_range (g_files st)) as Hrange.
    destruct (commit_assign_invariant env st k _ _ st'' Hlen Hk Ec)
      as (H1 & H2 & H3 & H4); try assumption.
    + cbn [set_file_count file_count]. rewrite is_used_new_entry, Hu, Hcnt.
      rewrite wrap32_small; [lia|]. unfold MAX_FILES in Hrange. lia.
    + intros _. cbn [new_entry size].
      destruct layout_values as (_ & -> & _). lia.
    + split; [assumption|]. split; [assumption|]. split.
      * intros Huniq Hshort. apply H3; [assumption|].
        intros _ j Hj Hne Huj.
        specialize (Hno j Hj). unfold name_matches in Hno.
        rewrite Huj in Hno. cbn [andb] in Hno.
        apply Z.eqb_neq in Hno. apply Z.eqb_neq. intros Heq. apply Hno.
        apply strncmp_zero_iff. apply strncmp_zero_iff in Heq.
        cbn [new_entry name] in Heq. rewrite c_str_stored_name in Heq.
        unfold NAME_MAX_LEN in *.
        rewrite (take_ge (c_str (skip_slash path)) 31) in Heq by lia.
        rewrite (take_ge (c_str (skip_slash path)) 32) in Heq by lia.
        rewrite (take_ge (c_str (skip_slash path)) 32) by lia.
        symmetry. exact Heq.
      * intros Hterm. apply H4; [assumption|].
        intros _. apply stored_name_terminated.
Qed.

Lemma my_open_invariant env st path fi r st' fi' :
  table_sized st -> counts_and_sizes_ok st = true ->
  my_open env st path fi = Done (r, st', fi') ->
  preserved st st' (length (c_str (skip_slash path)) < NAME_MAX_LEN)%nat.
Proof.
  intros Hlen Hinv Hret.
  destruct (find_file_by_name_spec (g_files st) path)
    as [[E _]|(k & Hk & E & Hm & _)].
  - destruct (Z.eqb_spec (Z.land (flags fi) O_CREAT) 0) as [Hflag|Hflag].
    + revert Hret. unfold my_open. cbv zeta. rewrite E.
      change (-1 <? 0) with true. cbv iota. rewrite Hflag.
      change (0 =? 0) with true. cbv iota.
      intros Hret. injection Hret as _ <- _. apply preserved_same; assumption.
    + rewrite my_open_creat_new in Hret by assumption.
      eapply my_create_invariant; eassumption.
  - revert Hret. unfold my_open. cbv zeta. rewrite E.
    destruct (Z.ltb_spec (Z.of_nat k) 0); [lia|].
    rewrite Nat2Z.id.
    destruct (Z.land (flags fi) O_TRUNC =? 0); cbn [negb].
    + intros Hret. injection Hret as _ <- _. apply preserved_same; assumption.
    + match goal with
      | |- bind ?c _ = _ -> _ => destruct c as [st''|msg] eqn:Ec
      end; cbn [bind]; intros Hret; [|discriminate Hret].
      injection Hret as _ <- _.
      match type of Ec with
      | commit _ _ _ (<[_ := ?e]> _) = _ =>
          destruct (commit_update_invariant env st k e st'' Hlen Hk)
            as (H1 & H2 & H3 & H4); try assumption; try reflexivity
      end.
      * intros _. cbn [set_mtime set_size size].
        destruct layout_values as (_ & -> & _). lia.
      * repeat split; try assumption; tauto.
Qed.

Lemma my_unlink_invariant env st path r st' :
  table_sized st -> counts_and_sizes_ok st = true ->
  my_unlink env st path = Done (r, st') ->
  preserved st st' True.
Proof.
  intros Hlen Hinv Hret.
  destruct (my_unlink_cases env st path)
    as [(_ & _ & Hret')|(k & Hk & _ & Hm & Hret')]; rewrite Hret in Hret'.
  - injection Hret' as _ ->. apply preserved_same; assumption.
  - match type of Hret' with
    | _ = bind ?c _ => destruct c as [st''|msg] eqn:Ec
    end; cbn [bind] in Hret'; [|discriminate Hret'].
    injection Hret' as _ ->.
    apply name_matches_used in Hm.
    pose proof Hinv as Hinv'.
    apply counts_and_sizes_ok_iff in Hinv' as (Hcnt & _).
    apply count_ok_iff in Hcnt.
    pose proof (count_used_range (<[k := zero_entry]> (g_files st))) as Hrange.
    rewrite count_used_assign in Hrange by assumption.
    rewrite is_used_zero_entry, Hm in Hrange.
    destruct (commit_assign_invariant env st k _ _ st'' Hlen Hk Ec)
      as (H1 & H2 & H3 & H4); try assumption.
    + cbn [set_file_count file_count]. rewrite is_used_zero_entry, Hm, Hcnt.
      rewrite wrap32_small; [lia|]. unfold MAX_FILES in Hrange. lia.
    + rewrite is_used_zero_entry. discriminate.
    + split; [assumption|]. split; [assumption|]. split.
      * intros Huniq _. apply H3; [assumption|].
        rewrite is_used_zero_entry. discriminate.
      * intros Hterm. apply H4; [assumption|].
        rewrite is_used_zero_entry. discriminate.
Qed.

Lemma my_truncate_invariant env st path sz r st' :
  table_sized st -> counts_and_sizes_ok st = true ->
  my_truncate env st path sz = Done (r, st') ->
  preserved st st' True.
Proof.
  intros Hlen Hinv. unfold my_truncate. cbv zeta.
  destruct (find_file_by_name_spec (g_files st) path)
    as [[E _]|(k & Hk & E & Hm & _)]; rewrite E.
  - change (-1 <? 0) with true. cbv iota.
    intros Hret. injection Hret as _ <-. apply preserved_same; assumption.
  - destruct (Z.ltb_spec (Z.of_nat k) 0); [lia|].
    rewrite Nat2Z.id.
    destruct (Z.gtb_spec (wrap64 sz) FILE_REGION_SIZE) as [|Hfit].
    + intros Hret. injection Hret as _ <-. apply preserved_same; assumption.
    + match goal with
      | |- bind ?c _ = _ -> _ => destruct c as [st''|msg] eqn:Ec
      end; cbn [bind]; intros Hret; [|discriminate Hret].
      injection Hret as _ <-.
      match type of Ec with
      | commit _ _ _ (<[_ := ?e]> _) = _ =>
          destruct (commit_update_invariant env st k e st'' Hlen Hk)
            as (H1 & H2 & H3 & H4); try assumption; try reflexivity
      end.
      * intros _. cbn [set_mtime set_size size].
        rewrite <- wrap32_wrap64.
        pose proof (wrap64_range sz).
        rewrite wrap32_small; [assumption|].
        destruct layout_values as (_ & Ef & _). rewrite Ef in Hfit. lia.
      * repeat split; try assumption; tauto.
Qed.

Lemma my_write_invariant env st buf offset fi r st' :
  table_sized st -> counts_and_sizes_ok st = true ->
  my_write env st buf offset fi = Done (r, st') ->
  preserved st st' True.
Proof.
  intros Hlen Hinv. unfold my_write. cbv zeta.
  destruct (bad_handle st (to_int (fh fi))) eqn:Hbad.
  { intros Hret. injection Hret as _ <-. apply preserved_same; assumption. }
  destruct (Z.gtb_spec (wrap64 (offset + Z.of_nat (length buf))) FILE_REGION_SIZE)
    as [|Hfit].
  { intros Hret. injection Hret as _ <-. apply preserved_same; assumption. }
  destruct (seek_ok env); cbn [negb].
  2: { intros Hret. injection Hret as _ <-. apply preserved_same; assumption. }
  destruct (transferred env (Z.of_nat (length buf)) =? Z.of_nat (length buf));
    cbn [negb].
  2: { intros Hret. injection Hret as _ <-.
       apply (preserved_same
                {| g_fs_file := _; g_super := g_super st; g_files := g_files st |});
         assumption. }
  unfold bad_handle in Hbad.
  apply orb_false_iff in Hbad as [Hbad Hu].
  apply orb_false_iff in Hbad as [Hlo Hhi].
  apply negb_false_iff in Hu.
  assert (Hk : (Z.to_nat (to_int (fh fi)) < MAX_FILES)%nat).
  { destruct (Z.ltb_spec (to_int (fh fi)) 0); [discriminate|].
    destruct (Z.geb_spec (to_int (fh fi)) (Z.of_nat MAX_FILES)); [discriminate|].
    lia. }
  set (k := Z.to_nat (to_int (fh fi))) in *.
  match goal with
  | |- bind ?c _ = _ -> _ => destruct c as [st''|msg] eqn:Ec
  end; cbn [bind]; intros Hret; [|discriminate Hret].
  injection Hret as _ <-.
  pose proof Hinv as Hinv'.
  apply counts_and_sizes_ok_iff in Hinv' as (_ & _ & Hsz).
  rewrite sizes_ok_iff in Hsz. specialize (Hsz k Hk Hu).
  match type of Ec with
  | commit _ ?st1 _ (<[_ := ?e]> _) = _ =>
      destruct (commit_update_invariant env st1 k e st'' Hlen Hk)
        as (H1 & H2 & H3 & H4); try assumption
  end.
  - cbn [g_files]. destruct (_ >? _); reflexivity.
  - cbn [g_files]. destruct (_ >? _); reflexivity.
  - intros _. cbn [g_files set_mtime size].
    assert (Hend : wrap32 (offset + Z.of_nat (length buf)) <= FILE_REGION_SIZE).
    { rewrite <- wrap32_wrap64.
      pose proof (wrap64_range (offset + Z.of_nat (length buf))).
      rewrite wrap32_small; [assumption|].
      destruct layout_values as (_ & Ef & _). rewrite Ef in Hfit. lia. }
    destruct (_ >? _); cbn [set_size size]; assumption.
  - repeat split; try assumption; tauto.
Qed.

(** X2: every callback that changes state keeps the table size, the three
    numeric parts of the invariant and the termination of names; it keeps
    names unique too, for [my_create] and [my_open] when the bare name is
    shorter than [NAME_MAX_LEN]. *)
Lemma callbacks_preserve_invariant st :
  table_sized st -> counts_and_sizes_ok st = true ->
  (forall env path mode fi r st' fi',
     my_create env st path mode fi = Done (r, st', fi') ->
     preserved st st' (length (c_str (skip_slash path)) < NAME_MAX_LEN)%nat)
  /\ (forall env path fi r st' fi',
        my_open env st path fi = Done (r, st', fi') ->
        preserved st st' (length (c_str (skip_slash path)) < NAME_MAX_LEN)%nat)
  /\ (forall env buf offset fi r st',
        my_write env st buf offset fi = Done (r, st') -> preserved st st' True)
  /\ (forall env path sz r st',
        my_truncate env st path sz = Done (r, st') -> preserved st st' True)
  /\ (forall env path r st',
        my_unlink env st path = Done (r, st') -> preserved st st' True).
Proof.
  intros Hlen Hinv.
  split; [intros; eapply my_create_invariant; eassumption|].
  split; [intros; eapply my_open_invariant; eassumption|].
  split; [intros; eapply my_write_invariant; eassumption|].
  split; [intros; eapply my_truncate_invariant; eassumption|].
  intros; eapply my_unlink_invariant; eassumption.
Qed.

(** C4 fails on the code: on a freshly formatted file system, two
    successive [my_create] calls of one name of [NAME_MAX_LEN] characters
    both succeed, with handles 0 and 1; the invariant holds before the
    second call and not after it, when slots 0 and 1 are both used and hold
    the same stored name. *)
Theorem create_breaks_unique_names :
  let c1 := my_create (env_ok 1) fresh_state (chars long_path) mode_0644 fi_plain in
  let st1 := create_in fresh_state long_path in
  let c2 := my_create (env_ok 1) st1 (chars long_path) mode_0644 fi_plain in
  let st2 := create_in st1 long_path in
  invariant fresh_state = true
  /\ ret_of (fun r => fst (fst r)) c1 = Some 0
  /\ ret_of (fun r => fh (snd r)) c1 = Some 0
  /\ invariant st1 = true
  /\ ret_of (fun r => fst (fst r)) c2 = Some 0
  /\ ret_of (fun r => fh (snd r)) c2 = Some 1
  /\ is_used (g_files st2 !!! 0%nat) = true
  /\ is_used (g_files st2 !!! 1%nat) = true
  /\ name (g_files st2 !!! 0%nat) = name (g_files st2 !!! 1%nat)
  /\ file_count (g_super st2) = 2
  /\ names_unique st2 = false
  /\ invariant st2 = false.
Proof. vm_compute. repeat split. Qed.

End Invariant.

(** ** The scenario of the specification

    Format; create ["a.txt"]; write ten bytes at offset 0; truncate to 5;
    unlink.  The sizes, counts and high-water marks are those the
    specification lists, and the bytes written are still in the slot after
    the unlink. *)

Section Scenario.

Example scenario :
  let st0 := fresh_state in
  let st1 := create_in st0 "/a.txt" in
  let st2 := write_in st1 0 "0123456789" 0 in
  let st3 := truncate_in st2 "/a.txt" 5 in
  let st4 := unlink_in st3 "/a.txt" in
  (file_count (g_super st0) = 0 /\ last_alloc (g_super st0) = META_SIZE)
  /\ (file_count (g_super st1) = 1 /\ size (g_files st1 !!! 0%nat) = 0)
  /\ (size (g_files st2 !!! 0%nat) = 10
      /\ last_alloc (g_super st2) = META_SIZE + 10)
  /\ (size (g_files st3 !!! 0%nat) = 5
      /\ last_alloc (g_super st3) = META_SIZE + 5)
  /\ (file_count (g_super st4) = 0
      /\ g_files st4 !!! 0%nat = zero_entry
      /\ last_alloc (g_super st4) = META_SIZE
      /\ read_bytes (g_fs_file st4) DATA_OFFSET 10 = chars "0123456789").
Proof. vm_compute. repeat split. Qed.

End Scenario.

(** ** The metadata image and its inverse *)

Section Image.

Lemma char_code_range c : 0 <= char_code c < 2 ^ 8.
Proof.
  unfold char_code. pose proof (nat_ascii_bounded c) as H.
  change (2 ^ 8) with 256. lia.
Qed.

Lemma char_code_byte_of z : char_code (byte_of z) = z mod 256.
Proof.
  unfold char_code, byte_of.
  assert (H : 0 <= z mod 256 < 256) by (apply Z.mod_pos_bound; lia).
  unfold nat_of_ascii. rewrite N_ascii_embedding by lia.
  rewrite N_nat_Z, Z2N.id by lia. reflexivity.
Qed.

Lemma le32_value_le32 z : uint32 z -> le32_value (le32 z) = z.
Proof.
  unfold uint32. intros Hz. unfold le32_value, le32. cbn [nth].
  rewrite !char_code_byte_of.
  change (2 ^ 8) with 256. change (2 ^ 16) with (256 * 256).
  change (2 ^ 24) with (256 * 256 * 256).
  change (2 ^ 32) with (256 * 256 * 256 * 256) in Hz.
  rewrite <- !Z.div_div by lia.
  pose proof (Z.div_mod z 256 ltac:(lia)) as H0.
  pose proof (Z.div_mod (z / 256) 256 ltac:(lia)) as H1.
  pose proof (Z.div_mod (z / 256 / 256) 256 ltac:(lia)) as H2.
  assert (H3 : 0 <= z / 256 / 256 / 256 < 256).
  { split.
    - repeat apply Z.div_pos; lia.
    - repeat (apply Z.div_lt_upper_bound; [lia|]). lia. }
  rewrite (Z.mod_small (z / 256 / 256 / 256)) by lia.
  lia.
Qed.

Lemma le32_value_range bs : uint32 (le32_value bs).
Proof.
  unfold uint32, le32_value.
  pose proof (char_code_range (nth 0 bs NUL)).
  pose proof (char_code_range (nth 1 bs NUL)).
  pose proof (char_code_range (nth 2 bs NUL)).
  pose proof (char_code_range (nth 3 bs NUL)).
  change (2 ^ 8) with 256 in *. change (2 ^ 16) with 65536.
  change (2 ^ 24) with 16777216. change (2 ^ 32) with 4294967296. lia.
Qed.

Lemma fixed_id n l : length l = n -> fixed n l = l.
Proof. intros H. unfold fixed. rewrite take_app_length'; [reflexivity|symmetry; exact H]. Qed.

Lemma four_fields a b c d :
  let bs := le32 a ++ le32 b ++ le32 c ++ le32 d in
  field 0 4 bs = le32 a /\ field 4 4 bs = le32 b
  /\ field 8 4 bs = le32 c /\ field 12 4 bs = le32 d.
Proof. repeat split. Qed.

Lemma parse_image_Superblock s :
  super_typed s -> parse_Superblock (image_Superblock s) = s.
Proof.
  intros (Hm & Hv & Hl & Hc). destruct s as [m v l c].
  cbn [magic version last_alloc file_count] in *.
  unfold parse_Superblock, image_Superblock.
  cbn [magic version last_alloc file_count].
  destruct (four_fields m v l c) as (-> & -> & -> & ->).
  rewrite !le32_value_le32 by assumption. reflexivity.
Qed.

Lemma entry_fields b nm a c d e :
  length nm = NAME_MAX_LEN ->
  let bs := b :: nm ++ le32 a ++ le32 c ++ le32 d ++ le32 e in
  field 1 NAME_MAX_LEN bs = nm
  /\ field 33 4 bs = le32 a /\ field 37 4 bs = le32 c
  /\ field 41 4 bs = le32 d /\ field 45 4 bs = le32 e.
Proof.
  intros Hn.
  do 32 (destruct nm as [|? nm]; [discriminate Hn|]).
  destruct nm; [|discriminate Hn].
  repeat split.
Qed.

Lemma parse_image_FileEntry e :
  entry_typed e -> parse_FileEntry (image_FileEntry e) = e.
Proof.
  intros (Hu & Hn & Hs & Hz & Hp & Ht). destruct e as [u nm st sz pm mt].
  cbn [used name start size perms mtime] in *.
  unfold parse_FileEntry, image_FileEntry.
  cbn [used name start size perms mtime nth].
  rewrite fixed_id by assumption.
  destruct (entry_fields (byte_of u) nm st sz pm mt Hn)
    as (-> & -> & -> & -> & ->).
  rewrite !le32_value_le32 by assumption.
  rewrite char_code_byte_of, Z.mod_small by (change (2 ^ 8) with 256 in Hu; lia).
  reflexivity.
Qed.

Lemma field_flat_map {A : Type} (f : A -> list ascii) (c : nat) (l : list A) :
  (forall y, length (f y) = c) ->
  forall i x, l !! i = Some x -> field (c * i) c (flat_map f l) = f x.
Proof.
  intros Hf. induction l as [|y l IH]; intros i x Hi; [discriminate Hi|].
  cbn [flat_map]. destruct i as [|i].
  - injection Hi as ->. unfold field. rewrite Nat.mul_0_r, drop_0.
    rewrite take_app_length'; [reflexivity|symmetry; apply Hf].
  - cbn in Hi. unfold field.
    replace (c * S i)%nat with (c + c * i)%nat by lia.
    rewrite drop_app_add' by (symmetry; apply Hf).
    apply IH. exact Hi.
Qed.

Lemma length_image_FileEntry_nat e : length (image_FileEntry e) = 49%nat.
Proof.
  pose proof (length_image_FileEntry e) as H.
  destruct layout_values as (_ & _ & E). rewrite E in H. lia.
Qed.

Lemma parse_image_table files :
  table_typed files -> parse_table (image_table files) = files.
Proof.
  intros (Hlen & Htyped). unfold parse_table, image_table.
  apply list_eq. intros i.
  rewrite list_lookup_fmap.
  destruct (decide (i < MAX_FILES)%nat) as [Hi|Hi].
  - rewrite lookup_seq_lt by assumption. cbn [fmap option_fmap option_map plus].
    rewrite (field_flat_map (fun i => image_FileEntry (files !!! i)) 49
               (seq 0 MAX_FILES) (fun y => length_image_FileEntry_nat _) i i)
      by (apply lookup_seq_lt; assumption).
    rewrite parse_image_FileEntry by (apply Htyped; assumption).
    symmetry. apply list_lookup_lookup_total_lt. lia.
  - rewrite lookup_seq_ge by lia. cbn.
    symmetry. apply lookup_ge_None. lia.
Qed.

End Image.

(** ** Persisting and loading *)

Section Persist.

Implicit Types (d : disk) (files : list FileEntry) (s : Superblock).

Lemma read_bytes_eq d off bs :
  (forall k, (k < length bs)%nat -> d (off + Z.of_nat k) = nth k bs NUL) ->
  read_bytes d off (Z.of_nat (length bs)) = bs.
Proof.
  intros H. unfold read_bytes. rewrite Nat2Z.id.
  apply list_eq. intros k. rewrite list_lookup_fmap.
  destruct (decide (k < length bs)%nat) as [Hk|Hk].
  - rewrite lookup_seq_lt by assumption. cbn.
    rewrite H by assumption.
    destruct (nth_lookup_or_length bs k NUL) as [E|E]; [|lia].
    symmetry. exact E.
  - rewrite lookup_seq_ge by lia. cbn.
    symmetry. apply lookup_ge_None. lia.
Qed.

Lemma read_bytes_agree (d1 d2 : disk) off n :
  (forall a, off <= a < off + n -> d1 a = d2 a) ->
  read_bytes d1 off n = read_bytes d2 off n.
Proof.
  intros H. unfold read_bytes. apply map_ext_in. intros k Hk.
  apply in_seq in Hk. apply H. lia.
Qed.

(** After [fs_sync_metadata] the start of the backing file is the image of
    the superblock followed by the image of the table. *)
Lemma fs_sync_metadata_content env s files d d' :
  fs_sync_metadata env s files d = Done d' ->
  read_bytes d' 0 sizeof_Superblock = image_Superblock s
  /\ read_bytes d' sizeof_Superblock (sizeof_FileEntry * Z.of_nat MAX_FILES)
     = image_table files.
Proof.
  unfold fs_sync_metadata.
  destruct (super_ok env); cbn [negb]; [|discriminate].
  destruct (table_ok env); cbn [negb]; [|discriminate].
  intros H. injection H as <-.
  pose proof (length_image_Superblock s) as Hs.
  pose proof (length_image_table files) as Ht.
  split.
  - rewrite <- Hs. apply read_bytes_eq. intros k Hk.
    rewrite write_bytes_outside by (left; lia).
    apply write_bytes_inside. exact Hk.
  - rewrite <- Ht. apply read_bytes_eq. intros k Hk.
    apply write_bytes_inside. exact Hk.
Qed.

Lemma mirrored_agree st st' :
  g_super st' = g_super st -> g_files st' = g_files st ->
  (forall a, 0 <= a < DATA_OFFSET -> g_fs_file st' a = g_fs_file st a) ->
  mirrored st -> mirrored st'.
Proof.
  intros Hs Hf Hd (H1 & H2). unfold mirrored. rewrite Hs, Hf.
  destruct layout_values as (Ed & _ & Ee).
  split.
  - rewrite <- H1. f_equal. apply read_bytes_agree. intros a Ha.
    apply Hd. rewrite Ed. change sizeof_Superblock with 16 in Ha. lia.
  - rewrite <- H2. f_equal. apply read_bytes_agree. intros a Ha.
    apply Hd. rewrite Ed. rewrite Ee in Ha.
    change sizeof_Superblock with 16 in Ha. unfold MAX_FILES in Ha. lia.
Qed.

(** X3: what [fs_sync_metadata] writes, [fs_load_metadata] reads back: for a
    superblock and a table whose fields fit their C types, loading the backing
    file after a successful sync returns that superblock and that table. *)
Theorem sync_load_round_trip env b s files d d' :
  super_typed s -> table_typed files ->
  fs_sync_metadata env s files d = Done d' ->
  read_super_ok b = true -> read_table_ok b = true ->
  fs_load_metadata b d' = Done (s, files).
Proof.
  intros Hs Hf Hsync Hr1 Hr2.
  destruct (fs_sync_metadata_content env s files d d' Hsync) as (E1 & E2).
  unfold fs_load_metadata. rewrite Hr1, Hr2. cbn [negb]. cbv zeta.
  rewrite E1, E2, parse_image_Superblock, parse_image_table by assumption.
  reflexivity.
Qed.

Lemma uint32_wrap32 z : uint32 (wrap32 z).
Proof. apply wrap32_range. Qed.

Lemma zero_entry_typed : entry_typed zero_entry.
Proof. unfold entry_typed, uint32. cbn. repeat split; lia. Qed.

Lemma new_entry_typed f mode t : entry_typed (new_entry f mode t).
Proof.
  unfold entry_typed. cbn [new_entry used name start size perms mtime].
  split; [lia|]. split; [apply length_stored_name|].
  split; [unfold uint32; lia|]. split; [unfold uint32; lia|].
  split; apply uint32_wrap32.
Qed.

Lemma set_size_typed e sz : entry_typed e -> uint32 sz -> entry_typed (set_size e sz).
Proof.
  unfold entry_typed. cbn [set_size used name start size perms mtime]. tauto.
Qed.

Lemma set_mtime_typed e t : entry_typed e -> uint32 t -> entry_typed (set_mtime e t).
Proof.
  unfold entry_typed. cbn [set_mtime used name start size perms mtime]. tauto.
Qed.

Lemma table_typed_assign files k e :
  table_typed files -> (k < MAX_FILES)%nat -> entry_typed e ->
  table_typed (<[k := e]> files).
Proof.
  intros (Hlen & Ht) Hk He. split; [rewrite length_insert; exact Hlen|].
  intros i Hi. rewrite lookup_assign by assumption.
  destruct (decide (k = i)); [exact He|apply Ht; exact Hi].
Qed.

Lemma recompute_step_typed files i last :
  uint32 last -> uint32 (recompute_step files i last).
Proof.
  intros Hl. unfold recompute_step. cbv zeta.
  destruct (is_used (files !!! i) && (size (files !!! i) >? 0)); [|exact Hl].
  match goal with |- context [?a >? ?b] => destruct (a >? b) end;
    [apply uint32_wrap32|exact Hl].
Qed.

Lemma recompute_loop_typed files n : forall i last,
  uint32 last -> uint32 (recompute_loop files i n last).
Proof.
  induction n as [|n IH]; intros i last Hl; cbn [recompute_loop]; [exact Hl|].
  apply IH, recompute_step_typed, Hl.
Qed.

(** The mark that [fs_recompute_last_alloc] leaves is the maximum of the
    ends of the used, non-empty slots, and lies within the backing file. *)
Lemma recompute_loop_mark files :
  (forall k, (k < MAX_FILES)%nat -> is_used (files !!! k) = true ->
             size (files !!! k) <= FILE_REGION_SIZE) ->
  recompute_loop files 0 MAX_FILES (wrap32 DATA_OFFSET)
  = high_water_mark used_nonempty files
  /\ DATA_OFFSET <= high_water_mark used_nonempty files <= FS_SIZE.
Proof.
  intros Hsz.
  assert (Hsz' : forall k, (k < MAX_FILES)%nat ->
            used_nonempty (files !!! k) = true ->
            size (files !!! k) <= FILE_REGION_SIZE).
  { intros k Hk Hu. apply Hsz; [exact Hk|].
    unfold used_nonempty in Hu. apply andb_true_iff in Hu. tauto. }
  unfold high_water_mark.
  split.
  - rewrite recompute_loop_max by (assumption || (unfold MAX_FILES; lia)).
    rewrite wrap32_small by (destruct layout_values as (-> & _); lia).
    reflexivity.
  - pose proof (fold_max_spec (slot_end files)
      (List.filter (fun k => used_nonempty (files !!! k)) (seq 0 MAX_FILES))
      DATA_OFFSET) as (Hb & _ & Hat).
    split; [exact Hb|].
    destruct Hat as [->|(k & Hk & ->)].
    + destruct layout_values as (-> & _). unfold FS_SIZE. lia.
    + apply filter_In in Hk as [Hk Hu]. apply in_seq in Hk.
      specialize (Hsz' k ltac:(lia) Hu).
      pose proof (slot_base_range (Z.of_nat k) ltac:(lia)) as [_ Htop].
      unfold slot_end. lia.
Qed.

(** What a committed state looks like. *)
Lemma commit_typed_mirrored env st s files st' :
  uint32 (magic s) -> uint32 (version s) -> uint32 (file_count s) ->
  table_typed files ->
  commit env st s files = Done st' ->
  g_files st' = files
  /\ magic (g_super st') = magic s
  /\ file_count (g_super st') = file_count s
  /\ super_typed (g_super st')
  /\ mirrored st'
  /\ last_alloc (g_super st')
     = recompute_loop (g_files st') 0 MAX_FILES (wrap32 DATA_OFFSET)
  /\ (forall a, DATA_OFFSET <= a -> g_fs_file st' a = g_fs_file st a).
Proof.
  intros Hm Hv Hc Ht. unfold commit.
  destruct (fs_sync_metadata env (fs_recompute_last_alloc s files) files
              (g_fs_file st)) as [d'|msg] eqn:Es; cbn [bind]; [|discriminate].
  intros H. injection H as <-. cbn [g_files g_super g_fs_file].
  assert (Htyped : super_typed (fs_recompute_last_alloc s files)).
  { unfold super_typed, fs_recompute_last_alloc.
    cbn [magic version last_alloc file_count].
    split; [exact Hm|]. split; [exact Hv|]. split; [|exact Hc].
    apply recompute_loop_typed, uint32_wrap32. }
  split; [reflexivity|]. split; [reflexivity|]. split; [reflexivity|].
  split; [exact Htyped|]. split.
  - destruct (fs_sync_metadata_content _ _ _ _ _ Es) as (E1 & E2).
    unfold mirrored. cbn [g_files g_super g_fs_file].
    rewrite E1, E2, parse_image_Superblock, parse_image_table by assumption.
    split; reflexivity.
  - split; [reflexivity|].
    destruct (fs_sync_metadata_spec env (fs_recompute_last_alloc s files) files
                (g_fs_file st)) as [(msg & E & _)|(d'' & E & _ & Hd)];
      rewrite Es in E; [discriminate E|].
    injection E as <-. exact Hd.
Qed.

End Persist.

(** ** Runs *)

(** Name the parts of a commit found in hypothesis [Ec]. *)
Tactic Notation "committed" "by" hyp(Ec) :=
  match type of Ec with
  | commit ?env ?st0 ?s (<[?k := ?e]> _) = _ =>
      right; exists env, st0, s, k, e
  end.

Section Runs.

Implicit Types (st : fs_state).

(** A handle that passes the check of [my_read] and [my_write] is the index
    of a used slot. *)
Lemma good_handle st idx :
  bad_handle st idx = false ->
  0 <= idx < Z.of_nat MAX_FILES
  /\ (Z.to_nat idx < MAX_FILES)%nat
  /\ is_used (g_files st !!! Z.to_nat idx) = true.
Proof.
  unfold bad_handle. intros H.
  apply orb_false_iff in H as [H Hu].
  apply orb_false_iff in H as [Hlo Hhi].
  apply negb_false_iff in Hu.
  destruct (Z.ltb_spec idx 0); [discriminate|].
  destruct (Z.geb_spec idx (Z.of_nat MAX_FILES)); [discriminate|].
  repeat split; try assumption; lia.
Qed.

(** Where an accepted write lands: inside the slot of the handle. *)
Lemma write_position st offset sz idx :
  bad_handle st idx = false ->
  0 <= offset <= OFF_MAX -> 0 <= sz <= OFF_MAX ->
  (wrap64 (offset + sz) >? FILE_REGION_SIZE) = false ->
  offset + sz <= FILE_REGION_SIZE
  /\ wrap32 (region_start idx + offset) = slot_base idx + offset
  /\ DATA_OFFSET <= slot_base idx + offset
  /\ slot_base idx + offset + sz <= FS_SIZE.
Proof.
  intros Hbad Hoff Hsz Hfit.
  destruct (good_handle st idx Hbad) as (Hr & _ & _).
  rewrite wrap64_small in Hfit by (unfold OFF_MAX in *; lia).
  destruct (Z.gtb_spec (offset + sz) FILE_REGION_SIZE); [discriminate|].
  pose proof (slot_base_range idx Hr) as [Hlo Hhi].
  rewrite region_start_slot_base by assumption.
  destruct layout_values as (Ed & Ef & _).
  split; [assumption|]. split.
  - apply wrap32_small. unfold FS_SIZE in Hhi. rewrite Ed in Hlo. lia.
  - lia.
Qed.

(** The two shapes of a step: the metadata is untouched and so is the
    backing file outside the data region; or the step commits the
    assignment of one entry. *)
Lemma step_shape st st' :
  step st st' ->
  (g_super st' = g_super st /\ g_files st' = g_files st
   /\ (forall a, a < DATA_OFFSET \/ FS_SIZE <= a ->
         g_fs_file st' a = g_fs_file st a))
  \/ (exists env st0 s k e,
        magic s = magic (g_super st) /\ version s = version (g_super st)
        /\ (uint32 (file_count (g_super st)) -> uint32 (file_count s))
        /\ (k < MAX_FILES)%nat
        /\ (entry_typed (g_files st !!! k) -> entry_typed e)
        /\ (forall a, FS_SIZE <= a -> g_fs_file st0 a = g_fs_file st a)
        /\ commit env st0 s (<[k := e]> (g_files st)) = Done st').
Proof.
  assert (Hsame : forall st,
    g_super st = g_super st /\ g_files st = g_files st
    /\ (forall a, a < DATA_OFFSET \/ FS_SIZE <= a ->
          g_fs_file st a = g_fs_file st a)) by (intros; repeat split).
  intros Hstep. destruct Hstep as
    [env st path mode fi r st' fi' Hrun
    |env st path fi r st' fi' Hrun
    |env st buf offset fi r st' Hoff Hbuf Hrun
    |env st path sz r st' Hrun
    |env st path r st' Hrun].
  - (* my_create *)
    destruct (my_create_cases env st path mode fi)
      as [(k & _ & _ & _ & Hrun')|[(_ & _ & Hrun')|(k & Hk & _ & _ & _ & _ & _ & Hrun')]];
      rewrite Hrun in Hrun'.
    + injection Hrun' as _ -> _. left. apply Hsame.
    + injection Hrun' as _ -> _. left. apply Hsame.
    + match type of Hrun' with
      | _ = bind ?c _ => destruct c as [st''|msg] eqn:Ec
      end; cbn [bind] in Hrun'; [|discriminate Hrun'].
      injection Hrun' as _ -> _.
      committed by Ec.
      split; [reflexivity|]. split; [reflexivity|].
      split; [intros _; apply uint32_wrap32|]. split; [exact Hk|].
      split; [intros _; apply new_entry_typed|].
      split; [reflexivity|exact Ec].
  - (* my_open *)
    destruct (find_file_by_name_spec (g_files st) path)
      as [[E _]|(k & Hk & E & _)].
    + destruct (Z.eqb_spec (Z.land (flags fi) O_CREAT) 0) as [Hflag|Hflag].
      * revert Hrun. unfold my_open. cbv zeta. rewrite E.
        change (-1 <? 0) with true. cbv iota. rewrite Hflag.
        change (0 =? 0) with true. cbv iota.
        intros Hrun. injection Hrun as _ <- _. left. apply Hsame.
      * rewrite my_open_creat_new in Hrun by assumption.
        destruct (my_create_cases env st path mode_0644 fi)
          as [(k & _ & _ & _ & Hrun')|[(_ & _ & Hrun')|(k & Hk & _ & _ & _ & _ & _ & Hrun')]];
          rewrite Hrun in Hrun'.
        -- injection Hrun' as _ -> _. left. apply Hsame.
        -- injection Hrun' as _ -> _. left. apply Hsame.
        -- match type of Hrun' with
           | _ = bind ?c _ => destruct c as [st''|msg] eqn:Ec
           end; cbn [bind] in Hrun'; [|discriminate Hrun'].
           injection Hrun' as _ -> _.
           committed by Ec.
           split; [reflexivity|]. split; [reflexivity|].
           split; [intros _; apply uint32_wrap32|]. split; [exact Hk|].
           split; [intros _; apply new_entry_typed|].
           split; [reflexivity|exact Ec].
    + revert Hrun. unfold my_open. cbv zeta. rewrite E.
      destruct (Z.ltb_spec (Z.of_nat k) 0); [lia|].
      rewrite Nat2Z.id.
      destruct (Z.land (flags fi) O_TRUNC =? 0); cbn [negb].
      * intros Hrun. injection Hrun as _ <- _. left. apply Hsame.
      * match goal with
        | |- bind ?c _ = _ -> _ => destruct c as [st''|msg] eqn:Ec
        end; cbn [bind]; intros Hrun; [|discriminate Hrun].
        injection Hrun as _ <- _.
        committed by Ec.
        split; [reflexivity|]. split; [reflexivity|].
        split; [tauto|]. split; [exact Hk|].
        split; [|split; [reflexivity|exact Ec]].
        intros He. apply set_mtime_typed; [|apply uint32_wrap32].
        apply set_size_typed; [exact He|unfold uint32; lia].
  - (* my_write *)
    revert Hrun. unfold my_write. cbv zeta.
    destruct (bad_handle st (to_int (fh fi))) eqn:Hbad.
    { intros Hrun. injection Hrun as _ <-. left. apply Hsame. }
    destruct (wrap64 (offset + Z.of_nat (length buf)) >? FILE_REGION_SIZE) eqn:Hfit.
    { intros Hrun. injection Hrun as _ <-. left. apply Hsame. }
    destruct (write_position st offset (Z.of_nat (length buf)) _ Hbad Hoff
                ltac:(lia) Hfit) as (Hsum & Hpos & Hlo & Hhi).
    destruct (good_handle st _ Hbad) as (_ & Hk & _).
    assert (Hdisk : forall a, a < DATA_OFFSET \/ FS_SIZE <= a ->
      write_bytes (g_fs_file st) (wrap32 (region_start (to_int (fh fi)) + offset))
        (take (Z.to_nat (transferred env (Z.of_nat (length buf)))) buf) a
      = g_fs_file st a).
    { intros a Ha. apply write_bytes_outside. rewrite Hpos.
      pose proof (length_take_le buf
        (Z.to_nat (transferred env (Z.of_nat (length buf))))) as Hl.
      destruct (Nat.le_gt_cases (length buf)
        (Z.to_nat (transferred env (Z.of_nat (length buf))))) as [Hge|Hlt].
      - rewrite take_ge by assumption. lia.
      - rewrite length_take. lia. }
    destruct (seek_ok env); cbn [negb].
    2: { intros Hrun. injection Hrun as _ <-. left. apply Hsame. }
    destruct (transferred env (Z.of_nat (length buf)) =? Z.of_nat (length buf));
      cbn [negb].
    2: { intros Hrun. injection Hrun as _ <-. left.
         cbn [g_super g_files g_fs_file]. repeat split. exact Hdisk. }
    match goal with
    | |- bind ?c _ = _ -> _ => destruct c as [st''|msg] eqn:Ec
    end; cbn [bind]; intros Hrun; [|discriminate Hrun].
    injection Hrun as _ <-.
    committed by Ec.
    split; [reflexivity|]. split; [reflexivity|].
    split; [tauto|]. split; [exact Hk|].
    split; [|split; [|exact Ec]].
    + intros He. apply set_mtime_typed; [|apply uint32_wrap32].
      match goal with
      | |- entry_typed (if ?c then _ else _) => destruct c
      end; [|exact He].
      apply set_size_typed; [exact He|apply uint32_wrap32].
    + intros a Ha. cbn [g_fs_file]. apply Hdisk. right. exact Ha.
  - (* my_truncate *)
    revert Hrun. unfold my_truncate. cbv zeta.
    destruct (find_file_by_name_spec (g_files st) path)
      as [[E _]|(k & Hk & E & _)]; rewrite E.
    + change (-1 <? 0) with true. cbv iota.
      intros Hrun. injection Hrun as _ <-. left. apply Hsame.
    + destruct (Z.ltb_spec (Z.of_nat k) 0); [lia|].
      rewrite Nat2Z.id.
      destruct (wrap64 sz >? FILE_REGION_SIZE).
      * intros Hrun. injection Hrun as _ <-. left. apply Hsame.
      * match goal with
        | |- bind ?c _ = _ -> _ => destruct c as [st''|msg] eqn:Ec
        end; cbn [bind]; intros Hrun; [|discriminate Hrun].
        injection Hrun as _ <-.
        committed by Ec.
        split; [reflexivity|]. split; [reflexivity|].
        split; [tauto|]. split; [exact Hk|].
        split; [|split; [reflexivity|exact Ec]].
        intros He. apply set_mtime_typed; [|apply uint32_wrap32].
        apply set_size_typed; [exact He|apply uint32_wrap32].
  - (* my_unlink *)
    destruct (my_unlink_cases env st path)
      as [(_ & _ & Hrun')|(k & Hk & _ & _ & Hrun')]; rewrite Hrun in Hrun'.
    + injection Hrun' as _ ->. left. apply Hsame.
    + match type of Hrun' with
      | _ = bind ?c _ => destruct c as [st''|msg] eqn:Ec
      end; cbn [bind] in Hrun'; [|discriminate Hrun'].
      injection Hrun' as _ ->.
      committed by Ec.
      split; [reflexivity|]. split; [reflexivity|].
      split; [intros _; apply uint32_wrap32|]. split; [exact Hk|].
      split; [intros _; apply zero_entry_typed|].
      split; [reflexivity|exact Ec].
Qed.

Lemma step_preserved st st' :
  step st st' ->
  table_sized st -> counts_and_sizes_ok st = true ->
  table_sized st' /\ counts_and_sizes_ok st' = true
  /\ (names_terminated (g_files st) -> names_terminated (g_files st')).
Proof.
  intros Hstep Hlen Hinv.
  assert (Hp : exists P, preserved st st' P).
  { destruct Hstep.
    - eexists. eapply my_create_invariant; eassumption.
    - eexists. eapply my_open_invariant; eassumption.
    - eexists. eapply my_write_invariant; eassumption.
    - eexists. eapply my_truncate_invariant; eassumption.
    - eexists. eapply my_unlink_invariant; eassumption. }
  destruct Hp as (P & H1 & H2 & _ & H4). repeat split; assumption.
Qed.

Lemma format_super_typed :
  super_typed {| magic := FS_MAGIC; version := FS_VERSION;
                 last_alloc := wrap32 DATA_OFFSET; file_count := 0 |}.
Proof.
  unfold super_typed. cbn [magic version last_alloc file_count].
  split; [unfold uint32, FS_MAGIC; lia|].
  split; [unfold uint32, FS_VERSION; lia|].
  split; [apply uint32_wrap32|unfold uint32; lia].
Qed.

(** The freshly formatted state. *)
Lemma fs_format_done env st :
  fs_format env = Done st ->
  g_super st = {| magic := FS_MAGIC; version := FS_VERSION;
                  last_alloc := wrap32 DATA_OFFSET; file_count := 0 |}
  /\ g_files st = replicate MAX_FILES zero_entry
  /\ mirrored st
  /\ (forall a, DATA_OFFSET <= a -> g_fs_file st a = NUL).
Proof.
  unfold fs_format.
  destruct (open_ok env), (seek_ok env), (putc_ok env); cbn [negb];
    try discriminate.
  cbv zeta.
  match goal with
  | |- context [fs_sync_metadata ?e ?s ?f ?d] =>
      destruct (fs_sync_metadata e s f d) as [d'|msg] eqn:Es
  end; cbn [bind]; intros H; [|discriminate H].
  injection H as <-. cbn [g_super g_files g_fs_file].
  split; [reflexivity|]. split; [reflexivity|]. split.
  - destruct (fs_sync_metadata_content _ _ _ _ _ Es) as (E1 & E2).
    unfold mirrored. cbn [g_super g_files g_fs_file].
    rewrite E1, E2, parse_image_Superblock, parse_image_table.
    + split; reflexivity.
    + split; [reflexivity|]. intros i Hi.
      rewrite lookup_total_replicate_2 by assumption. apply zero_entry_typed.
    + apply format_super_typed.
  - match type of Es with
    | fs_sync_metadata ?e ?s ?f ?d = _ =>
        destruct (fs_sync_metadata_spec e s f d)
          as [(msg & E & _)|(d'' & E & _ & Hd)]
    end; rewrite Es in E; [discriminate E|].
    injection E as <-. exact Hd.
Qed.

(** What holds in every state the program can be in. *)
Lemma reachable_good st :
  reachable st ->
  table_sized st /\ counts_and_sizes_ok st = true
  /\ names_terminated (g_files st)
  /\ super_typed (g_super st) /\ table_typed (g_files st)
  /\ magic (g_super st) = FS_MAGIC
  /\ mirrored st
  /\ last_alloc (g_super st)
     = recompute_loop (g_files st) 0 MAX_FILES (wrap32 DATA_OFFSET)
  /\ (forall a, FS_SIZE <= a -> g_fs_file st a = NUL).
Proof.
  induction 1 as [env st Hfmt|st st' Hreach IH Hstep].
  - destruct (fs_format_invariant env st Hfmt) as (H1 & H2 & H3).
    apply invariant_iff in H2 as (H2 & _).
    destruct (fs_format_done env st Hfmt) as (Es & Ef & Hm & Hd).
    split; [exact H1|]. split; [exact H2|]. split; [exact H3|].
    rewrite Es, Ef.
    split; [apply format_super_typed|].
    split.
    { split; [reflexivity|]. intros i Hi.
      rewrite lookup_total_replicate_2 by assumption. apply zero_entry_typed. }
    split; [reflexivity|]. split; [exact Hm|].
    split; [vm_compute; reflexivity|].
    intros a Ha. apply Hd.
    destruct layout_values as (-> & _). unfold FS_SIZE in Ha. lia.
  - destruct IH as (H1 & H2 & H3 & H4 & H5 & H6 & H7 & H8 & H9).
    destruct (step_preserved st st' Hstep H1 H2) as (P1 & P2 & P3).
    split; [exact P1|]. split; [exact P2|]. split; [exact (P3 H3)|].
    destruct (step_shape st st' Hstep)
      as [(Es & Ef & Hd)
         |(env & st0 & s & k & e & Em & Ev & Hc & Hk & He & Hd0 & Ec)].
    + rewrite Es, Ef.
      split; [exact H4|]. split; [exact H5|]. split; [exact H6|].
      split.
      { apply (mirrored_agree st st'); try assumption.
        intros a Ha. apply Hd. lia. }
      split; [exact H8|].
      intros a Ha. rewrite Hd by (right; exact Ha). apply H9. exact Ha.
    + destruct H4 as (T1 & T2 & T3 & T4).
      assert (Htab : table_typed (<[k := e]> (g_files st))).
      { apply table_typed_assign; [exact H5|exact Hk|].
        apply He, H5. exact Hk. }
      assert (U1 : uint32 (magic s)) by (rewrite Em; exact T1).
      assert (U2 : uint32 (version s)) by (rewrite Ev; exact T2).
      destruct (commit_typed_mirrored env st0 s (<[k := e]> (g_files st)) st'
                  U1 U2 (Hc T4) Htab Ec)
        as (Ef & Em' & _ & Ht & Hmir & Hmark & Hd).
      * split; [exact Ht|]. split.
        { rewrite Ef. exact Htab. }
        split; [rewrite Em', Em; exact H6|].
        split; [exact Hmir|]. split; [exact Hmark|].
        intros a Ha. rewrite Hd, Hd0 by
          (try assumption; destruct layout_values as (-> & _);
           unfold FS_SIZE in Ha; lia).
        apply H9. exact Ha.
Qed.

(** X4: in every state the program can be in ([fs_format], then any callbacks
    on arguments the FUSE layer passes): [file_count] is the number of used
    entries and at most [MAX_FILES], used sizes are within the slot capacity,
    stored names are NUL-terminated, every field fits its C type, the magic
    number is [FS_MAGIC], the metadata area of the backing file is the image
    of the two globals, [last_alloc] is the maximum end of the used non-empty
    slots and lies between [DATA_OFFSET] and [FS_SIZE], and nothing was
    written at or past offset [FS_SIZE]. *)
Theorem reachable_invariant st :
  reachable st ->
  table_sized st
  /\ file_count (g_super st) = count_used (g_files st)
  /\ 0 <= file_count (g_super st) <= Z.of_nat MAX_FILES
  /\ (forall i, (i < MAX_FILES)%nat -> is_used (g_files st !!! i) = true ->
        size (g_files st !!! i) <= FILE_REGION_SIZE)
  /\ names_terminated (g_files st)
  /\ super_typed (g_super st) /\ table_typed (g_files st)
  /\ magic (g_super st) = FS_MAGIC
  /\ mirrored st
  /\ last_alloc (g_super st) = high_water_mark used_nonempty (g_files st)
  /\ DATA_OFFSET <= last_alloc (g_super st) <= FS_SIZE
  /\ (forall a, FS_SIZE <= a -> g_fs_file st a = NUL).
Proof.
  intros Hreach.
  destruct (reachable_good st Hreach)
    as (H1 & H2 & H3 & H4 & H5 & H6 & H7 & H8 & H9).
  apply counts_and_sizes_ok_iff in H2 as (Hc & _ & Hs).
  apply count_ok_iff in Hc. rewrite sizes_ok_iff in Hs.
  destruct (recompute_loop_mark (g_files st) Hs) as (Em & Hr).
  pose proof (count_used_range (g_files st)) as Hrange.
  rewrite <- Hc in Hrange.
  repeat (split; [assumption|]).
  split; [rewrite H8; exact Em|].
  split; [rewrite H8, Em; exact Hr|exact H9].
Qed.

(** X5: restarting: for every state the program can be in, [fs_init] on its
    backing file (still [FS_SIZE] bytes long, the reads succeeding) neither
    formats nor fails, and returns that same state: superblock, table and file
    content. *)
Theorem restart_restores_state st :
  reachable st ->
  fs_init (boot_ok FS_SIZE (g_fs_file st)) = Done st.
Proof.
  intros Hreach.
  destruct (reachable_good st Hreach)
    as (_ & _ & _ & _ & _ & Hmagic & (Hs & Hf) & _).
  unfold fs_init, boot_ok, fs_load_metadata.
  cbn [existing seek_end_ok read_super_ok read_table_ok negb].
  rewrite Z.eqb_refl. cbn [negb bind]. cbv zeta. cbn [fst snd].
  rewrite Hs, Hf, Hmagic, Z.eqb_refl. cbn [negb].
  destruct st. reflexivity.
Qed.

End Runs.

(** ** The layout of the backing file *)

Section Layout.

(** X6: layout macros: the metadata area ends where the data region starts;
    the regions of two different slots lie after the metadata, inside the
    first [FS_SIZE] bytes, and do not overlap. *)
Theorem slots_partition_file i j :
  0 <= i < j -> j < Z.of_nat MAX_FILES ->
  DATA_OFFSET = sizeof_Superblock + sizeof_FileEntry * Z.of_nat MAX_FILES
  /\ DATA_OFFSET <= slot_base i
  /\ slot_base i + FILE_REGION_SIZE <= slot_base j
  /\ slot_base j + FILE_REGION_SIZE <= FS_SIZE
  /\ (forall a, in_slot i a -> ~ in_slot j a).
Proof.
  intros Hij Hj.
  destruct layout_values as (Ed & Ef & _).
  unfold in_slot, slot_base. rewrite Ed, Ef.
  change (Z.of_nat MAX_FILES) with 64 in *. unfold FS_SIZE.
  split; [reflexivity|]. repeat split; lia.
Qed.

Lemma slots_partition_file_witness :
  slot_base 0 + FILE_REGION_SIZE <= slot_base 1
  /\ slot_base 63 + FILE_REGION_SIZE <= FS_SIZE.
Proof.
  split.
  - destruct (slots_partition_file 0 1) as (_ & _ & H & _);
      [lia|change (Z.of_nat MAX_FILES) with 64; lia|exact H].
  - destruct (slots_partition_file 0 63) as (_ & _ & _ & H & _);
      [lia|change (Z.of_nat MAX_FILES) with 64; lia|exact H].
Defined.

End Layout.

(** ** Looking names up *)

Section Lookup.

Lemma name_matches_agree e nm :
  name_matches e nm = true <-> is_used e = true /\ names_agree (name e) nm.
Proof.
  unfold name_matches, names_agree.
  rewrite andb_true_iff, Z.eqb_eq, strncmp_zero_iff. reflexivity.
Qed.

Lemma name_matches_disagree e nm :
  name_matches e nm = false
  <-> (is_used e = true -> ~ names_agree (name e) nm).
Proof.
  rewrite <- not_true_iff_false, name_matches_agree. tauto.
Qed.

(** X7: [find_file_by_name] strips one leading slash and returns the lowest
    index of a used entry whose name equals the rest as a C string, as far as
    its first [NAME_MAX_LEN] bytes; it returns -1 exactly when there is none. *)
Theorem find_file_by_name_first_match files path :
  let nm := skip_slash path in
  -1 <= find_file_by_name files path < Z.of_nat MAX_FILES
  /\ (find_file_by_name files path = -1
      <-> forall k, (k < MAX_FILES)%nat -> is_used (files !!! k) = true ->
            ~ names_agree (name (files !!! k)) nm)
  /\ (forall k, (k < MAX_FILES)%nat ->
        (find_file_by_name files path = Z.of_nat k
         <-> is_used (files !!! k) = true
             /\ names_agree (name (files !!! k)) nm
             /\ forall j, (j < k)%nat -> is_used (files !!! j) = true ->
                  ~ names_agree (name (files !!! j)) nm)).
Proof.
  intros nm. subst nm.
  destruct (find_file_by_name_spec files path)
    as [[E Hno]|(k & Hk & E & Hm & Hfirst)]; rewrite E.
  - split; [lia|]. split.
    + split; [|reflexivity]. intros _ k Hk.
      apply name_matches_disagree, Hno, Hk.
    + intros k Hk. split; [lia|].
      intros (Hu & Ha & _). exfalso.
      specialize (Hno k Hk). apply name_matches_disagree in Hno; tauto.
  - apply name_matches_agree in Hm as [Hu Ha].
    split; [lia|]. split.
    + split; [lia|]. intros Hnone. exfalso. exact (Hnone k Hk Hu Ha).
    + intros k' Hk'. split.
      * intros Ek. assert (k' = k) by lia. subst k'.
        split; [exact Hu|]. split; [exact Ha|].
        intros j Hj. apply name_matches_disagree, Hfirst, Hj.
      * intros (Hu' & Ha' & Hfirst').
        destruct (Nat.lt_trichotomy k k') as [Hlt|[->|Hgt]];
          [|reflexivity|].
        -- exfalso. exact (Hfirst' k Hlt Hu Ha).
        -- exfalso. specialize (Hfirst k' Hgt).
           apply name_matches_disagree in Hfirst; tauto.
Qed.

(** X8: [alloc_file_slot] returns the lowest index of an unused entry, and -1
    exactly when every entry is used. *)
Theorem alloc_file_slot_lowest_free files :
  -1 <= alloc_file_slot files < Z.of_nat MAX_FILES
  /\ (alloc_file_slot files = -1 <-> full_table files)
  /\ (forall k, (k < MAX_FILES)%nat ->
        (alloc_file_slot files = Z.of_nat k
         <-> is_used (files !!! k) = false
             /\ forall j, (j < k)%nat -> is_used (files !!! j) = true)).
Proof.
  destruct (alloc_file_slot_spec files)
    as [[E Hfull]|(k & Hk & E & Hfree & Hbelow)]; rewrite E.
  - split; [lia|]. split; [tauto|].
    intros k Hk. split; [lia|]. intros [Hfree _].
    rewrite (Hfull k Hk) in Hfree. discriminate.
  - split; [lia|]. split.
    + split; [lia|]. intros Hfull. rewrite (Hfull k Hk) in Hfree.
      discriminate.
    + intros k' Hk'. split.
      * intros Ek. assert (k' = k) by lia. subst k'. tauto.
      * intros [Hfree' Hbelow'].
        destruct (Nat.lt_trichotomy k k') as [Hlt|[->|Hgt]]; [|reflexivity|].
        -- rewrite (Hbelow' k Hlt) in Hfree. discriminate.
        -- rewrite (Hbelow k' Hgt) in Hfree'. discriminate.
Qed.

End Lookup.

(** ** Formatting and starting up *)

Section Boot.

Implicit Types (st : fs_state).

Lemma find_in_empty_table path :
  find_file_by_name (replicate MAX_FILES zero_entry) path = -1.
Proof.
  apply find_loop_none. intros k Hk.
  rewrite lookup_total_replicate_2 by lia. reflexivity.
Qed.

(** X9: [fs_format] ends the process exactly when one of its library calls
    fails.  Otherwise the superblock holds the magic number, the version, no
    files and [DATA_OFFSET] as high-water mark; every entry of the table is
    all-zero, so no name is found and slot 0 is the next to be allocated; the
    metadata area of the backing file holds the image of the two globals and
    every byte after it is zero. *)
Theorem fs_format_spec env :
  (open_ok env = true -> seek_ok env = true -> putc_ok env = true ->
   sync_succeeds env ->
   exists st, fs_format env = Done st
     /\ g_super st = {| magic := FS_MAGIC; version := FS_VERSION;
                       last_alloc := DATA_OFFSET; file_count := 0 |}
     /\ table_sized st
     /\ (forall i, (i < MAX_FILES)%nat -> g_files st !!! i = zero_entry)
     /\ (forall path, find_file_by_name (g_files st) path = -1)
     /\ alloc_file_slot (g_files st) = 0
     /\ mirrored st
     /\ (forall a, DATA_OFFSET <= a -> g_fs_file st a = NUL))
  /\ (open_ok env = false \/ seek_ok env = false \/ putc_ok env = false
      \/ super_ok env = false \/ table_ok env = false ->
      exists msg, fs_format env = Fatal msg).
Proof.
  split.
  - intros Ho Hs Hp [Hsu Hta].
    destruct (fs_format env) as [st|msg] eqn:E.
    + destruct (fs_format_done env st E) as (Es & Ef & Hm & Hd).
      exists st. split; [reflexivity|]. split.
      { rewrite Es, (wrap32_small DATA_OFFSET); [reflexivity|].
        destruct layout_values as (-> & _). lia. }
      split; [unfold table_sized; rewrite Ef; apply length_replicate|].
      split.
      { intros i Hi. rewrite Ef. apply lookup_total_replicate_2. exact Hi. }
      split; [intros path; rewrite Ef; apply find_in_empty_table|].
      split; [rewrite Ef; vm_compute; reflexivity|].
      split; assumption.
    + exfalso. revert E. unfold fs_format, fs_sync_metadata.
      rewrite Ho, Hs, Hp, Hsu, Hta. cbn [negb bind]. discriminate.
  - unfold fs_format, fs_sync_metadata.
    destruct (open_ok env); cbn [negb]; [|eauto].
    destruct (seek_ok env); cbn [negb]; [|eauto].
    destruct (putc_ok env); cbn [negb]; [|eauto].
    cbv zeta.
    destruct (super_ok env); cbn [negb bind]; [|eauto].
    destruct (table_ok env); cbn [negb bind]; [|eauto].
    intros [H|[H|[H|[H|H]]]]; discriminate H.
Qed.

Lemma fs_format_spec_witness :
  exists st, fs_format (env_ok 0) = Done st /\ alloc_file_slot (g_files st) = 0.
Proof.
  destruct (fs_format_spec (env_ok 0)) as [H _].
  destruct H as (st & E & _ & _ & _ & _ & Ha & _);
    [reflexivity|reflexivity|reflexivity|split; reflexivity|].
  exists st. split; assumption.
Defined.

Lemma length_parse_table bs : length (parse_table bs) = MAX_FILES.
Proof. unfold parse_table. rewrite length_map, length_seq. reflexivity. Qed.

(** X10: what [fs_init] leaves when it returns: the magic number is
    [FS_MAGIC], the table has [MAX_FILES] entries, and the two globals are
    what the metadata area of the backing file holds.  The state is that of
    [fs_format], or it was loaded from an existing file of [FS_SIZE] bytes,
    whose content is kept. *)
Theorem fs_init_result b st :
  fs_init b = Done st ->
  magic (g_super st) = FS_MAGIC
  /\ table_sized st
  /\ mirrored st
  /\ (fs_format (format_env b) = Done st
      \/ exists d, existing b = Some (FS_SIZE, d) /\ g_fs_file st = d).
Proof.
  assert (Hfmt : fs_format (format_env b) = Done st ->
                 magic (g_super st) = FS_MAGIC /\ table_sized st
                 /\ mirrored st
                 /\ (fs_format (format_env b) = Done st
                     \/ exists d, existing b = Some (FS_SIZE, d)
                                  /\ g_fs_file st = d)).
  { intros E. destruct (fs_format_done _ _ E) as (Es & Ef & Hm & _).
    split; [rewrite Es; reflexivity|].
    split; [unfold table_sized; rewrite Ef; apply length_replicate|].
    split; [exact Hm|]. left. exact E. }
  unfold fs_init, fs_load_metadata.
  destruct (existing b) as [[len d]|]; [|exact Hfmt].
  destruct (seek_end_ok b); cbn [negb]; [|discriminate].
  destruct (Z.eqb_spec len FS_SIZE) as [->|Hne]; cbn [negb]; [|exact Hfmt].
  destruct (read_super_ok b); cbn [negb bind]; [|discriminate].
  destruct (read_table_ok b); cbn [negb bind]; [|discriminate].
  cbn [fst snd].
  match goal with
  | |- context [magic ?s =? FS_MAGIC] =>
      destruct (Z.eqb_spec (magic s) FS_MAGIC) as [Em|Em]
  end; cbn [negb]; [|exact Hfmt].
  intros E. injection E as <-. cbn [g_super g_files g_fs_file].
  split; [exact Em|].
  split; [unfold table_sized; apply length_parse_table|].
  split; [split; reflexivity|].
  right. exists d. split; reflexivity.
Qed.

Lemma fresh_state_formatted : fs_format (env_ok 0) = Done fresh_state.
Proof. reflexivity. Qed.

Lemma fs_init_result_witness :
  magic (g_super fresh_state) = FS_MAGIC /\ mirrored fresh_state.
Proof.
  destruct (fs_init_result
              {| existing := None; seek_end_ok := true; read_super_ok := true;
                 read_table_ok := true; format_env := env_ok 0 |} fresh_state)
    as (Hm & _ & Hmir & _).
  - exact fresh_state_formatted.
  - split; assumption.
Defined.

End Boot.

(** ** Ending the process *)

Section Fatal.

Implicit Types (st : fs_state).

Lemma fs_sync_metadata_fatal env s files d msg :
  fs_sync_metadata env s files d = Fatal msg -> sync_failure env msg.
Proof.
  unfold fs_sync_metadata, sync_failure.
  destruct (super_ok env); cbn [negb].
  - destruct (table_ok env); cbn [negb]; [discriminate|].
    intros E. injection E as <-. right. repeat split.
  - intros E. injection E as <-. left. split; reflexivity.
Qed.

Lemma commit_fatal {A} env st s files (k : fs_state -> A) msg :
  bind (commit env st s files) (fun st' => Done (k st')) = Fatal msg ->
  sync_failure env msg.
Proof.
  unfold commit.
  destruct (fs_sync_metadata env (fs_recompute_last_alloc s files) files
              (g_fs_file st)) as [d|m] eqn:E; cbn [bind]; [discriminate|].
  intros H. injection H as <-. exact (fs_sync_metadata_fatal _ _ _ _ _ E).
Qed.

Lemma sync_failure_excluded env msg :
  sync_succeeds env -> ~ sync_failure env msg.
Proof. intros [Hs Ht] [[H _]|(_ & H & _)]; congruence. Qed.

Lemma my_create_fatal env st path mode fi msg :
  my_create env st path mode fi = Fatal msg -> sync_failure env msg.
Proof.
  unfold my_create. cbv zeta.
  destruct (_ >=? 0); [discriminate|].
  destruct (_ <? 0); [discriminate|].
  apply (commit_fatal env st _ _ (fun st' => (0, st', _))).
Qed.

Lemma my_open_fatal env st path fi msg :
  my_open env st path fi = Fatal msg -> sync_failure env msg.
Proof.
  unfold my_open. cbv zeta.
  destruct (find_file_by_name (g_files st) path <? 0).
  - destruct (_ =? 0); [discriminate|].
    destruct (_ <? 0); [discriminate|].
    apply (commit_fatal env st _ _ (fun st' => (0, st', _))).
  - destruct (negb _); [|discriminate].
    apply (commit_fatal env st _ _ (fun st' => (0, st', _))).
Qed.

Lemma my_write_fatal env st buf offset fi msg :
  my_write env st buf offset fi = Fatal msg -> sync_failure env msg.
Proof.
  unfold my_write. cbv zeta.
  destruct (bad_handle st _); [discriminate|].
  destruct (_ >? FILE_REGION_SIZE); [discriminate|].
  destruct (negb (seek_ok env)); [discriminate|].
  destruct (negb (_ =? _)); [discriminate|].
  match goal with
  | |- bind (commit ?e ?s0 ?s ?f) _ = _ -> _ =>
      apply (commit_fatal e s0 s f (fun st' => (_, st')))
  end.
Qed.

Lemma my_truncate_fatal env st path sz msg :
  my_truncate env st path sz = Fatal msg -> sync_failure env msg.
Proof.
  unfold my_truncate. cbv zeta.
  destruct (_ <? 0); [discriminate|].
  destruct (_ >? FILE_REGION_SIZE); [discriminate|].
  apply (commit_fatal env st _ _ (fun st' => (0, st'))).
Qed.

Lemma my_unlink_fatal env st path msg :
  my_unlink env st path = Fatal msg -> sync_failure env msg.
Proof.
  unfold my_unlink. cbv zeta.
  destruct (_ <? 0); [discriminate|].
  apply (commit_fatal env st _ _ (fun st' => (0, st'))).
Qed.

(** X11: a callback ends the process only through [fs_sync_metadata], with the
    message of the [fwrite] that failed; when both metadata writes succeed,
    every callback returns. *)
Theorem fatal_only_when_sync_fails env st :
  (forall path mode fi msg,
     my_create env st path mode fi = Fatal msg -> sync_failure env msg)
  /\ (forall path fi msg,
        my_open env st path fi = Fatal msg -> sync_failure env msg)
  /\ (forall buf offset fi msg,
        my_write env st buf offset fi = Fatal msg -> sync_failure env msg)
  /\ (forall path sz msg,
        my_truncate env st path sz = Fatal msg -> sync_failure env msg)
  /\ (forall path msg,
        my_unlink env st path = Fatal msg -> sync_failure env msg)
  /\ (sync_succeeds env ->
      (forall path mode fi, exists r, my_create env st path mode fi = Done r)
      /\ (forall path fi, exists r, my_open env st path fi = Done r)
      /\ (forall buf offset fi, exists r,
            my_write env st buf offset fi = Done r)
      /\ (forall path sz, exists r, my_truncate env st path sz = Done r)
      /\ (forall path, exists r, my_unlink env st path = Done r)).
Proof.
  split; [intros *; apply my_create_fatal|].
  split; [intros *; apply my_open_fatal|].
  split; [intros *; apply my_write_fatal|].
  split; [intros *; apply my_truncate_fatal|].
  split; [intros *; apply my_unlink_fatal|].
  intros Hs. repeat split; intros *.
  - destruct (my_create env st path mode fi) as [r|msg] eqn:E; [eauto|].
    destruct (sync_failure_excluded env msg Hs (my_create_fatal _ _ _ _ _ _ E)).
  - destruct (my_open env st path fi) as [r|msg] eqn:E; [eauto|].
    destruct (sync_failure_excluded env msg Hs (my_open_fatal _ _ _ _ _ E)).
  - destruct (my_write env st buf offset fi) as [r|msg] eqn:E; [eauto|].
    destruct (sync_failure_excluded env msg Hs (my_write_fatal _ _ _ _ _ _ E)).
  - destruct (my_truncate env st path sz) as [r|msg] eqn:E; [eauto|].
    destruct (sync_failure_excluded env msg Hs (my_truncate_fatal _ _ _ _ _ E)).
  - destruct (my_unlink env st path) as [r|msg] eqn:E; [eauto|].
    destruct (sync_failure_excluded env msg Hs (my_unlink_fatal _ _ _ _ E)).
Qed.

Lemma env_ok_syncs t : sync_succeeds (env_ok t).
Proof. split; reflexivity. Qed.

(** The concrete runs are steps. *)
Lemma create_in_step st path : step st (create_in st path).
Proof.
  unfold create_in.
  destruct (my_create (env_ok 1) st (chars path) mode_0644 fi_plain)
    as [[[r st'] fi']|msg] eqn:E.
  - exact (step_create _ _ _ _ _ _ _ _ E).
  - destruct (sync_failure_excluded _ msg (env_ok_syncs 1)
                (my_create_fatal _ _ _ _ _ _ E)).
Qed.

Lemma write_in_step st h data offset :
  0 <= offset <= OFF_MAX ->
  Z.of_nat (length (chars data)) <= OFF_MAX ->
  step st (write_in st h data offset).
Proof.
  intros Ho Hl. unfold write_in.
  destruct (my_write (env_ok 2) st (chars data) offset (handle h))
    as [[r st']|msg] eqn:E.
  - exact (step_write _ _ _ _ _ _ _ Ho Hl E).
  - destruct (sync_failure_excluded _ msg (env_ok_syncs 2)
                (my_write_fatal _ _ _ _ _ _ E)).
Qed.

Lemma unlink_in_step st path : step st (unlink_in st path).
Proof.
  unfold unlink_in.
  destruct (my_unlink (env_ok 3) st (chars path)) as [[r st']|msg] eqn:E.
  - exact (step_unlink _ _ _ _ _ E).
  - destruct (sync_failure_excluded _ msg (env_ok_syncs 3)
                (my_unlink_fatal _ _ _ _ E)).
Qed.

Lemma truncate_in_step st path sz : step st (truncate_in st path sz).
Proof.
  unfold truncate_in.
  destruct (my_truncate (env_ok 4) st (chars path) sz) as [[r st']|msg] eqn:E.
  - exact (step_truncate _ _ _ _ _ _ E).
  - destruct (sync_failure_excluded _ msg (env_ok_syncs 4)
                (my_truncate_fatal _ _ _ _ _ E)).
Qed.

Lemma reachable_fresh_state : reachable fresh_state.
Proof. exact (reachable_format (env_ok 0) fresh_state fresh_state_formatted). Qed.

Lemma reachable_ten_byte_file : reachable ten_byte_file.
Proof.
  unfold ten_byte_file.
  apply (reachable_step (create_in fresh_state "/a.txt")).
  - apply (reachable_step fresh_state);
      [exact reachable_fresh_state|apply create_in_step].
  - apply write_in_step; [unfold OFF_MAX; lia|].
    change (Z.of_nat (length (chars "0123456789"))) with 10.
    unfold OFF_MAX. lia.
Qed.

End Fatal.

(** Settle a closed statement by running the definitions. *)
Ltac by_running :=
  solve [ vm_compute; repeat split;
          try (let H := fresh in intro H; discriminate H)
        | vm_compute; lia ].

(** ** Restarting on concrete runs *)

Section Restart.

Lemma empty_table_typed : table_typed (replicate MAX_FILES zero_entry).
Proof.
  split; [apply length_replicate|]. intros i Hi.
  rewrite lookup_total_replicate_2 by assumption. apply zero_entry_typed.
Qed.

Lemma sync_load_round_trip_witness :
  let s := {| magic := FS_MAGIC; version := FS_VERSION;
              last_alloc := wrap32 DATA_OFFSET; file_count := 0 |} in
  let files := replicate MAX_FILES zero_entry in
  exists d',
    fs_sync_metadata (env_ok 0) s files (fun _ => NUL) = Done d'
    /\ fs_load_metadata (boot_ok FS_SIZE d') d' = Done (s, files).
Proof.
  intros s files. eexists. split; [reflexivity|].
  apply (sync_load_round_trip (env_ok 0) _ s files (fun _ => NUL)).
  - apply format_super_typed.
  - apply empty_table_typed.
  - reflexivity.
  - reflexivity.
  - reflexivity.
Defined.

Lemma reachable_invariant_witness :
  file_count (g_super ten_byte_file) = count_used (g_files ten_byte_file)
  /\ mirrored ten_byte_file
  /\ last_alloc (g_super ten_byte_file)
     = high_water_mark used_nonempty (g_files ten_byte_file).
Proof.
  destruct (reachable_invariant ten_byte_file reachable_ten_byte_file)
    as (_ & Hc & _ & _ & _ & _ & _ & _ & Hm & Hl & _).
  split; [exact Hc|]. split; [exact Hm|exact Hl].
Defined.

Lemma restart_restores_state_witness :
  fs_init (boot_ok FS_SIZE (g_fs_file ten_byte_file)) = Done ten_byte_file.
Proof.
  exact (restart_restores_state ten_byte_file reachable_ten_byte_file).
Defined.

End Restart.

(** ** Reading and writing files *)

Section Files.

Implicit Types (st : fs_state).

(** The entry [my_write] stores after a complete transfer. *)
Lemma written_entry_fields (fe : FileEntry) e t :
  let fe' := set_mtime (if e >? size fe then set_size fe e else fe) t in
  used fe' = used fe /\ name fe' = name fe /\ start fe' = start fe
  /\ perms fe' = perms fe /\ size fe' = Z.max (size fe) e /\ mtime fe' = t.
Proof.
  cbv zeta. destruct (Z.gtb_spec e (size fe)); cbn; repeat split; lia.
Qed.

(** The five ways through [my_write]. *)
Lemma my_write_cases env st buf offset fi :
  0 <= offset <= OFF_MAX -> Z.of_nat (length buf) <= OFF_MAX ->
  let L := Z.of_nat (length buf) in
  let idx := to_int (fh fi) in
  let lo := slot_base idx + offset in
  let w := transferred env L in
  let st1 := {| g_fs_file := write_bytes (g_fs_file st) lo
                               (take (Z.to_nat w) buf);
                g_super := g_super st; g_files := g_files st |} in
  (bad_handle st idx = true /\ my_write env st buf offset fi = Done (- EBADF, st))
  \/ (bad_handle st idx = false /\ offset + L > FILE_REGION_SIZE
      /\ my_write env st buf offset fi = Done (- ENOSPC, st))
  \/ (bad_handle st idx = false /\ offset + L <= FILE_REGION_SIZE
      /\ seek_ok env = false
      /\ my_write env st buf offset fi = Done (- EIO, st))
  \/ (bad_handle st idx = false /\ offset + L <= FILE_REGION_SIZE
      /\ seek_ok env = true /\ w < L
      /\ my_write env st buf offset fi = Done (- EIO, st1))
  \/ (bad_handle st idx = false /\ offset + L <= FILE_REGION_SIZE
      /\ seek_ok env = true /\ w = L
      /\ my_write env st buf offset fi
         = bind (commit env st1 (g_super st)
                   (<[Z.to_nat idx :=
                        set_mtime
                          (if offset + L >? size (g_files st !!! Z.to_nat idx)
                           then set_size (g_files st !!! Z.to_nat idx)
                                  (offset + L)
                           else g_files st !!! Z.to_nat idx)
                          (wrap32 (now env))]> (g_files st)))
                (fun st' => Done (L, st'))).
Proof.
  intros Hoff HL L idx lo w st1.
  assert (HL0 : 0 <= L) by (subst L; lia).
  unfold my_write. cbv zeta. fold L. fold idx.
  destruct (bad_handle st idx) eqn:Hbad; [left; split; reflexivity|].
  right.
  destruct (wrap64 (offset + L) >? FILE_REGION_SIZE) eqn:Hfit.
  { left. split; [reflexivity|]. split; [|reflexivity].
    rewrite wrap64_small in Hfit by (unfold OFF_MAX in *; lia).
    destruct (Z.gtb_spec (offset + L) FILE_REGION_SIZE); [lia|discriminate]. }
  right.
  destruct (write_position st offset L idx Hbad Hoff (conj HL0 HL) Hfit)
    as (Hcap & Hpos & Hlo & Hhi).
  rewrite Hpos. fold lo. fold w.
  destruct (seek_ok env); cbn [negb];
    [|left; repeat split; try reflexivity; exact Hcap].
  right.
  pose proof (transferred_range env L HL0) as Hw. fold w in Hw.
  destruct (Z.eqb_spec w L) as [Ew|Ew]; cbn [negb].
  - right. split; [reflexivity|]. split; [exact Hcap|].
    split; [reflexivity|]. split; [exact Ew|].
    fold st1.
    destruct layout_values as (_ & Ef & _).
    rewrite (wrap32_small (offset + L)) by lia.
    rewrite Ew, (to_int_small L) by (unfold INT_MAX; lia).
    reflexivity.
  - left. split; [reflexivity|]. split; [exact Hcap|].
    split; [reflexivity|]. split; [lia|reflexivity].
Qed.

(** What [my_read] returns below the end of the file. *)
Lemma my_read_value env st sz offset fi :
  valid_handle st fi ->
  let S := size (g_files st !!! Z.to_nat (fh fi)) in
  0 <= offset < S -> offset + Z.min sz (S - offset) <= FILE_REGION_SIZE ->
  0 <= sz -> offset + sz < 2 ^ 64 ->
  seek_ok env = true ->
  let r := transferred env (Z.min sz (S - offset)) in
  my_read env st sz offset fi
  = (r, read_bytes (g_fs_file st) (slot_base (fh fi) + offset) r).
Proof.
  intros Hv S Hoff Hcap Hsz Hsum Hseek r.
  destruct (valid_handle_index st fi Hv) as (Hint & Hbad & _ & Hreg).
  destruct Hv as [Hfh _].
  destruct layout_values as (Ed & Ef & _).
  pose proof (slot_base_range (fh fi) Hfh) as [Hlo Hhi].
  unfold my_read. cbv zeta. rewrite Hint, Hbad. fold S.
  destruct (Z.geb_spec offset S); [lia|].
  rewrite (wrap64_small (offset + sz)) by lia.
  rewrite Hseek. cbn [negb]. rewrite Hreg.
  rewrite (wrap32_small (slot_base (fh fi) + offset))
    by (unfold FS_SIZE in Hhi; lia).
  assert (Hclamp : (if offset + sz >? S then wrap64 (S - offset) else sz)
                   = Z.min sz (S - offset)).
  { destruct (Z.gtb_spec (offset + sz) S).
    - rewrite wrap64_small by lia. lia.
    - lia. }
  rewrite Hclamp. fold r.
  assert (Hr : 0 <= r <= Z.min sz (S - offset))
    by (apply transferred_range; lia).
  rewrite (to_int_small r) by (unfold INT_MAX; lia).
  reflexivity.
Qed.

(** X12: below the end of the file, [my_read] returns the count [fread]
    delivers for the request clamped to the end of the file: never more than
    asked for, never past the end, the whole request when the stream delivers
    it.  The bytes are those of the backing file at the offset inside the slot
    of the handle. *)
Theorem my_read_count env st sz offset fi :
  valid_handle st fi ->
  let S := size (g_files st !!! Z.to_nat (fh fi)) in
  0 <= offset < S -> S <= FILE_REGION_SIZE ->
  0 <= sz -> offset + sz < 2 ^ 64 ->
  seek_ok env = true ->
  let r := fst (my_read env st sz offset fi) in
  let bytes := snd (my_read env st sz offset fi) in
  0 <= r <= Z.min sz (S - offset)
  /\ r = Z.max 0 (Z.min (Z.min sz (S - offset)) (data_avail env))
  /\ (offset + sz <= S -> sz <= data_avail env -> r = sz)
  /\ Z.of_nat (length bytes) = r
  /\ (forall k, (k < length bytes)%nat ->
        nth k bytes NUL = g_fs_file st (slot_base (fh fi) + offset + Z.of_nat k)).
Proof.
  intros Hv S Hoff Hcap Hsz Hsum Hseek.
  assert (Hin : offset + Z.min sz (S - offset) <= FILE_REGION_SIZE) by lia.
  rewrite (my_read_value env st sz offset fi Hv Hoff Hin Hsz Hsum Hseek).
  fold S. cbn [fst snd]. cbv zeta.
  assert (Hr : 0 <= transferred env (Z.min sz (S - offset))
               <= Z.min sz (S - offset)) by (apply transferred_range; lia).
  split; [exact Hr|]. split; [reflexivity|].
  split; [intros; unfold transferred; lia|].
  rewrite length_read_bytes. split; [lia|].
  intros k Hk. unfold read_bytes.
  rewrite (nth_indep _ NUL (g_fs_file st (slot_base (fh fi) + offset + 0)))
    by (rewrite length_map, length_seq; exact Hk).
  rewrite (map_nth (fun k => g_fs_file st (slot_base (fh fi) + offset + Z.of_nat k))
             (seq 0 _) 0%nat k).
  rewrite seq_nth by exact Hk. reflexivity.
Qed.

Lemma my_read_count_witness :
  fst (my_read (env_ok 4) ten_byte_file 4 3 (handle 0)) = 4
  /\ snd (my_read (env_ok 4) ten_byte_file 4 3 (handle 0)) = chars "3456".
Proof.
  destruct (my_read_count (env_ok 4) ten_byte_file 4 3 (handle 0))
    as (_ & _ & Hr & _);
    [by_running|by_running|by_running|lia|lia|reflexivity|].
  split; [apply Hr; by_running|by_running].
Defined.

End Files.

(** ** Writing and reading back *)

Section WriteRead.

Implicit Types (st : fs_state).

(** The state after a write that reports success. *)
Lemma my_write_success env st buf offset fi r st' :
  0 <= offset <= OFF_MAX -> Z.of_nat (length buf) <= OFF_MAX ->
  my_write env st buf offset fi = Done (r, st') -> 0 <= r ->
  let L := Z.of_nat (length buf) in
  let idx := to_int (fh fi) in
  let fe := g_files st !!! Z.to_nat idx in
  r = L /\ bad_handle st idx = false /\ offset + L <= FILE_REGION_SIZE
  /\ g_files st'
     = <[Z.to_nat idx :=
           set_mtime (if offset + L >? size fe
                      then set_size fe (offset + L) else fe)
                     (wrap32 (now env))]> (g_files st)
  /\ g_super st' = fs_recompute_last_alloc (g_super st) (g_files st')
  /\ (forall a, DATA_OFFSET <= a ->
        g_fs_file st' a
        = write_bytes (g_fs_file st) (slot_base idx + offset) buf a).
Proof.
  intros Hoff HL Hrun Hr L idx fe.
  destruct (my_write_cases env st buf offset fi Hoff HL)
    as [(_ & E)|[(_ & _ & E)|[(_ & _ & _ & E)|[(_ & _ & _ & _ & E)
       |(Hbad & Hcap & _ & Ew & E)]]]];
    rewrite E in Hrun;
    try (injection Hrun as <- _; unfold EBADF, ENOSPC, EIO in Hr; lia).
  fold L idx fe in Hcap, Ew, Hrun.
  match type of Hrun with
  | bind (commit ?e ?s0 ?s ?f) _ = _ =>
      destruct (commit_spec e s0 s f)
        as [(msg & Ec & _)|(d' & Ec & _ & Hd)]; rewrite Ec in Hrun
  end; cbn [bind] in Hrun; [discriminate Hrun|].
  injection Hrun as <- <-. cbn [g_files g_super g_fs_file] in *.
  split; [reflexivity|]. split; [exact Hbad|]. split; [exact Hcap|].
  split; [reflexivity|]. split; [reflexivity|].
  intros a Ha. rewrite (Hd a Ha), Ew. subst L.
  rewrite Nat2Z.id, firstn_all. reflexivity.
Qed.

(** X13: writing and reading back: after [my_write] has returned the length of
    the buffer, [my_read] of that length at the same offset through the same
    handle returns the buffer, when the seek succeeds and the stream delivers
    the bytes. *)
Theorem write_then_read env env' st buf offset fi st' :
  table_sized st -> valid_handle st fi ->
  0 <= offset <= OFF_MAX -> Z.of_nat (length buf) <= OFF_MAX ->
  let L := Z.of_nat (length buf) in
  my_write env st buf offset fi = Done (L, st') ->
  seek_ok env' = true -> L <= data_avail env' ->
  valid_handle st' fi
  /\ offset + L <= size (g_files st' !!! Z.to_nat (fh fi))
  /\ my_read env' st' L offset fi = (L, buf).
Proof.
  intros Hlen Hv Hoff HL L Hrun Hseek Havail.
  assert (HL0 : 0 <= L) by (subst L; lia).
  destruct (valid_handle_index st fi Hv) as (Hint & _ & Hidx & _).
  destruct (my_write_success env st buf offset fi L st' Hoff HL Hrun HL0)
    as (_ & Hbad & Hcap & Ef & _ & Hd).
  rewrite Hint in Hbad, Ef, Hd. fold L in Hcap, Ef.
  set (fe := g_files st !!! Z.to_nat (fh fi)) in *.
  destruct (written_entry_fields fe (offset + L) (wrap32 (now env)))
    as (Eu & _ & _ & _ & Es & _).
  assert (Ee : g_files st' !!! Z.to_nat (fh fi)
               = set_mtime (if offset + L >? size fe
                            then set_size fe (offset + L) else fe)
                           (wrap32 (now env))).
  { rewrite Ef. apply lookup_assign_eq; assumption. }
  assert (Hv' : valid_handle st' fi).
  { destruct Hv as [Hfh Hu]. split; [exact Hfh|].
    rewrite Ee. unfold is_used in *. rewrite Eu. exact Hu. }
  split; [exact Hv'|]. split; [rewrite Ee, Es; lia|].
  destruct (valid_handle_index st' fi Hv') as (Hint' & Hbad' & _).
  assert (HS : offset + L <= size (g_files st' !!! Z.to_nat (fh fi)))
    by (rewrite Ee, Es; lia).
  destruct (Z_lt_le_dec offset (size (g_files st' !!! Z.to_nat (fh fi))))
    as [Hlt|Hge].
  - rewrite (my_read_value env' st' L offset fi Hv')
      by (try assumption; unfold OFF_MAX in *; lia).
    rewrite Z.min_l by lia.
    rewrite transferred_full by lia.
    f_equal. subst L. apply read_bytes_eq. intros k Hk.
    rewrite Hd.
    + apply write_bytes_inside. exact Hk.
    + destruct Hv as [Hfh _].
      pose proof (slot_base_range (fh fi) Hfh). lia.
  - assert (E0 : L = 0) by lia.
    assert (Eb : buf = []) by (apply length_zero_iff_nil; subst L; lia).
    unfold my_read. cbv zeta. rewrite Hint', Hbad', E0, Eb.
    destruct (Z.geb_spec offset (size (g_files st' !!! Z.to_nat (fh fi))));
      [reflexivity|lia].
Qed.

(** A write that fits, in an environment where every library call
    succeeds, returns the length of the buffer. *)
Lemma my_write_ok env st buf offset fi :
  valid_handle st fi ->
  0 <= offset -> offset + Z.of_nat (length buf) <= FILE_REGION_SIZE ->
  io_succeeds env (Z.of_nat (length buf)) ->
  exists st', my_write env st buf offset fi = Done (Z.of_nat (length buf), st').
Proof.
  intros Hv Hoff Hcap (Hseek & Havail & Hsync).
  destruct (valid_handle_index st fi Hv) as (Hint & Hbad & _).
  destruct layout_values as (_ & Ef & _).
  destruct (my_write_cases env st buf offset fi)
    as [(Hb & _)|[(_ & Hbig & _)|[(_ & _ & Hs & _)|[(_ & _ & _ & Hw & _)
       |(_ & _ & _ & _ & E)]]]];
    try (unfold OFF_MAX; lia).
  - rewrite Hint in Hb. congruence.
  - congruence.
  - rewrite transferred_full in Hw by lia. lia.
  - rewrite E.
    match goal with
    | |- context [commit ?e ?s0 ?s ?f] =>
        destruct (commit_done e s0 s f Hsync) as (d' & -> & _)
    end.
    cbn [bind]. eauto.
Qed.

Lemma write_then_read_witness :
  exists st',
    my_write (env_ok 2) (create_in fresh_state "/a.txt") (chars "0123456789")
             0 (handle 0) = Done (10, st')
    /\ my_read (env_ok 4) st' 10 0 (handle 0) = (10, chars "0123456789").
Proof.
  destruct (my_write_ok (env_ok 2) (create_in fresh_state "/a.txt")
              (chars "0123456789") 0 (handle 0)) as (st' & E);
    [by_running|lia|by_running|by_running|].
  exists st'. split; [exact E|].
  destruct (write_then_read (env_ok 2) (env_ok 4)
              (create_in fresh_state "/a.txt") (chars "0123456789") 0
              (handle 0) st') as (_ & _ & H);
    [by_running|by_running|unfold OFF_MAX; lia|by_running|exact E
    |reflexivity|by_running|exact H].
Defined.

(** Two states in which the entry of a handle and the content of its slot
    are the same answer a read alike. *)
Lemma my_read_agree env st st' sz offset fi :
  valid_handle st fi ->
  size (g_files st !!! Z.to_nat (fh fi)) <= FILE_REGION_SIZE ->
  0 <= offset -> 0 <= sz -> offset + sz < 2 ^ 64 ->
  g_files st' !!! Z.to_nat (fh fi) = g_files st !!! Z.to_nat (fh fi) ->
  (forall a, in_slot (fh fi) a -> g_fs_file st' a = g_fs_file st a) ->
  my_read env st' sz offset fi = my_read env st sz offset fi.
Proof.
  intros Hv Hcap Hoff Hsz Hsum He Hd.
  assert (Hv' : valid_handle st' fi).
  { destruct Hv as [Hfh Hu]. split; [exact Hfh|]. rewrite He. exact Hu. }
  destruct (Z_lt_le_dec offset (size (g_files st !!! Z.to_nat (fh fi))))
    as [Hlt|Hge].
  - destruct (seek_ok env) eqn:Hseek.
    + rewrite (my_read_value env st sz offset fi Hv) by (try assumption; lia).
      rewrite (my_read_value env st' sz offset fi Hv')
        by (rewrite ?He; try assumption; lia).
      rewrite He. f_equal. apply read_bytes_agree. intros a Ha. apply Hd.
      pose proof (transferred_range env
                    (Z.min sz (size (g_files st !!! Z.to_nat (fh fi)) - offset))).
      unfold in_slot. lia.
    + destruct (valid_handle_index st fi Hv) as (Hint & Hbad & _).
      destruct (valid_handle_index st' fi Hv') as (_ & Hbad' & _).
      unfold my_read. cbv zeta. rewrite Hint, Hbad, Hbad', He, Hseek.
      reflexivity.
  - destruct (valid_handle_index st fi Hv) as (Hint & Hbad & _).
    destruct (valid_handle_index st' fi Hv') as (_ & Hbad' & _).
    unfold my_read. cbv zeta. rewrite Hint, Hbad, Hbad', He.
    destruct (Z.geb_spec offset (size (g_files st !!! Z.to_nat (fh fi))));
      [reflexivity|lia].
Qed.

(** X14: [my_write] is confined to its target: whatever it returns, the
    backing file is unchanged in the data region outside the [length buf]
    bytes at the offset in the slot of the handle, every other entry of the
    table and [file_count] are unchanged, and when it reports an error the
    metadata is unchanged altogether.  So a read through a valid handle on
    another file returns the same before and after. *)
Theorem write_confined_to_target env st buf offset fi r st' :
  table_sized st ->
  0 <= offset <= OFF_MAX -> Z.of_nat (length buf) <= OFF_MAX ->
  my_write env st buf offset fi = Done (r, st') ->
  let idx := to_int (fh fi) in
  let lo := slot_base idx + offset in
  (forall a, DATA_OFFSET <= a ->
     ~ (lo <= a < lo + Z.of_nat (length buf)) ->
     g_fs_file st' a = g_fs_file st a)
  /\ (forall j, j <> Z.to_nat idx -> g_files st' !!! j = g_files st !!! j)
  /\ file_count (g_super st') = file_count (g_super st)
  /\ (r < 0 -> g_super st' = g_super st /\ g_files st' = g_files st)
  /\ (forall env2 fi2 sz2 off2,
        valid_handle st fi2 -> fh fi2 <> idx ->
        size (g_files st !!! Z.to_nat (fh fi2)) <= FILE_REGION_SIZE ->
        0 <= off2 -> 0 <= sz2 -> off2 + sz2 < 2 ^ 64 ->
        my_read env2 st' sz2 off2 fi2 = my_read env2 st sz2 off2 fi2).
Proof.
  intros Hlen Hoff HL Hrun idx lo.
  assert (Hframe :
    (forall a, DATA_OFFSET <= a ->
       ~ (lo <= a < lo + Z.of_nat (length buf)) ->
       g_fs_file st' a = g_fs_file st a)
    /\ (forall j, j <> Z.to_nat idx -> g_files st' !!! j = g_files st !!! j)
    /\ file_count (g_super st') = file_count (g_super st)
    /\ (r < 0 -> g_super st' = g_super st /\ g_files st' = g_files st)
    /\ (g_fs_file st' = g_fs_file st /\ g_files st' = g_files st
        \/ bad_handle st idx = false
           /\ offset + Z.of_nat (length buf) <= FILE_REGION_SIZE)).
  { destruct (my_write_cases env st buf offset fi Hoff HL)
      as [(_ & E)|[(_ & _ & E)|[(_ & _ & _ & E)|[(Hbad & Hcap & _ & Hw & E)
         |(Hbad & Hcap & _ & Ew & E)]]]];
      rewrite E in Hrun.
    1-3: injection Hrun as <- <-; repeat split; try reflexivity;
         left; split; reflexivity.
    - injection Hrun as <- <-. cbn [g_fs_file g_super g_files].
      split.
      { intros a _ Ha. apply write_bytes_outside.
        rewrite length_take. fold idx lo in Ha |- *. lia. }
      repeat split; try reflexivity. right. split; assumption.
    - match type of Hrun with
      | bind (commit ?e ?s0 ?s ?f) _ = _ =>
          destruct (commit_spec e s0 s f)
            as [(msg & Ec & _)|(d' & Ec & _ & Hd)]; rewrite Ec in Hrun
      end; cbn [bind] in Hrun; [discriminate Hrun|].
      injection Hrun as <- <-. cbn [g_fs_file g_super g_files] in *.
      split.
      { intros a Ha Hout. rewrite (Hd a Ha). apply write_bytes_outside.
        rewrite length_take. fold idx lo in Hout |- *. lia. }
      split.
      { intros j Hj. apply lookup_assign_ne. intros Heq. apply Hj.
        symmetry. exact Heq. }
      split; [reflexivity|].
      split; [lia|]. right. split; assumption. }
  destruct Hframe as (Hd & He & Hc & Hr & Hpos).
  split; [exact Hd|]. split; [exact He|]. split; [exact Hc|].
  split; [exact Hr|].
  intros env2 fi2 sz2 off2 Hv2 Hne Hcap2 Hoff2 Hsz2 Hsum2.
  apply my_read_agree; try assumption.
  - destruct Hpos as [[_ ->]|[Hbad _]]; [reflexivity|].
    apply He. destruct Hv2 as [[? ?] _].
    apply (good_handle st) in Hbad. lia.
  - intros a Ha. destruct Hpos as [[-> _]|[Hbad Hcap]]; [reflexivity|].
    apply (good_handle st) in Hbad as (Hidx & _).
    destruct Hv2 as [Hfh2 _].
    pose proof (slot_base_range (fh fi2) Hfh2) as [Hlo2 _].
    apply Hd; [unfold in_slot in Ha; lia|].
    unfold in_slot in Ha. subst lo. unfold slot_base in *.
    destruct layout_values as (_ & Ef & _). rewrite Ef in *.
    intros Hin. apply Hne. nia.
Qed.

Lemma write_confined_to_target_witness :
  exists st',
    my_write (env_ok 2) (create_in fresh_state "/a.txt") (chars "0123456789")
             0 (handle 0) = Done (10, st')
    /\ g_fs_file st' (DATA_OFFSET + 10) = NUL
    /\ file_count (g_super st') = 1.
Proof.
  destruct (my_write_ok (env_ok 2) (create_in fresh_state "/a.txt")
              (chars "0123456789") 0 (handle 0)) as (st' & E);
    [by_running|lia|by_running|by_running|].
  exists st'. split; [exact E|].
  destruct (write_confined_to_target (env_ok 2)
              (create_in fresh_state "/a.txt") (chars "0123456789") 0
              (handle 0) 10 st') as (Hd & _ & Hc & _);
    [by_running|unfold OFF_MAX; lia|by_running|exact E|].
  split.
  - rewrite Hd; [by_running|by_running|].
    change (Z.of_nat (length (chars "0123456789"))) with 10.
    change (slot_base (to_int (fh (handle 0))) + 0) with DATA_OFFSET. lia.
  - rewrite Hc. by_running.
Defined.

(** X15: the error returns of [my_write] on a valid handle and a request that
    fits: when the seek fails it returns [-EIO] and nothing has changed; when
    [fwrite] transfers only [w] bytes of the buffer it returns [-EIO] with the
    size and the modification time as before, but the [w] bytes are in the
    backing file. *)
Theorem my_write_io_errors env st buf offset fi :
  valid_handle st fi ->
  0 <= offset -> offset + Z.of_nat (length buf) <= FILE_REGION_SIZE ->
  let L := Z.of_nat (length buf) in
  let lo := slot_base (fh fi) + offset in
  (seek_ok env = false -> my_write env st buf offset fi = Done (- EIO, st))
  /\ (seek_ok env = true -> 0 <= data_avail env < L ->
      exists st',
        my_write env st buf offset fi = Done (- EIO, st')
        /\ g_super st' = g_super st /\ g_files st' = g_files st
        /\ (forall k, 0 <= Z.of_nat k < data_avail env ->
              g_fs_file st' (lo + Z.of_nat k) = nth k buf NUL)
        /\ (forall a, ~ (lo <= a < lo + data_avail env) ->
              g_fs_file st' a = g_fs_file st a)).
Proof.
  intros Hv Hoff Hcap L lo.
  destruct (valid_handle_index st fi Hv) as (Hint & Hbad & _).
  destruct layout_values as (_ & Ef & _).
  assert (HL : Z.of_nat (length buf) <= OFF_MAX) by (unfold OFF_MAX; lia).
  assert (Hoff' : 0 <= offset <= OFF_MAX) by (unfold OFF_MAX; lia).
  pose proof (my_write_cases env st buf offset fi Hoff' HL) as Hcases.
  cbv zeta in Hcases. rewrite Hint in Hcases. fold L lo in Hcases.
  split.
  - intros Hseek.
    destruct Hcases
      as [(Hb & _)|[(_ & Hbig & _)|[(_ & _ & _ & E)|[(_ & _ & Hs & _)
         |(_ & _ & Hs & _)]]]]; try congruence.
    subst L. lia.
  - intros Hseek Hshort.
    assert (Ew : transferred env L = data_avail env)
      by (unfold transferred; lia).
    destruct Hcases
      as [(Hb & _)|[(_ & Hbig & _)|[(_ & _ & Hs & _)|[(_ & _ & _ & _ & E)
         |(_ & _ & _ & Hw & _)]]]]; try congruence; try (subst L; lia).
    rewrite Ew in E. eexists. split; [exact E|].
    cbn [g_super g_files g_fs_file].
    split; [reflexivity|]. split; [reflexivity|].
    assert (Hlen : Z.of_nat (length (take (Z.to_nat (data_avail env)) buf))
                   = data_avail env) by (rewrite length_take; subst L; lia).
    split.
    + intros k Hk. rewrite write_bytes_inside by lia.
      rewrite nth_firstn.
      destruct (Nat.ltb_spec k (Z.to_nat (data_avail env))); [reflexivity|lia].
    + intros a Ha. apply write_bytes_outside. lia.
Qed.

Lemma my_write_io_errors_witness :
  exists st',
    my_write (env_short 2 4) (create_in fresh_state "/a.txt")
             (chars "0123456789") 0 (handle 0) = Done (- EIO, st')
    /\ g_files st' = g_files (create_in fresh_state "/a.txt")
    /\ g_fs_file st' (DATA_OFFSET + 3) = "3"%char.
Proof.
  destruct (my_write_io_errors (env_short 2 4) (create_in fresh_state "/a.txt")
              (chars "0123456789") 0 (handle 0)) as (_ & H);
    [by_running|lia|by_running|].
  destruct H as (st' & E & _ & Ef & Hd & _); [reflexivity|by_running|].
  exists st'. split; [exact E|]. split; [exact Ef|].
  exact (Hd 3%nat ltac:(by_running)).
Defined.

(** X16: a handle that is not the index of a used slot (read as an [int]) is
    refused: [my_read] and [my_write] return [-EBADF] and change nothing. *)
Theorem bad_handle_rejected env st buf sz offset fi :
  let idx := to_int (fh fi) in
  idx < 0 \/ Z.of_nat MAX_FILES <= idx
  \/ used (g_files st !!! Z.to_nat idx) = 0 ->
  my_read env st sz offset fi = (- EBADF, [])
  /\ my_write env st buf offset fi = Done (- EBADF, st).
Proof.
  intros idx H.
  assert (Hbad : bad_handle st idx = true).
  { unfold bad_handle, is_used.
    destruct (Z.ltb_spec idx 0); [reflexivity|].
    destruct (Z.geb_spec idx (Z.of_nat MAX_FILES)); [reflexivity|].
    destruct H as [H|[H|H]]; [lia|lia|]. rewrite H. reflexivity. }
  unfold my_read, my_write. cbv zeta. fold idx. rewrite Hbad.
  split; reflexivity.
Qed.

Lemma bad_handle_rejected_witness :
  my_read (env_ok 4) ten_byte_file 10 0 (handle 1) = (- EBADF, [])
  /\ my_write (env_ok 2) ten_byte_file (chars "x") 0 (handle 64)
     = Done (- EBADF, ten_byte_file).
Proof.
  split.
  - apply (bad_handle_rejected (env_ok 4) ten_byte_file [] 10 0 (handle 1)).
    right. right. by_running.
  - apply (bad_handle_rejected (env_ok 2) ten_byte_file (chars "x") 0 0
             (handle 64)).
    right. left. by_running.
Defined.

End WriteRead.

(** ** Truncation *)

Section Resize.

Implicit Types (st : fs_state).

(** The state a commit of one changed entry leaves. *)
Lemma commit_assign_spec env st s k e st' :
  table_sized st -> (k < MAX_FILES)%nat ->
  commit env st s (<[k := e]> (g_files st)) = Done st' ->
  g_files st' = <[k := e]> (g_files st)
  /\ g_files st' !!! k = e
  /\ (forall j, j <> k -> g_files st' !!! j = g_files st !!! j)
  /\ file_count (g_super st') = file_count s
  /\ (forall a, DATA_OFFSET <= a -> g_fs_file st' a = g_fs_file st a).
Proof.
  intros Hlen Hk Ec.
  destruct (commit_spec env st s (<[k := e]> (g_files st)))
    as [(msg & E & _)|(d' & E & _ & Hd)]; rewrite E in Ec;
    [discriminate Ec|].
  injection Ec as <-. cbn [g_files g_super g_fs_file].
  split; [reflexivity|].
  split; [apply lookup_assign_eq; assumption|].
  split; [intros j Hj; apply lookup_assign_ne; congruence|].
  split; [reflexivity|exact Hd].
Qed.

Lemma commit_assign_done env st s k e :
  table_sized st -> (k < MAX_FILES)%nat -> sync_succeeds env ->
  exists st',
    commit env st s (<[k := e]> (g_files st)) = Done st'
    /\ g_files st' = <[k := e]> (g_files st)
    /\ g_files st' !!! k = e
    /\ (forall j, j <> k -> g_files st' !!! j = g_files st !!! j)
    /\ file_count (g_super st') = file_count s
    /\ (forall a, DATA_OFFSET <= a -> g_fs_file st' a = g_fs_file st a).
Proof.
  intros Hlen Hk Hsync.
  destruct (commit_done env st s (<[k := e]> (g_files st)) Hsync)
    as (d' & E & _).
  eexists. split; [exact E|].
  exact (commit_assign_spec env st s k e _ Hlen Hk E).
Qed.

(** A truncation that fits returns 0 when the metadata is written. *)
Lemma my_truncate_ok env st path sz k :
  (k < MAX_FILES)%nat -> find_file_by_name (g_files st) path = Z.of_nat k ->
  0 <= sz <= FILE_REGION_SIZE -> sync_succeeds env ->
  exists st', my_truncate env st path sz = Done (0, st').
Proof.
  intros Hk E Hsz Hsync.
  destruct layout_values as (_ & Ef & _).
  unfold my_truncate. cbv zeta. rewrite E.
  destruct (Z.ltb_spec (Z.of_nat k) 0); [lia|].
  rewrite (wrap64_small sz) by lia.
  destruct (Z.gtb_spec sz FILE_REGION_SIZE); [lia|].
  match goal with
  | |- context [commit ?e ?s0 ?s ?f] =>
      destruct (commit_done e s0 s f Hsync) as (d' & -> & _)
  end.
  cbn [bind]. eauto.
Qed.

(** X17: [my_truncate] returns [-ENOENT] for a name that is not found; for a
    found name it returns [-ENOSPC] when the size, read as the unsigned
    [size_t] of the comparison, exceeds [FILE_REGION_SIZE], which includes
    every negative size; otherwise it sets the size and the modification time
    of the entry and changes nothing else: no other field, no other entry, not
    [file_count], and no byte of the data region, so the file is neither
    cleared nor zero-filled. *)
Theorem my_truncate_spec env st path sz :
  table_sized st ->
  - 2 ^ 63 <= sz < 2 ^ 63 ->
  (find_file_by_name (g_files st) path = -1 ->
   my_truncate env st path sz = Done (- ENOENT, st))
  /\ (forall k, (k < MAX_FILES)%nat ->
        find_file_by_name (g_files st) path = Z.of_nat k ->
        (sz < 0 \/ FILE_REGION_SIZE < sz ->
         my_truncate env st path sz = Done (- ENOSPC, st))
        /\ (0 <= sz <= FILE_REGION_SIZE -> sync_succeeds env ->
            exists st',
              my_truncate env st path sz = Done (0, st')
              /\ size (g_files st' !!! k) = sz
              /\ mtime (g_files st' !!! k) = wrap32 (now env)
              /\ used (g_files st' !!! k) = used (g_files st !!! k)
              /\ name (g_files st' !!! k) = name (g_files st !!! k)
              /\ start (g_files st' !!! k) = start (g_files st !!! k)
              /\ perms (g_files st' !!! k) = perms (g_files st !!! k)
              /\ (forall j, j <> k -> g_files st' !!! j = g_files st !!! j)
              /\ file_count (g_super st') = file_count (g_super st)
              /\ (forall a, DATA_OFFSET <= a ->
                    g_fs_file st' a = g_fs_file st a))).
Proof.
  intros Hlen Hsz.
  destruct layout_values as (_ & Ef & _).
  split.
  - intros E. unfold my_truncate. cbv zeta. rewrite E. reflexivity.
  - intros k Hk E. unfold my_truncate. cbv zeta. rewrite E.
    destruct (Z.ltb_spec (Z.of_nat k) 0); [lia|].
    rewrite Nat2Z.id. split.
    + intros Hbig.
      assert (Hw : FILE_REGION_SIZE < wrap64 sz).
      { unfold wrap64. destruct Hbig as [Hneg|Hbig].
        - rewrite <- (Z.mod_add sz 1 (2 ^ 64)) by lia.
          rewrite Z.mod_small by lia. lia.
        - rewrite Z.mod_small by lia. lia. }
      destruct (Z.gtb_spec (wrap64 sz) FILE_REGION_SIZE); [reflexivity|lia].
    + intros Hfit Hsync.
      rewrite (wrap64_small sz) by lia.
      destruct (Z.gtb_spec sz FILE_REGION_SIZE); [lia|].
      rewrite (wrap32_small sz) by lia.
      destruct (commit_assign_done env st (g_super st) k
                  (set_mtime (set_size (g_files st !!! k) sz)
                     (wrap32 (now env))) Hlen Hk Hsync)
        as (st' & Ec & _ & Ee & Hothers & Hcount & Hd).
      exists st'. rewrite Ec. cbn [bind]. split; [reflexivity|].
      rewrite Ee. cbn [set_mtime set_size used name start size perms mtime].
      repeat split; try reflexivity; assumption.
Qed.

Lemma my_truncate_spec_witness :
  my_truncate (env_ok 4) ten_byte_file (chars "/a.txt") (-1)
  = Done (- ENOSPC, ten_byte_file)
  /\ exists st',
       my_truncate (env_ok 4) ten_byte_file (chars "/a.txt") 4 = Done (0, st')
       /\ size (g_files st' !!! 0%nat) = 4
       /\ g_fs_file st' (DATA_OFFSET + 9) = "9"%char.
Proof.
  destruct (my_truncate_spec (env_ok 4) ten_byte_file (chars "/a.txt") (-1))
    as (_ & Hneg); [by_running|lia|].
  destruct (my_truncate_spec (env_ok 4) ten_byte_file (chars "/a.txt") 4)
    as (_ & Hfit); [by_running|lia|].
  split.
  - destruct (Hneg 0%nat) as (H & _); [by_running|by_running|].
    apply H. left. lia.
  - destruct (Hfit 0%nat) as (_ & H); [by_running|by_running|].
    destruct H as (st' & E & Hs & _ & _ & _ & _ & _ & _ & _ & Hd);
      [by_running|by_running|].
    exists st'. split; [exact E|]. split; [exact Hs|].
    rewrite Hd by by_running. by_running.
Defined.

(** X18: growing a file exposes what its slot held: after [my_truncate] has
    set the size, a read of the first [n] bytes from [off] below that size
    returns the bytes the backing file had there before the call, whether or
    not they were part of the file. *)
Theorem truncate_then_read env env' st path sz st' k fi n off :
  table_sized st -> - 2 ^ 63 <= sz < 2 ^ 63 ->
  (k < MAX_FILES)%nat ->
  find_file_by_name (g_files st) path = Z.of_nat k ->
  my_truncate env st path sz = Done (0, st') ->
  fh fi = Z.of_nat k ->
  0 <= off -> 0 <= n -> off + n <= sz ->
  seek_ok env' = true -> n <= data_avail env' ->
  size (g_files st' !!! k) = sz
  /\ my_read env' st' n off fi
     = (n, read_bytes (g_fs_file st) (slot_base (Z.of_nat k) + off) n).
Proof.
  intros Hlen Hsz Hk Efind Hrun Hfh Hoff Hn Hin Hseek Havail.
  destruct layout_values as (_ & Ef & _).
  destruct (find_file_by_name_nonneg (g_files st) path)
    as (k' & _ & Ek' & Hm & _); [lia|].
  assert (k' = k) by lia. subst k'. clear Ek'.
  apply name_matches_used in Hm.
  revert Hrun. unfold my_truncate. cbv zeta. rewrite Efind.
  destruct (Z.ltb_spec (Z.of_nat k) 0); [lia|]. rewrite Nat2Z.id.
  destruct (Z.gtb_spec (wrap64 sz) FILE_REGION_SIZE) as [Hbig|Hfit];
    [discriminate|].
  assert (Hsz' : 0 <= sz <= FILE_REGION_SIZE).
  { unfold wrap64 in Hfit.
    destruct (Z_lt_le_dec sz 0) as [Hneg|Hpos].
    - rewrite <- (Z.mod_add sz 1 (2 ^ 64)) in Hfit by lia.
      rewrite Z.mod_small in Hfit by lia. lia.
    - rewrite Z.mod_small in Hfit by lia. lia. }
  rewrite (wrap32_small sz) by lia.
  destruct (commit env st (g_super st) _) as [st''|msg] eqn:Ec; cbn [bind];
    [|discriminate].
  intros Hrun. injection Hrun as ->.
  destruct (commit_assign_spec env st (g_super st) k _ st' Hlen Hk Ec)
    as (_ & Ee & _ & _ & Hd).
  assert (Es : size (g_files st' !!! k) = sz) by (rewrite Ee; reflexivity).
  split; [exact Es|].
  assert (Hv : valid_handle st' fi).
  { split; [rewrite Hfh; lia|]. rewrite Hfh, Nat2Z.id, Ee.
    unfold is_used in *. exact Hm. }
  assert (Hrange : 0 <= Z.of_nat k < Z.of_nat MAX_FILES) by lia.
  pose proof (slot_base_range (Z.of_nat k) Hrange) as [Hlo _].
  assert (Hread : read_bytes (g_fs_file st') (slot_base (Z.of_nat k) + off) n
                  = read_bytes (g_fs_file st) (slot_base (Z.of_nat k) + off) n).
  { apply read_bytes_agree. intros a Ha. apply Hd. lia. }
  destruct (Z_lt_le_dec off sz) as [Hlt|Hge].
  - rewrite (my_read_value env' st' n off fi Hv);
      rewrite ?Hfh, ?Nat2Z.id, ?Es; try assumption; try lia.
    rewrite Z.min_l by lia. rewrite transferred_full by lia.
    rewrite Hread. reflexivity.
  - assert (n = 0) by lia. subst n.
    destruct (valid_handle_index st' fi Hv) as (Hint & Hbad & _).
    unfold my_read. cbv zeta. rewrite Hint, Hbad, Hfh, Nat2Z.id, Es.
    destruct (Z.geb_spec off sz); [reflexivity|lia].
Qed.

Lemma truncate_then_read_witness :
  let st := truncate_in ten_byte_file "/a.txt" 0 in
  size (g_files st !!! 0%nat) = 0
  /\ exists st',
       my_truncate (env_ok 4) st (chars "/a.txt") 10 = Done (0, st')
       /\ my_read (env_ok 4) st' 10 0 (handle 0) = (10, chars "0123456789").
Proof.
  intros st. split; [by_running|].
  destruct (my_truncate_ok (env_ok 4) st (chars "/a.txt") 10 0)
    as (st' & E); [by_running|by_running|by_running|by_running|].
  exists st'. split; [exact E|].
  destruct (truncate_then_read (env_ok 4) (env_ok 4) st (chars "/a.txt") 10
              st' 0%nat (handle 0) 10 0) as (_ & H);
    [by_running|lia|by_running|by_running|exact E|reflexivity|lia|lia|lia
    |reflexivity|by_running|].
  rewrite H. by_running.
Defined.

End Resize.

(** ** Opening and creating *)

Section Names.

Implicit Types (st : fs_state).

(** X19: [my_open]: a name that is not found gives [-ENOENT] without
    [O_CREAT], and with [O_CREAT] the call is [my_create] with mode 0644; a
    found name gives its slot index as handle, with the state unchanged unless
    [O_TRUNC] is set, in which case the size becomes 0 and the modification
    time the clock, and nothing else changes. *)
Theorem my_open_spec env st path fi :
  table_sized st ->
  (find_file_by_name (g_files st) path = -1 ->
   (Z.land (flags fi) O_CREAT = 0 ->
    my_open env st path fi = Done (- ENOENT, st, fi))
   /\ (Z.land (flags fi) O_CREAT <> 0 ->
       my_open env st path fi = my_create env st path mode_0644 fi))
  /\ (forall k, (k < MAX_FILES)%nat ->
        find_file_by_name (g_files st) path = Z.of_nat k ->
        let fi' := {| flags := flags fi; fh := Z.of_nat k |} in
        (Z.land (flags fi) O_TRUNC = 0 ->
         my_open env st path fi = Done (0, st, fi'))
        /\ (Z.land (flags fi) O_TRUNC <> 0 -> sync_succeeds env ->
            exists st',
              my_open env st path fi = Done (0, st', fi')
              /\ size (g_files st' !!! k) = 0
              /\ mtime (g_files st' !!! k) = wrap32 (now env)
              /\ used (g_files st' !!! k) = used (g_files st !!! k)
              /\ name (g_files st' !!! k) = name (g_files st !!! k)
              /\ start (g_files st' !!! k) = start (g_files st !!! k)
              /\ perms (g_files st' !!! k) = perms (g_files st !!! k)
              /\ (forall j, j <> k -> g_files st' !!! j = g_files st !!! j)
              /\ file_count (g_super st') = file_count (g_super st)
              /\ (forall a, DATA_OFFSET <= a ->
                    g_fs_file st' a = g_fs_file st a))).
Proof.
  intros Hlen. split.
  - intros E. split.
    + intros Hflag. unfold my_open. cbv zeta. rewrite E, Hflag. reflexivity.
    + intros Hflag. apply my_open_creat_new; assumption.
  - intros k Hk E fi'. unfold my_open. cbv zeta. rewrite E.
    destruct (Z.ltb_spec (Z.of_nat k) 0); [lia|].
    rewrite Nat2Z.id, (set_fh_index fi k Hk). fold fi'. split.
    + intros Hflag. rewrite Hflag. reflexivity.
    + intros Hflag Hsync.
      destruct (Z.eqb_spec (Z.land (flags fi) O_TRUNC) 0); [contradiction|].
      cbn [negb].
      destruct (commit_assign_done env st (g_super st) k
                  (set_mtime (set_size (g_files st !!! k) 0)
                     (wrap32 (now env))) Hlen Hk Hsync)
        as (st' & Ec & _ & Ee & Hothers & Hcount & Hd).
      exists st'. rewrite Ec. cbn [bind]. split; [reflexivity|].
      rewrite Ee. cbn [set_mtime set_size used name start size perms mtime].
      repeat split; try reflexivity; assumption.
Qed.

Lemma my_open_spec_witness :
  my_open (env_ok 1) ten_byte_file (chars "/b.txt") fi_plain
  = Done (- ENOENT, ten_byte_file, fi_plain)
  /\ my_open (env_ok 1) ten_byte_file (chars "/a.txt") fi_plain
     = Done (0, ten_byte_file, handle 0)
  /\ exists st',
       my_open (env_ok 1) ten_byte_file (chars "/a.txt")
               {| flags := O_TRUNC; fh := 0 |}
       = Done (0, st', {| flags := O_TRUNC; fh := 0 |})
       /\ size (g_files st' !!! 0%nat) = 0.
Proof.
  destruct (my_open_spec (env_ok 1) ten_byte_file (chars "/b.txt") fi_plain)
    as (Hmissing & _); [by_running|].
  destruct (my_open_spec (env_ok 1) ten_byte_file (chars "/a.txt") fi_plain)
    as (_ & Hplain); [by_running|].
  destruct (my_open_spec (env_ok 1) ten_byte_file (chars "/a.txt")
              {| flags := O_TRUNC; fh := 0 |})
    as (_ & Htrunc); [by_running|].
  split.
  - destruct Hmissing as (H & _); [by_running|]. apply H. by_running.
  - split.
    + destruct (Hplain 0%nat) as (H & _); [by_running|by_running|].
      apply H. by_running.
    + destruct (Htrunc 0%nat) as (_ & H); [by_running|by_running|].
      destruct H as (st' & E & Hs & _); [by_running|by_running|].
      exists st'. split; [exact E|exact Hs].
Defined.

(** A stored name that matches a query shorter than [NAME_MAX_LEN] is that
    query, as a C string. *)
Lemma name_matches_short e nm :
  (length (c_str nm) < NAME_MAX_LEN)%nat ->
  name_matches e nm = true -> c_str (name e) = c_str nm.
Proof.
  intros Hshort Hm. apply name_matches_agree in Hm as [_ Ha].
  unfold names_agree in Ha.
  rewrite (take_ge (c_str nm)) in Ha by lia.
  assert (Hl : (length (c_str (name e)) < NAME_MAX_LEN)%nat).
  { apply (f_equal length) in Ha. rewrite length_take in Ha. lia. }
  rewrite take_ge in Ha by lia. exact Ha.
Qed.

(** X20: after a successful [my_create] of a name shorter than [NAME_MAX_LEN]
    the name is found in the slot of the returned handle, the handle is valid,
    the slot holds the name, and [my_getattr] of the path succeeds and reports
    the size of that slot; a file that did not exist before is empty, carries
    the mode and the clock, and [file_count] has grown by one. *)
Theorem create_then_lookup env st path mode fi st' fi' :
  table_sized st ->
  (length (c_str (skip_slash path)) < NAME_MAX_LEN)%nat ->
  my_create env st path mode fi = Done (0, st', fi') ->
  let fe := g_files st' !!! Z.to_nat (fh fi') in
  find_file_by_name (g_files st') path = fh fi'
  /\ valid_handle st' fi'
  /\ c_str (name fe) = c_str (skip_slash path)
  /\ (strcmp path (chars "/") <> 0 ->
      fst (my_getattr st' path) = 0
      /\ st_size (snd (my_getattr st' path)) = size fe)
  /\ (find_file_by_name (g_files st) path = -1 ->
      size fe = 0 /\ perms fe = wrap32 mode /\ mtime fe = wrap32 (now env)
      /\ file_count (g_super st') = wrap32 (file_count (g_super st) + 1)).
Proof.
  intros Hlen Hshort Hrun fe.
  assert (Hmain : exists k, (k < MAX_FILES)%nat /\ fh fi' = Z.of_nat k
            /\ find_file_by_name (g_files st') path = Z.of_nat k
            /\ name_matches (g_files st' !!! k) (skip_slash path) = true
            /\ (find_file_by_name (g_files st) path = -1 ->
                g_files st' !!! k = new_entry (skip_slash path) mode (now env)
                /\ file_count (g_super st')
                   = wrap32 (file_count (g_super st) + 1))).
  { destruct (my_create_cases env st path mode fi)
      as [(k & Hk & E & Hm & Hret)|[(_ & _ & Hret)|(k & _ & E & _)]].
    - rewrite Hrun in Hret. injection Hret as -> ->.
      exists k. rewrite (set_fh_index fi k Hk). cbn [fh].
      split; [exact Hk|]. split; [reflexivity|]. split; [exact E|].
      split; [exact Hm|]. intros E'. rewrite E in E'. lia.
    - rewrite Hrun in Hret. discriminate Hret.
    - destruct (my_create_new env st path mode fi st' fi' Hlen E Hrun)
        as (k' & Hk' & -> & _ & _ & Hno & Ef & Ee & Hothers & Hcount & _).
      exists k'. cbn [fh].
      assert (Hm : name_matches (g_files st' !!! k') (skip_slash path) = true).
      { rewrite Ee. unfold name_matches.
        rewrite is_used_new_entry. cbn [andb new_entry name].
        apply Z.eqb_eq, strncmp_stored_short. exact Hshort. }
      split; [exact Hk'|]. split; [reflexivity|]. split.
      + apply find_loop_first; [lia|exact Hm|].
        intros j Hj. rewrite Hothers by lia. apply Hno. lia.
      + split; [exact Hm|]. intros _. split; assumption. }
  destruct Hmain as (k & Hk & Efh & Efind & Hm & Hnew).
  subst fe. rewrite Efh, Nat2Z.id.
  split; [exact Efind|]. split.
  { split; [lia|]. rewrite Efh, Nat2Z.id.
    exact (name_matches_used _ _ Hm). }
  split; [exact (name_matches_short _ _ Hshort Hm)|]. split.
  - intros Hroot. unfold my_getattr.
    destruct (Z.eqb_spec (strcmp path (chars "/")) 0); [contradiction|].
    rewrite Efind. destruct (Z.ltb_spec (Z.of_nat k) 0); [lia|].
    rewrite Nat2Z.id. split; reflexivity.
  - intros E. destruct (Hnew E) as (-> & Hc).
    repeat split; try reflexivity. exact Hc.
Qed.

Lemma create_then_lookup_witness :
  let st' := create_in fresh_state "/a.txt" in
  find_file_by_name (g_files st') (chars "/a.txt") = 0
  /\ c_str (name (g_files st' !!! 0%nat)) = chars "a.txt".
Proof.
  intros st'.
  destruct (my_create_first_slot (env_ok 1) (chars "/a.txt") mode_0644 fi_plain)
    as (st1 & E1); [split; reflexivity|by_running|].
  assert (Est : st' = st1).
  { subst st'. unfold create_in. rewrite E1. reflexivity. }
  rewrite Est.
  destruct (create_then_lookup (env_ok 1) fresh_state (chars "/a.txt")
              mode_0644 fi_plain st1 {| flags := flags fi_plain; fh := 0 |})
    as (Hf & _ & Hn & _); [by_running|by_running|exact E1|].
  split; [exact Hf|exact Hn].
Defined.

End Names.

(** ** Removal *)

Section Removal.

Implicit Types (st : fs_state).

(** The state after an unlink that returns 0. *)
Lemma my_unlink_done env st path st' :
  table_sized st ->
  my_unlink env st path = Done (0, st') ->
  exists k, (k < MAX_FILES)%nat
    /\ find_file_by_name (g_files st) path = Z.of_nat k
    /\ name_matches (g_files st !!! k) (skip_slash path) = true
    /\ g_files st' !!! k = zero_entry
    /\ (forall j, j <> k -> g_files st' !!! j = g_files st !!! j).
Proof.
  intros Hlen Hrun.
  destruct (my_unlink_cases env st path)
    as [(_ & _ & E)|(k & Hk & Efind & Hm & E)]; rewrite E in Hrun.
  - discriminate Hrun.
  - match type of Hrun with
    | bind (commit ?e ?s0 ?s ?f) _ = _ =>
        destruct (commit e s0 s f) as [st''|msg] eqn:Ec
    end; cbn [bind] in Hrun; [|discriminate Hrun].
    injection Hrun as ->.
    destruct (commit_assign_spec env st _ k zero_entry st' Hlen Hk Ec)
      as (_ & Ee & Hothers & _).
    exists k. repeat split; assumption.
Qed.

(** X21: while names are unique among the used entries, a file that was
    unlinked is gone: the lookup of its path fails and [my_getattr] returns
    [-ENOENT]. *)
Theorem unlink_then_lookup env st path st' :
  table_sized st -> names_unique st = true ->
  my_unlink env st path = Done (0, st') ->
  find_file_by_name (g_files st') path = -1
  /\ (strcmp path (chars "/") <> 0 ->
      my_getattr st' path = (- ENOENT, zero_stat)).
Proof.
  intros Hlen Huniq Hrun.
  destruct (my_unlink_done env st path st' Hlen Hrun)
    as (k & Hk & _ & Hm & Ee & Hothers).
  assert (Efind : find_file_by_name (g_files st') path = -1).
  { apply find_loop_none. intros j Hj.
    destruct (decide (j = k)) as [->|Hne].
    - rewrite Ee. reflexivity.
    - rewrite Hothers by exact Hne.
      destruct (name_matches (g_files st !!! j) (skip_slash path)) eqn:Hmj;
        [exfalso|reflexivity].
      rewrite names_unique_iff in Huniq.
      assert (Hs : same_name (g_files st !!! j) (g_files st !!! k) = false).
      { apply Huniq; try assumption; try lia.
        - exact (name_matches_used _ _ Hmj).
        - exact (name_matches_used _ _ Hm). }
      apply name_matches_agree in Hmj as [_ Hj'].
      apply name_matches_agree in Hm as [_ Hk'].
      unfold same_name in Hs. apply Z.eqb_neq in Hs. apply Hs.
      apply strncmp_zero_iff. unfold names_agree in *. congruence. }
  split; [exact Efind|].
  intros Hroot. unfold my_getattr.
  destruct (Z.eqb_spec (strcmp path (chars "/")) 0); [contradiction|].
  rewrite Efind. reflexivity.
Qed.

Lemma unlink_then_lookup_witness :
  find_file_by_name (g_files (unlink_in ten_byte_file "/a.txt")) (chars "/a.txt")
  = -1.
Proof.
  destruct (my_unlink (env_ok 3) ten_byte_file (chars "/a.txt"))
    as [[r st']|msg] eqn:E.
  - assert (Est : unlink_in ten_byte_file "/a.txt" = st').
    { unfold unlink_in. rewrite E. reflexivity. }
    assert (Er : r = 0).
    { apply (f_equal (ret_of fst)) in E. cbn [ret_of fst] in E.
      assert (Ev : ret_of fst (my_unlink (env_ok 3) ten_byte_file
                                 (chars "/a.txt")) = Some 0) by by_running.
      congruence. }
    subst r. rewrite Est.
    destruct (unlink_then_lookup (env_ok 3) ten_byte_file (chars "/a.txt") st')
      as (H & _); [by_running|by_running|exact E|exact H].
  - destruct (sync_failure_excluded _ msg (env_ok_syncs 3)
                (my_unlink_fatal _ _ _ _ E)).
Defined.

(** X22: after an unlink the handle of the removed file is refused: through a
    handle equal to its slot index, [my_read] and [my_write] return [-EBADF]
    and change nothing. *)
Theorem unlink_invalidates_handle env env' st path st' fi buf sz offset :
  table_sized st ->
  my_unlink env st path = Done (0, st') ->
  fh fi = find_file_by_name (g_files st) path ->
  my_read env' st' sz offset fi = (- EBADF, [])
  /\ my_write env' st' buf offset fi = Done (- EBADF, st').
Proof.
  intros Hlen Hrun Hfh.
  destruct (my_unlink_done env st path st' Hlen Hrun)
    as (k & Hk & Efind & _ & Ee & _).
  rewrite Efind in Hfh.
  assert (Hint : to_int (fh fi) = Z.of_nat k).
  { rewrite Hfh. apply to_int_small. unfold INT_MAX, MAX_FILES in *. lia. }
  assert (Hbad : bad_handle st' (Z.of_nat k) = true).
  { unfold bad_handle. rewrite Nat2Z.id, Ee, is_used_zero_entry.
    apply orb_true_r. }
  unfold my_read, my_write. cbv zeta. rewrite Hint, Hbad.
  split; reflexivity.
Qed.

Lemma unlink_invalidates_handle_witness :
  my_read (env_ok 4) (unlink_in ten_byte_file "/a.txt") 10 0 (handle 0)
  = (- EBADF, []).
Proof.
  destruct (my_unlink (env_ok 3) ten_byte_file (chars "/a.txt"))
    as [[r st']|msg] eqn:E.
  - assert (Est : unlink_in ten_byte_file "/a.txt" = st').
    { unfold unlink_in. rewrite E. reflexivity. }
    assert (Er : r = 0).
    { apply (f_equal (ret_of fst)) in E. cbn [ret_of fst] in E.
      assert (Ev : ret_of fst (my_unlink (env_ok 3) ten_byte_file
                                 (chars "/a.txt")) = Some 0) by by_running.
      congruence. }
    subst r. rewrite Est.
    destruct (unlink_invalidates_handle (env_ok 3) (env_ok 4) ten_byte_file
                (chars "/a.txt") st' (handle 0) [] 10 0)
      as (H & _); [by_running|exact E|by_running|exact H].
  - destruct (sync_failure_excluded _ msg (env_ok_syncs 3)
                (my_unlink_fatal _ _ _ _ E)).
Defined.

End Removal.

(** ** Listing the directory *)

Section Listing.

Implicit Types (st : fs_state).

Lemma strcmp_root_iff path :
  strcmp path (chars "/") = 0 <-> c_str path = chars "/".
Proof.
  unfold strcmp. rewrite strncmp_zero_iff.
  pose proof (c_str_length path) as Hl.
  rewrite (take_ge (c_str path)) by lia.
  change (c_str (chars "/")) with (chars "/").
  rewrite (take_ge (chars "/")) by (cbn [chars list_ascii_of_string length]; lia).
  reflexivity.
Qed.

Lemma readdir_loop_filter files n : forall i,
  readdir_loop files i n
  = map (fun k => c_string_at (bytes_from_name files k))
        (List.filter (fun k => is_used (files !!! k)) (seq i n)).
Proof.
  induction n as [|n IH]; intros i; cbn [readdir_loop seq List.filter];
    [reflexivity|].
  destruct (is_used (files !!! i)); cbn [map]; rewrite IH; reflexivity.
Qed.

Lemma readdir_loop_length files n : forall i,
  Z.of_nat (length (readdir_loop files i n)) = count_loop files i n.
Proof.
  induction n as [|n IH]; intros i; cbn [readdir_loop count_loop];
    [reflexivity|].
  destruct (is_used (files !!! i)); cbn [length]; rewrite <- IH; lia.
Qed.

Lemma my_readdir_root st path :
  c_str path = chars "/" ->
  my_readdir st path
  = (0, Some (chars ".") :: Some (chars "..")
        :: readdir_loop (g_files st) 0 MAX_FILES).
Proof.
  intros Hroot. apply strcmp_root_iff in Hroot.
  unfold my_readdir. rewrite Hroot. reflexivity.
Qed.

Lemma my_readdir_other st path :
  c_str path <> chars "/" -> my_readdir st path = (- ENOTDIR, []).
Proof.
  intros Hne. unfold my_readdir.
  destruct (Z.eqb_spec (strcmp path (chars "/")) 0) as [E|E]; [|reflexivity].
  apply strcmp_root_iff in E. contradiction.
Qed.

(** X23: [my_readdir] returns [-ENOTDIR] and lists nothing for every path but
    the root.  For the root it returns 0 and hands [filler] ".", ".." and
    then, for each used entry in slot order, the C string found at its name
    field in the packed table: one name for each used entry.  On a table
    whose used names are NUL-terminated these are the stored names; a name
    without NUL is listed with the bytes that follow it in the table. *)
Theorem my_readdir_spec st path :
  (c_str path <> chars "/" -> my_readdir st path = (- ENOTDIR, []))
  /\ (c_str path = chars "/" ->
      my_readdir st path
      = (0, Some (chars ".") :: Some (chars "..")
            :: map (fun k => c_string_at (bytes_from_name (g_files st) k))
                 (List.filter (fun k => is_used (g_files st !!! k))
                    (seq 0 MAX_FILES)))
      /\ Z.of_nat (length (snd (my_readdir st path)))
         = 2 + count_used (g_files st)
      /\ (names_terminated (g_files st) ->
          my_readdir st path
          = (0, Some (chars ".") :: Some (chars "..")
                :: map (fun k => Some (c_str (name (g_files st !!! k))))
                     (List.filter (fun k => is_used (g_files st !!! k))
                        (seq 0 MAX_FILES)))
          /\ (forall k, (k < MAX_FILES)%nat ->
                is_used (g_files st !!! k) = true ->
                In (Some (c_str (name (g_files st !!! k))))
                   (snd (my_readdir st path))))).
Proof.
  split; [apply my_readdir_other|].
  intros Hroot. rewrite (my_readdir_root st path Hroot).
  generalize (readdir_loop_filter (g_files st) MAX_FILES 0).
  generalize (readdir_loop_length (g_files st) MAX_FILES 0).
  generalize (fun H => readdir_loop_terminated (g_files st) H MAX_FILES 0
                         (Nat.le_refl _)).
  fold (count_used (g_files st)).
  generalize (readdir_loop (g_files st) 0 MAX_FILES). intros l Ht Hl Hf.
  split; [rewrite Hf; reflexivity|]. split.
  - cbn [snd length]. lia.
  - intros Hterm. rewrite (Ht Hterm).
    split; [reflexivity|].
    intros k Hk Hu. cbn [snd]. apply in_cons, in_cons.
    apply in_map_iff. exists k. split; [reflexivity|].
    apply (proj2 (filter_In (fun k => is_used (g_files st !!! k)) k
                    (seq 0 MAX_FILES))).
    split; [|exact Hu].
    apply (proj2 (in_seq MAX_FILES 0 k)). lia.
Qed.

Lemma my_readdir_spec_witness :
  my_readdir ten_byte_file (chars "/a.txt") = (- ENOTDIR, [])
  /\ snd (my_readdir ten_byte_file (chars "/"))
     = [Some (chars "."); Some (chars ".."); Some (chars "a.txt")].
Proof.
  destruct (my_readdir_spec ten_byte_file (chars "/a.txt")) as (Hn & _).
  destruct (my_readdir_spec ten_byte_file (chars "/")) as (_ & Hr).
  split.
  - apply Hn. by_running.
  - destruct Hr as (_ & _ & Ht); [reflexivity|].
    destruct Ht as (E & _).
    + apply names_terminated_check. vm_compute. reflexivity.
    + rewrite E. by_running.
Defined.

(** [fs_init] checks the length of the file and the magic number only:
    it loads the table with the unterminated name. *)
Lemma fs_init_loads_unterminated_name :
  fs_init (boot_ok FS_SIZE (g_fs_file unterminated_state))
  = Done unterminated_state.
Proof.
  assert (Hs : super_typed unterminated_super).
  { unfold super_typed, uint32, unterminated_super.
    cbn [magic version last_alloc file_count].
    destruct layout_values as (-> & _). unfold FS_MAGIC, FS_VERSION. lia. }
  assert (Ht : table_typed unterminated_table).
  { apply table_typed_assign; [apply empty_table_typed|unfold MAX_FILES; lia|].
    unfold entry_typed, uint32. cbn [used name start size perms mtime].
    repeat split; try lia. }
  destruct (fs_sync_metadata_content (env_ok 0) unterminated_super
              unterminated_table (fun _ => NUL)
              (g_fs_file unterminated_state) eq_refl) as (E1 & E2).
  unfold fs_init, boot_ok, fs_load_metadata.
  cbn [existing seek_end_ok read_super_ok read_table_ok negb].
  rewrite Z.eqb_refl. cbn [negb bind]. cbv zeta. cbn [fst snd].
  rewrite E1, E2, parse_image_Superblock, parse_image_table by assumption.
  reflexivity.
Qed.

(** A used entry whose name has no NUL: the listing runs on through the
    three bytes of [start] that are not zero. *)
Lemma readdir_runs_past_name :
  ~ names_terminated (g_files unterminated_state)
  /\ snd (my_readdir unterminated_state (chars "/"))
     = [Some (chars "."); Some (chars "..");
        Some (replicate 32 "a"%char ++ chars "ABC")].
Proof.
  split.
  - intros H. specialize (H 0%nat). unfold nul_terminated in H.
    assert (Hl : (length (c_str (name (g_files unterminated_state !!! 0%nat)))
                  < NAME_MAX_LEN)%nat).
    { apply H; [unfold MAX_FILES; lia|vm_compute; reflexivity]. }
    vm_compute in Hl. lia.
  - vm_compute. reflexivity.
Qed.

End Listing.

(** ** Attributes after a write *)

Section Attributes.

Implicit Types (st : fs_state).

(** The lookup depends on the [used] and [name] fields only. *)
Lemma find_loop_ext files files' nm : forall n i,
  (forall k, (i <= k < i + n)%nat ->
     used (files' !!! k) = used (files !!! k)
     /\ name (files' !!! k) = name (files !!! k)) ->
  find_loop files' nm i n = find_loop files nm i n.
Proof.
  induction n as [|n IH]; intros i H; cbn [find_loop]; [reflexivity|].
  destruct (H i) as [Hu Hn]; [lia|].
  unfold name_matches, is_used. rewrite Hu, Hn.
  rewrite IH by (intros k Hk; apply H; lia). reflexivity.
Qed.

(** X24: after [my_write] has returned the length of the buffer, every path
    resolves as before, and [my_getattr] of a path that resolves to the slot
    of the handle reports a regular file whose size is the maximum of the old
    size and [offset + length] and whose three times are the clock of the
    write. *)
Theorem write_then_getattr env st buf offset fi st' path :
  table_sized st -> valid_handle st fi ->
  0 <= offset <= OFF_MAX -> Z.of_nat (length buf) <= OFF_MAX ->
  let L := Z.of_nat (length buf) in
  my_write env st buf offset fi = Done (L, st') ->
  (forall p, find_file_by_name (g_files st') p = find_file_by_name (g_files st) p)
  /\ (strcmp path (chars "/") <> 0 ->
      find_file_by_name (g_files st) path = fh fi ->
      my_getattr st' path
      = (0, {| st_mode := Z.lor S_IFREG mode_0644; st_nlink := 1;
               st_size := Z.max (size (g_files st !!! Z.to_nat (fh fi)))
                                (offset + L);
               st_atime := wrap32 (now env);
               st_mtime := wrap32 (now env);
               st_ctime := wrap32 (now env) |})).
Proof.
  intros Hlen Hv Hoff HL L Hrun.
  assert (HL0 : 0 <= L) by (subst L; lia).
  destruct (valid_handle_index st fi Hv) as (Hint & _ & Hidx & _).
  destruct (my_write_success env st buf offset fi L st' Hoff HL Hrun HL0)
    as (_ & _ & _ & Ef & _).
  rewrite Hint in Ef. fold L in Ef.
  set (fe := g_files st !!! Z.to_nat (fh fi)) in *.
  destruct (written_entry_fields fe (offset + L) (wrap32 (now env)))
    as (Eu & En & _ & _ & Es & Em).
  assert (Ee : g_files st' !!! Z.to_nat (fh fi)
               = set_mtime (if offset + L >? size fe
                            then set_size fe (offset + L) else fe)
                           (wrap32 (now env))).
  { rewrite Ef. apply lookup_assign_eq; assumption. }
  assert (Hfind : forall p, find_file_by_name (g_files st') p
                            = find_file_by_name (g_files st) p).
  { intros p. apply find_loop_ext. intros k _.
    destruct (decide (k = Z.to_nat (fh fi))) as [->|Hne].
    - rewrite Ee. fold fe. split; assumption.
    - rewrite Ef, lookup_assign_ne by congruence. split; reflexivity. }
  split; [exact Hfind|].
  intros Hroot Epath. unfold my_getattr.
  destruct (Z.eqb_spec (strcmp path (chars "/")) 0); [contradiction|].
  rewrite Hfind, Epath.
  destruct Hv as [Hfh _].
  destruct (Z.ltb_spec (fh fi) 0); [lia|].
  rewrite Ee, Es, Em. reflexivity.
Qed.

Lemma write_then_getattr_witness :
  exists st',
    my_write (env_ok 2) (create_in fresh_state "/a.txt") (chars "0123456789")
             0 (handle 0) = Done (10, st')
    /\ st_size (snd (my_getattr st' (chars "/a.txt"))) = 10.
Proof.
  destruct (my_write_ok (env_ok 2) (create_in fresh_state "/a.txt")
              (chars "0123456789") 0 (handle 0)) as (st' & E);
    [by_running|lia|by_running|by_running|].
  exists st'. split; [exact E|].
  destruct (write_then_getattr (env_ok 2) (create_in fresh_state "/a.txt")
              (chars "0123456789") 0 (handle 0) st' (chars "/a.txt"))
    as (_ & H);
    [by_running|by_running|unfold OFF_MAX; lia|by_running|exact E|].
  rewrite H; [by_running|by_running|by_running].
Defined.

End Attributes.

(** ** The properties above on concrete runs *)

Section Instances.

Lemma my_create_idempotent_witness :
  exists st1,
    my_create (env_ok 1) fresh_state (chars "/a.txt") mode_0644 fi_plain
    = Done (0, st1, handle 0)
    /\ my_create (env_ok 5) st1 (chars "/a.txt") mode_0755 fi_plain
       = Done (0, st1, handle 0).
Proof.
  destruct (my_create_first_slot (env_ok 1) (chars "/a.txt") mode_0644 fi_plain)
    as (st1 & E1); [split; reflexivity|by_running|].
  exists st1. split; [exact E1|].
  destruct (my_create_idempotent (env_ok 1) (env_ok 5) fresh_state
              (chars "/a.txt") mode_0644 mode_0755 fi_plain fi_plain
              0 st1 (handle 0))
    as [(_ & _ & H)|(Hr & _)];
    [by_running|by_running|exact E1|exact H|discriminate Hr].
Defined.

Lemma callbacks_preserve_invariant_witness :
  counts_and_sizes_ok (create_in fresh_state "/a.txt") = true
  /\ names_unique (create_in fresh_state "/a.txt") = true.
Proof.
  destruct (my_create_first_slot (env_ok 1) (chars "/a.txt") mode_0644 fi_plain)
    as (st1 & E1); [split; reflexivity|by_running|].
  assert (Est : create_in fresh_state "/a.txt" = st1).
  { unfold create_in. rewrite E1. reflexivity. }
  rewrite Est.
  destruct (callbacks_preserve_invariant fresh_state) as (Hcreate & _);
    [by_running|by_running|].
  destruct (Hcreate (env_ok 1) (chars "/a.txt") mode_0644 fi_plain 0 st1
              (handle 0) E1) as (_ & Hc & Hu & _).
  split; [exact Hc|]. apply Hu; by_running.
Defined.

Lemma fatal_only_when_sync_fails_witness :
  exists r, my_unlink (env_ok 3) ten_byte_file (chars "/a.txt") = Done r.
Proof.
  destruct (fatal_only_when_sync_fails (env_ok 3) ten_byte_file)
    as (_ & _ & _ & _ & _ & H).
  destruct H as (_ & _ & _ & _ & H); [exact (env_ok_syncs 3)|].
  exact (H (chars "/a.txt")).
Defined.

Lemma find_file_by_name_first_match_witness :
  find_file_by_name (g_files ten_byte_file) (chars "/a.txt") = 0.
Proof.
  destruct (find_file_by_name_first_match (g_files ten_byte_file)
              (chars "/a.txt")) as (_ & _ & H).
  apply (H 0%nat); [by_running|].
  split; [by_running|]. split; [by_running|].
  intros j Hj. lia.
Defined.

Lemma alloc_file_slot_lowest_free_witness :
  alloc_file_slot (g_files ten_byte_file) = 1.
Proof.
  destruct (alloc_file_slot_lowest_free (g_files ten_byte_file))
    as (_ & _ & H).
  apply (H 1%nat); [by_running|].
  split; [by_running|].
  intros j Hj. assert (j = 0)%nat as -> by lia. by_running.
Defined.

End Instances.
